(** * Panel-Desktop: the parsing and bookkeeping code of [main.py]

    The panel shells out to command-line tools and turns their text or JSON
    output into small lists that the widgets display.  This development embeds
    those functions of [main.py] and proves what they compute.

    Part I holds the model, one module per group of source functions; Part II
    holds the lemmas and theorems about it.

    Conventions of the embedding:
    - a Python [str] is the list of its Unicode code points ([list N]);
    - a call that may raise is a value of [result]: [Ok v] or [Raised];
    - what the operating system answers (the output of a subprocess, the
      content of a file, the clock) is an argument of the function;
    - widgets are kept as the data the code puts into them. *)

From Stdlib Require Import ZArith NArith QArith Ascii String Lia.
From Stdlib Require Import Sorting.Sorted Sorting.Permutation.
From Stdlib Require Floats.SpecFloat.
From stdpp Require Import base option list gmap strings.

Close Scope Q_scope.
Open Scope string_scope.
Open Scope list_scope.

(* ===================================================================== *)
(** * Part I.  The model                                                  *)
(* ===================================================================== *)

(** ** Python text and the built-ins the panel calls *)

Module Py.

(** The outcome of a call that can raise. *)
Inductive result (A : Type) : Type :=
| Ok (a : A)
| Raised.
Arguments Ok {A} a.
Arguments Raised {A}.

(** A string literal of the source, as code points. *)
Fixpoint lit (s : string) : list N :=
  match s with
  | EmptyString => []
  | String a r => N_of_ascii a :: lit r
  end.

(** [str.isspace] on one code point: the characters that [str.strip()] and
    [str.split()] treat as white space (CPython's [Py_UNICODE_ISSPACE]). *)
Definition is_space (c : N) : bool :=
  ((9 <=? c) && (c <=? 13) || (28 <=? c) && (c <=? 32)
   || (c =? 133) || (c =? 160) || (c =? 5760)
   || (8192 <=? c) && (c <=? 8202)
   || (c =? 8232) || (c =? 8233) || (c =? 8239) || (c =? 8287)
   || (c =? 12288))%N.

(** [s.lstrip(chars)], [s.rstrip(chars)], [s.strip(chars)] for the set of
    characters recognised by [p]. *)
Fixpoint lstrip_by (p : N -> bool) (s : list N) : list N :=
  match s with
  | [] => []
  | c :: r => if p c then lstrip_by p r else s
  end.

Fixpoint rstrip_by (p : N -> bool) (s : list N) : list N :=
  match s with
  | [] => []
  | c :: r =>
      match rstrip_by p r with
      | [] => if p c then [] else [c]
      | r' => c :: r'
      end
  end.

Definition strip_by (p : N -> bool) (s : list N) : list N :=
  rstrip_by p (lstrip_by p s).

(** Membership of a code point in the argument of [strip(chars)]. *)
Definition in_chars (chars : list N) (c : N) : bool :=
  existsb (N.eqb c) chars.

(** [s.strip()], [s.rstrip('%')] and [s.strip('[]%')]. *)
Definition strip (s : list N) : list N := strip_by is_space s.
Definition rstrip_chars (chars s : list N) : list N := rstrip_by (in_chars chars) s.
Definition strip_chars (chars s : list N) : list N := strip_by (in_chars chars) s.

(** [s.split(sep)] for a separator of one character: never empty, one more
    piece than there are separators. *)
Fixpoint split_on (sep : N) (s : list N) : list (list N) :=
  match s with
  | [] => [[]]
  | c :: r =>
      if (c =? sep)%N then [] :: split_on sep r
      else match split_on sep r with
           | w :: ws => (c :: w) :: ws
           | [] => [[c]]
           end
  end.

(** [s.split(None, maxsplit)], CPython's [split_whitespace]: white space is
    skipped, a word runs to the next white space, and once [maxsplit] words
    have been cut the rest of the string, from its first character that is no
    white space to its very end, is the last piece.  [word] is the word being
    read, most recent character first; [n] is the number of cuts left, [None]
    for no limit. *)
Fixpoint split_scan (n : option nat) (word : option (list N)) (s : list N)
  : list (list N) :=
  match s with
  | [] => match word with Some w => [rev w] | None => [] end
  | c :: r =>
      match word with
      | Some w =>
          if is_space c then rev w :: split_scan n None r
          else split_scan n (Some (c :: w)) r
      | None =>
          if is_space c then split_scan n None r
          else match n with
               | Some O => [c :: r]
               | Some (S n') => split_scan (Some n') (Some [c]) r
               | None => split_scan None (Some [c]) r
               end
      end
  end.

Definition split_ws (maxsplit : option nat) (s : list N) : list (list N) :=
  split_scan maxsplit None s.

(** [s.startswith(p)], [s.endswith(p)] and [p in s]. *)
Fixpoint startswith (s p : list N) {struct p} : bool :=
  match p, s with
  | [], _ => true
  | _ :: _, [] => false
  | a :: p', b :: s' => (a =? b)%N && startswith s' p'
  end.

Definition endswith (s p : list N) : bool := startswith (rev s) (rev p).

Fixpoint contains (p s : list N) : bool :=
  startswith s p ||
  match s with
  | [] => false
  | _ :: r => contains p r
  end.

(** The lines the parsing loops run over: [out.strip().split('\n')], the
    output without the white space around it, cut at each newline. *)
Definition output_lines (out : list N) : list (list N) :=
  split_on 10 (strip out).

(** [Blank s]: only white space.  [Word s]: not empty, no white space. *)
Definition Blank (s : list N) : Prop := Forall (fun c => is_space c = true) s.
Definition Word (s : list N) : Prop :=
  s <> [] /\ Forall (fun c => is_space c = false) s.

(** The string is empty or starts with white space. *)
Definition starts_blank (s : list N) : Prop :=
  match s with [] => True | c :: _ => is_space c = true end.

(** [Words s ws]: [ws] are the words of [s], the maximal runs of characters
    that are no white space, in order.  This is what [s.split()] is
    documented to return. *)
Inductive Words : list N -> list (list N) -> Prop :=
| Words_blank s : Blank s -> Words s []
| Words_word g w s ws :
    Blank g -> Word w -> starts_blank s -> Words s ws ->
    Words (g ++ w ++ s) (w :: ws).

(** Truth value of a string. *)
Definition truthy (s : list N) : bool :=
  match s with [] => false | _ => true end.

(** The built-ins whose result depends on the Unicode tables of the
    interpreter: [str.lower()] and [int(s)] ([None] when [int] raises
    [ValueError]).  The panel's functions take them as they are. *)
Class Builtins := {
  lower : list N -> list N;
  int_of_str : list N -> option Z
}.

(** An instance for examples: both built-ins restricted to ASCII letters and
    to an optional sign followed by ASCII digits. *)
Definition ascii_lower_char (c : N) : N :=
  if ((65 <=? c) && (c <=? 90))%N then (c + 32)%N else c.

Fixpoint digits_value (acc : Z) (s : list N) : option Z :=
  match s with
  | [] => Some acc
  | c :: r =>
      if ((48 <=? c) && (c <=? 57))%N
      then digits_value (10 * acc + Z.of_N (c - 48))%Z r
      else None
  end.

Definition ascii_int (s : list N) : option Z :=
  match strip s with
  | [] => None
  | c :: r =>
      if (c =? 45)%N then
        match r with [] => None | _ => Z.opp <$> digits_value 0 r end
      else if (c =? 43)%N then
        match r with [] => None | _ => digits_value 0 r end
      else digits_value 0 (c :: r)
  end.

Definition ascii_builtins : Builtins :=
  {| lower := map ascii_lower_char; int_of_str := ascii_int |}.

(** What cutting and trimming mean, stated on the text itself, without the
    functions above. *)

(** [join_by sep pieces]: the pieces with [sep] between them. *)
Definition join_by (sep : N) (pieces : list (list N)) : list N :=
  match pieces with
  | [] => []
  | f :: fs => f ++ concat (map (fun g => sep :: g) fs)
  end.

(** [Pieces sep text pieces]: [text] is cut at every [sep]; the pieces hold
    no [sep] and give the text back when joined. *)
Definition Pieces (sep : N) (text : list N) (pieces : list (list N)) : Prop :=
  pieces <> [] /\ text = join_by sep pieces /\
  Forall (fun f => ~ In sep f) pieces.

(** The lines of a text: its pieces between newlines. *)
Definition Lines (text : list N) (lines : list (list N)) : Prop :=
  Pieces 10 text lines.

(** [Trimmed_of P s core]: [core] is [s] without the characters in [P] at
    its start and at its end; [core] itself neither starts nor ends with
    one. *)
Definition Trimmed_of (P : N -> Prop) (s core : list N) : Prop :=
  exists pre post,
    s = pre ++ core ++ post /\ Forall P pre /\ Forall P post /\
    (forall c r, core = c :: r -> ~ P c) /\
    (forall r c, core = r ++ [c] -> ~ P c).

(** [Trimmed_end_of P s core]: the same at the end only. *)
Definition Trimmed_end_of (P : N -> Prop) (s core : list N) : Prop :=
  exists post,
    s = core ++ post /\ Forall P post /\
    (forall r c, core = r ++ [c] -> ~ P c).

(** A text without the white space around it. *)
Definition Trimmed (s core : list N) : Prop :=
  Trimmed_of (fun c => is_space c = true) s core.

(** [Suffix p s]: [s] ends with [p]. *)
Definition Suffix (p s : list N) : Prop := exists b, s = b ++ p.

End Py.

(** ** The window list: [update_windows_threaded] and [update_windows_display] *)

Module Windows.
Import Py.

(** What [subprocess.run(['wmctrl', '-l'], capture_output=True, text=True,
    timeout=5)] returns when it does not raise. *)
Record completed := { returncode : Z; stdout : list N }.

Definition panel_title : list N := lit "Panel de Escritorio".

(** One turn of the loop [for line in lines]: the list [windows] after it. *)
Definition scan_line (line : list N) (windows : list (list N * list N))
  : list (list N * list N) :=
  if truthy (strip line) then
    match split_ws (Some 3) line with
    | window_id :: _ :: _ :: window_title :: _ =>
        if negb (contains panel_title window_title)
        then windows ++ [(window_id, window_title)]
        else windows
    | _ => windows
    end
  else windows.

Fixpoint scan_lines (lines : list (list N)) (windows : list (list N * list N))
  : list (list N * list N) :=
  match lines with
  | [] => windows
  | line :: rest => scan_lines rest (scan_line line windows)
  end.

(** The list built from the text that [wmctrl -l] printed. *)
Definition parse_windows (out : list N) : list (list N * list N) :=
  scan_lines (output_lines out) [].

(** [worker] of [update_windows_threaded]: the arguments of the calls to
    [update_windows_signal.emit], in order.  A return code other than 0 emits
    nothing; an exception emits the empty list. *)
Definition worker (run : result completed) : list (list (list N * list N)) :=
  match run with
  | Raised => [[]]
  | Ok r =>
      if (returncode r =? 0)%Z then [parse_windows (stdout r)] else []
  end.

(** What [windows_layout] holds. *)
Inductive layout_item :=
| WindowButton (window_id window_title : list N)
| Spacer
| Widget (name : list N).

(** [windows_layout.takeAt(i)]; the item taken is deleted by the caller. *)
Definition takeAt (i : nat) (layout : list layout_item) : list layout_item :=
  delete i layout.

(** [for i in reversed(range(self.windows_layout.count()))]: take item [i]. *)
Definition clear_layout (layout : list layout_item) : list layout_item :=
  fold_left (fun l i => takeAt i l) (rev (seq 0 (length layout))) layout.

(** [update_windows_display]: the layout after the call. *)
Definition update_windows_display (windows : list (list N * list N))
    (layout : list layout_item) : list layout_item :=
  let cleared := clear_layout layout in
  let filled :=
    fold_left (fun l w => l ++ [WindowButton (fst w) (snd w)])
              (take 8 windows) cleared in
  if (length windows <? 8)%nat then filled ++ [Spacer] else filled.

(** The window buttons of a layout, in order. *)
Definition window_buttons (layout : list layout_item) : list (list N * list N) :=
  omap (fun it => match it with
                  | WindowButton i t => Some (i, t)
                  | _ => None
                  end) layout.

(** [Fields4 line f1 f2 f3 rest]: the line splits at white space into the
    three words [f1], [f2], [f3] and a fourth field [rest], which is all that
    remains of the line from its first character that is no white space. *)
Definition Fields4 (line f1 f2 f3 rest : list N) : Prop :=
  exists g0 g1 g2 g3 c rest',
    line = g0 ++ f1 ++ g1 ++ f2 ++ g2 ++ f3 ++ g3 ++ rest /\
    Blank g0 /\ Blank g1 /\ Blank g2 /\ Blank g3 /\
    g1 <> [] /\ g2 <> [] /\ g3 <> [] /\
    Word f1 /\ Word f2 /\ Word f3 /\
    rest = c :: rest' /\ is_space c = false.

Definition Substring (p s : list N) : Prop := exists a b, s = a ++ p ++ b.

(** A line that becomes the entry [(window_id, window_title)]. *)
Definition Window_line (line window_id window_title : list N) : Prop :=
  ~ Blank line /\
  (exists f2 f3, Fields4 line window_id f2 f3 window_title) /\
  ~ Substring panel_title window_title.

(** [Listed lines windows]: [windows] holds, in the order of the lines, one
    entry for each line that is a window line, and nothing else. *)
Inductive Listed : list (list N) -> list (list N * list N) -> Prop :=
| Listed_nil : Listed [] []
| Listed_keep line rest window_id window_title windows :
    Window_line line window_id window_title ->
    Listed rest windows ->
    Listed (line :: rest) ((window_id, window_title) :: windows)
| Listed_skip line rest windows :
    (forall window_id window_title, ~ Window_line line window_id window_title) ->
    Listed rest windows ->
    Listed (line :: rest) windows.

End Windows.

(** ** WiFi networks: [get_wifi_networks] *)

Module Wifi.
Import Py.

(** The dictionary appended for one network. *)
Record network := {
  ssid : list N;
  signal : Z;
  security : list N;
  in_use : bool
}.

Definition colon : N := 58.

(** [int(signal) if signal else 0]. *)
Definition signal_of `{Builtins} (field : list N) : option Z :=
  if truthy field then int_of_str field else Some 0%Z.

(** [security if security != '' else 'Abierta']. *)
Definition security_of (field : list N) : list N :=
  match field with [] => lit "Abierta" | _ => field end.

(** [in_use == '*']. *)
Definition in_use_of (field : list N) : bool :=
  match field with [c] => (c =? 42)%N | _ => false end.

(** One turn of [for line in output.strip().split('\n')].  Unpacking into
    four names raises [ValueError] unless the line has exactly four fields,
    and so does [int] on a field that is no number. *)
Definition scan_line `{Builtins} (line : list N) (networks : list network)
  : result (list network) :=
  if truthy line then
    match split_on colon line with
    | [f_ssid; f_signal; f_security; f_in_use] =>
        if truthy f_ssid then
          match signal_of f_signal with
          | Some n =>
              Ok (networks ++ [{| ssid := f_ssid; signal := n;
                                  security := security_of f_security;
                                  in_use := in_use_of f_in_use |}])
          | None => Raised
          end
        else Ok networks
    | _ => Raised
    end
  else Ok networks.

Fixpoint scan_lines `{Builtins} (lines : list (list N)) (networks : list network)
  : result (list network) :=
  match lines with
  | [] => Ok networks
  | line :: rest =>
      match scan_line line networks with
      | Ok networks' => scan_lines rest networks'
      | Raised => Raised
      end
  end.

(** [sorted(networks, key=lambda x: x['signal'], reverse=True)]: the stable
    sort by decreasing signal; an element goes in front of the elements
    already placed whose signal is not larger, which came after it. *)
Fixpoint insert_by_signal (x : network) (l : list network) : list network :=
  match l with
  | [] => [x]
  | y :: r =>
      if (signal y <=? signal x)%Z then x :: l
      else y :: insert_by_signal x r
  end.

Definition sorted_by_signal (l : list network) : list network :=
  foldr insert_by_signal [] l.

(** [get_wifi_networks], given what [subprocess.check_output] did. *)
Definition get_wifi_networks `{Builtins} (run : result (list N)) : list network :=
  match run with
  | Raised => []
  | Ok output =>
      match scan_lines (output_lines output) [] with
      | Ok networks => sorted_by_signal networks
      | Raised => []
      end
  end.

(** A line read as the specification does: its colon-separated fields, and
    the record they give. *)
Definition join_fields (fields : list (list N)) : list N :=
  match fields with
  | [] => []
  | f :: fs => f ++ concat (map (fun g => colon :: g) fs)
  end.

Definition Fields (line : list N) (fields : list (list N)) : Prop :=
  fields <> [] /\ line = join_fields fields /\
  Forall (fun f => ~ In colon f) fields.

(** The line gives the record [n]. *)
Definition Network_line `{Builtins} (line : list N) (n : network) : Prop :=
  exists f_signal f_security f_in_use,
    Fields line [ssid n; f_signal; f_security; f_in_use] /\
    ssid n <> [] /\
    (f_signal = [] /\ signal n = 0%Z \/
     f_signal <> [] /\ int_of_str f_signal = Some (signal n)) /\
    (f_security = [] /\ security n = lit "Abierta" \/
     f_security <> [] /\ security n = f_security) /\
    (in_use n = true <-> f_in_use = lit "*").

(** The line gives no record and is no error: it is empty, or its SSID is. *)
Definition Ignored_line (line : list N) : Prop :=
  line = [] \/
  exists f_signal f_security f_in_use,
    Fields line [[]; f_signal; f_security; f_in_use].

(** [Parsed lines networks]: one record per line that gives one, in order. *)
Inductive Parsed `{Builtins} : list (list N) -> list network -> Prop :=
| Parsed_nil : Parsed [] []
| Parsed_record line rest n networks :
    Network_line line n -> Parsed rest networks ->
    Parsed (line :: rest) (n :: networks)
| Parsed_ignored line rest networks :
    Ignored_line line -> Parsed rest networks ->
    Parsed (line :: rest) networks.

(** A line on which parsing fails: it is not empty and has not exactly
    four fields, or it has an SSID and a signal that [int] rejects. *)
Definition Bad_line `{Builtins} (line : list N) : Prop :=
  line <> [] /\
  ((exists fields, Fields line fields /\ length fields <> 4%nat) \/
   (exists f_ssid f_signal f_security f_in_use,
       Fields line [f_ssid; f_signal; f_security; f_in_use] /\
       f_ssid <> [] /\ f_signal <> [] /\ int_of_str f_signal = None)).

(** Non-increasing signal. *)
Definition by_signal (a b : network) : Prop := (signal b <= signal a)%Z.

End Wifi.

(** ** JSON values, as [json.loads] returns them *)

Module Json.
Import Py.

#[local] Set Warnings "-register-all".

(** A [float] is kept as the IEEE value it is; an object is the list of its
    members as written, read as the [dict] that [json.loads] builds from it:
    the last value written for a key is the one the key has. *)
Inductive json :=
| JNull
| JBool (b : bool)
| JInt (z : Z)
| JFloat (f : SpecFloat.spec_float)
| JStr (s : list N)
| JArr (items : list json)
| JObj (members : list (list N * json)).

(** [d.get(key)] on the dictionary of an object; [None] for a missing key. *)
Fixpoint obj_get (key : list N) (members : list (list N * json)) : option json :=
  match members with
  | [] => None
  | (k, v) :: rest =>
      match obj_get key rest with
      | Some v' => Some v'
      | None => if decide (k = key) then Some v else None
      end
  end.

(** The keys of that dictionary, in the order of their first insertion. *)
Fixpoint obj_keys (members : list (list N * json)) : list (list N) :=
  match members with
  | [] => []
  | (k, _) :: rest => k :: filter (fun k' => k' <> k) (obj_keys rest)
  end.

(** [bool(v)]. *)
Definition truthy (v : json) : bool :=
  match v with
  | JNull => false
  | JBool b => b
  | JInt z => negb (z =? 0)%Z
  | JFloat f => match f with SpecFloat.S754_zero _ => false | _ => true end
  | JStr s => Py.truthy s
  | JArr items => match items with [] => false | _ => true end
  | JObj members => match members with [] => false | _ => true end
  end.

(** [v == s] for a string [s], where [v] is the result of [d.get(key)]. *)
Definition eq_str (v : option json) (s : list N) : bool :=
  match v with
  | Some (JStr t) => bool_decide (t = s)
  | _ => false
  end.

(** [for x in v]: the values a loop over [v] meets; [TypeError] for a value
    that is not iterable.  A dictionary yields its keys, a string its
    characters. *)
Definition iterate (v : json) : result (list json) :=
  match v with
  | JArr items => Ok items
  | JObj members => Ok (map JStr (obj_keys members))
  | JStr s => Ok (map (fun c => JStr [c]) s)
  | _ => Raised
  end.

End Json.

(** ** External storage: [get_storage_devices] *)

Module Storage.
Import Py Json.

(** The dictionary appended for a device. *)
Record entry := {
  name : json;
  path : json;
  size : json;
  mountpoint : json;
  vendor : json;
  model : json
}.

(** [os.path.basename(p)]: what follows the last slash. *)
Fixpoint basename (p : list N) : list N :=
  match p with
  | [] => []
  | c :: r => if existsb (N.eqb 47) r then basename r
              else if (c =? 47)%N then r else p
  end.

(** The test of the [if] in the loop, on the dictionary of a device. *)
Definition external_and_mounted (d : list (list N * json)) : bool :=
  (eq_str (obj_get (lit "type") d) (lit "disk")
   || eq_str (obj_get (lit "type") d) (lit "part"))
  && (eq_str (obj_get (lit "rm") d) (lit "1")
      || eq_str (obj_get (lit "hotplug") d) (lit "1")
      || eq_str (obj_get (lit "tran") d) (lit "usb"))
  && match obj_get (lit "mountpoint") d with
     | Some v => truthy v
     | None => false
     end.

(** [device.get(key, '').strip()]: [AttributeError] unless the value is a
    string. *)
Definition stripped_field (key : list N) (d : list (list N * json))
  : result (list N) :=
  match default (JStr []) (obj_get key d) with
  | JStr s => Ok (strip s)
  | _ => Raised
  end.

(** The descriptive name: the label, or vendor and model, or the last
    component of the mount point ([TypeError] when that is no string). *)
Definition descriptive_name (d : list (list N * json)) : result json :=
  let label := default (JStr []) (obj_get (lit "label") d) in
  if truthy label then Ok label
  else
    match stripped_field (lit "vendor") d with
    | Raised => Raised
    | Ok v =>
        match stripped_field (lit "model") d with
        | Raised => Raised
        | Ok m =>
            if Py.truthy v || Py.truthy m
            then Ok (JStr (strip (v ++ lit " " ++ m)))
            else
              match obj_get (lit "mountpoint") d with
              | Some (JStr p) => Ok (JStr (basename p))
              | _ => Raised
              end
        end
    end.

(** One turn of [for device in data['blockdevices']]: the list [devices]
    after it, or the exception that ends the loop. *)
Definition scan_device (device : json) (devices : list entry)
  : result (list entry) :=
  match device with
  | JObj d =>
      if external_and_mounted d then
        match descriptive_name d with
        | Raised => Raised
        | Ok nm =>
            match obj_get (lit "name") d, obj_get (lit "mountpoint") d with
            | Some p, Some mp =>
                Ok (devices ++
                    [{| name := nm; path := p;
                        size := default (JStr (lit "Desconocido"))
                                        (obj_get (lit "size") d);
                        mountpoint := mp;
                        vendor := default (JStr []) (obj_get (lit "vendor") d);
                        model := default (JStr []) (obj_get (lit "model") d) |}])
            | _, _ => Raised
            end
        end
      else Ok devices
  | _ => Raised
  end.

(** The loop; an exception leaves [devices] as it was when it was raised,
    and the handler falls through to [return devices]. *)
Fixpoint scan_devices (items : list json) (devices : list entry) : list entry :=
  match items with
  | [] => devices
  | device :: rest =>
      match scan_device device devices with
      | Ok devices' => scan_devices rest devices'
      | Raised => devices
      end
  end.

(** [get_storage_devices]; [run] is [Raised] when [subprocess.check_output]
    or [json.loads] raised, and the parsed document otherwise. *)
Definition get_storage_devices (run : result json) : list entry :=
  match run with
  | Raised => []
  | Ok (JObj data) =>
      match obj_get (lit "blockdevices") data with
      | None => []
      | Some v =>
          match iterate v with
          | Ok items => scan_devices items []
          | Raised => []
          end
      end
  | Ok _ =>
      (* ['blockdevices' in data] is false, or raises, or is followed by
         [data['blockdevices']] raising [TypeError]. *)
      []
  end.

(** The specification's condition for listing a device. *)
Definition Is_str (v : option json) (s : list N) : Prop := v = Some (JStr s).

Definition Should_list (d : list (list N * json)) : Prop :=
  (Is_str (obj_get (lit "type") d) (lit "disk")
   \/ Is_str (obj_get (lit "type") d) (lit "part")) /\
  (exists mp, obj_get (lit "mountpoint") d = Some mp /\ truthy mp = true) /\
  (Is_str (obj_get (lit "rm") d) (lit "1")
   \/ Is_str (obj_get (lit "hotplug") d) (lit "1")
   \/ Is_str (obj_get (lit "tran") d) (lit "usb")).

(** The name the specification promises: the label when it is not empty, else
    "vendor model" stripped when one of the two is not empty, else the last
    component of the mount point.  A field that is missing, [null] or not a
    string counts as empty. *)
Definition text_of (v : option json) : list N :=
  match v with
  | Some (JStr s) => s
  | _ => []
  end.

Definition promised_name (d : list (list N * json)) : json :=
  let label := default (JStr []) (obj_get (lit "label") d) in
  if truthy label then label
  else
    let v := strip (text_of (obj_get (lit "vendor") d)) in
    let m := strip (text_of (obj_get (lit "model") d)) in
    if Py.truthy v || Py.truthy m then JStr (strip (v ++ lit " " ++ m))
    else JStr (basename (text_of (obj_get (lit "mountpoint") d))).

(** A device on which the code raises nothing: it has a name, and the fields
    its descriptive name is taken from are strings where the code needs a
    string. *)
Definition str_or_absent (v : option json) : Prop :=
  v = None \/ exists s, v = Some (JStr s).

Definition Plain (d : list (list N * json)) : Prop :=
  is_Some (obj_get (lit "name") d) /\
  (truthy (default (JStr []) (obj_get (lit "label") d)) = false ->
   str_or_absent (obj_get (lit "vendor") d) /\
   str_or_absent (obj_get (lit "model") d) /\
   exists p, obj_get (lit "mountpoint") d = Some (JStr p)).

(** [Listing items devices]: one entry per device to list, in order, with
    the promised name and the device's own path and mount point. *)
Inductive Listing : list json -> list entry -> Prop :=
| Listing_nil : Listing [] []
| Listing_entry d rest e devices :
    Should_list d ->
    name e = promised_name d ->
    Some (path e) = obj_get (lit "name") d ->
    Some (mountpoint e) = obj_get (lit "mountpoint") d ->
    Listing rest devices ->
    Listing (JObj d :: rest) (e :: devices)
| Listing_skip d rest devices :
    ~ Should_list d ->
    Listing rest devices ->
    Listing (JObj d :: rest) devices.

(** An element of [blockdevices] on which the loop raises nothing. *)
Definition Plain_item (item : json) : Prop :=
  exists d, item = JObj d /\ (Should_list d -> Plain d).

(** Two devices as [lsblk -Jpo ...] reports them: a memory card without
    label, vendor or model, and a USB stick. *)
Definition memory_card : list (list N * json) :=
  [(lit "name", JStr (lit "/dev/mmcblk0"));
   (lit "label", JNull);
   (lit "type", JStr (lit "disk"));
   (lit "size", JStr (lit "29.7G"));
   (lit "mountpoint", JStr (lit "/media/card"));
   (lit "vendor", JNull);
   (lit "model", JNull);
   (lit "hotplug", JStr (lit "1"));
   (lit "rm", JStr (lit "0"));
   (lit "tran", JNull)].

Definition usb_stick : list (list N * json) :=
  [(lit "name", JStr (lit "/dev/sdb"));
   (lit "label", JStr (lit "BACKUP"));
   (lit "type", JStr (lit "disk"));
   (lit "size", JStr (lit "8G"));
   (lit "mountpoint", JStr (lit "/media/backup"));
   (lit "vendor", JStr (lit "Kingston"));
   (lit "model", JStr (lit "DataTraveler"));
   (lit "hotplug", JStr (lit "1"));
   (lit "rm", JStr (lit "1"));
   (lit "tran", JStr (lit "usb"))].

(** A USB disk whose mounted partition is nested under [children], the way
    [lsblk -J] prints partitions. *)
Definition usb_disk_with_partition : list (list N * json) :=
  [(lit "name", JStr (lit "/dev/sdc"));
   (lit "label", JNull);
   (lit "type", JStr (lit "disk"));
   (lit "size", JStr (lit "16G"));
   (lit "mountpoint", JNull);
   (lit "vendor", JStr (lit "SanDisk"));
   (lit "model", JStr (lit "Cruzer"));
   (lit "hotplug", JStr (lit "1"));
   (lit "rm", JStr (lit "1"));
   (lit "tran", JStr (lit "usb"));
   (lit "children",
    JArr [JObj [(lit "name", JStr (lit "/dev/sdc1"));
                (lit "label", JStr (lit "PHOTOS"));
                (lit "type", JStr (lit "part"));
                (lit "size", JStr (lit "16G"));
                (lit "mountpoint", JStr (lit "/media/photos"));
                (lit "vendor", JNull);
                (lit "model", JNull);
                (lit "hotplug", JStr (lit "1"));
                (lit "rm", JStr (lit "1"));
                (lit "tran", JStr (lit "usb"))]])].

Definition lsblk_document (devices : list json) : json :=
  JObj [(lit "blockdevices", JArr devices)].

End Storage.

(** ** Volume: [get_volume_info] *)

Module Volume.
Import Py.

(** What each call of [subprocess.check_output] gives if it is made: the
    text printed, or [Raised] (missing program, exit status other than 0). *)
Record commands := {
  pactl_get_sink_volume : result (list N);
  pactl_get_sink_mute : result (list N);
  amixer_get_master : result (list N)
}.

(** [int(s)] as a call that raises. *)
Definition int_or_raise `{Builtins} (s : list N) : result Z :=
  match int_of_str s with
  | Some z => Ok z
  | None => Raised
  end.

(** [l[-2]]. *)
Definition second_to_last {A} (l : list A) : option A :=
  if (2 <=? length l)%nat then l !! (length l - 2)%nat else None.

(** The body of the outer [try]. *)
Definition with_pactl `{Builtins} (c : commands) : result (Z * bool) :=
  match pactl_get_sink_volume c with
  | Raised => Raised
  | Ok output =>
      match split_ws None output !! 4%nat with
      | None => Raised
      | Some tok =>
          match int_or_raise (rstrip_chars (lit "%") tok) with
          | Raised => Raised
          | Ok volume =>
              match pactl_get_sink_mute c with
              | Raised => Raised
              | Ok mute_output =>
                  Ok (volume, contains (lit "yes") (lower mute_output))
              end
          end
      end
  end.

(** The body of the inner [try]. *)
Definition with_amixer `{Builtins} (c : commands) : result (Z * bool) :=
  match amixer_get_master c with
  | Raised => Raised
  | Ok output =>
      match second_to_last (split_ws None output) with
      | None => Raised
      | Some tok =>
          match int_or_raise (strip_chars (lit "[]%") tok) with
          | Raised => Raised
          | Ok volume => Ok (volume, contains (lit "off") (lower output))
          end
      end
  end.

(** What the three commands print on a machine at half volume. *)
Definition sample_commands : commands :=
  {| pactl_get_sink_volume :=
       Ok (lit "Volume: front-left: 32768 /  50% / -18.06 dB,   front-right: 32768 /  50% / -18.06 dB"
             ++ [10%N] ++ lit "        balance 0.00" ++ [10%N]);
     pactl_get_sink_mute := Ok (lit "Mute: no" ++ [10%N]);
     amixer_get_master :=
       Ok (lit "Simple mixer control 'Master',0" ++ [10%N]
             ++ lit "  Mono: Playback 32768 [50%] [off]" ++ [10%N]) |}.

Definition get_volume_info `{Builtins} (c : commands) : Z * bool :=
  match with_pactl c with
  | Ok r => r
  | Raised =>
      match with_amixer c with
      | Ok r => r
      | Raised => (0%Z, true)
      end
  end.

(** The pair that the output of [pactl] stands for: the fifth word of the
    volume output without the percent signs at its end, read as a number,
    and whether the lower-cased mute output contains "yes". *)
Definition Pactl_reading `{Builtins} (c : commands) (volume : Z) (muted : bool)
  : Prop :=
  exists output words tok number mute_output,
    pactl_get_sink_volume c = Ok output /\
    Words output words /\ words !! 4%nat = Some tok /\
    Trimmed_end_of (fun ch => ch = 37%N) tok number /\
    int_of_str number = Some volume /\
    pactl_get_sink_mute c = Ok mute_output /\
    (muted = true <-> Windows.Substring (lit "yes") (lower mute_output)).

(** The pair that the output of [amixer get Master] stands for: the word
    before the last without the brackets and percent signs around it, read
    as a number, and whether the lower-cased output contains "off". *)
Definition Amixer_reading `{Builtins} (c : commands) (volume : Z) (muted : bool)
  : Prop :=
  exists output words front tok final number,
    amixer_get_master c = Ok output /\
    Words output words /\ words = front ++ [tok; final] /\
    Trimmed_of (fun ch => In ch (lit "[]%")) tok number /\
    int_of_str number = Some volume /\
    (muted = true <-> Windows.Substring (lit "off") (lower output)).

End Volume.

(** ** The application menu: [ApplicationMenu.load_applications] *)

Module Apps.
Import Py.

(** A [ConfigParser] after [read]: the options of the [DEFAULT] section and
    those of each section, option names as the parser stores them. *)
Record config := {
  defaults : list (list N * list N);
  sections : list (list N * list (list N * list N))
}.

Inductive read_outcome :=
| ReadRaises
| ReadOk (c : config).

(** The files: [os.path.isdir], [os.listdir] (which raises [OSError] on a
    directory that cannot be read), [os.path.expanduser], and what
    [config.read(path, encoding="utf-8")] does to a fresh parser. *)
Record filesystem := {
  isdir : list N -> bool;
  listdir : list N -> result (list (list N));
  expanduser : list N -> list N;
  read : list N -> read_outcome
}.

(** How [load_applications] ends, with the value of [self.applications] at
    that point: it returns, or [os.listdir], which no [try] encloses,
    raises and the exception leaves the function. *)
Inductive outcome :=
| Returned (applications : list (list N * list N * list N))
| Raises (applications : list (list N * list N * list N)).

(** First value bound to a key. *)
Fixpoint assoc {V} (key : list N) (l : list (list N * V)) : option V :=
  match l with
  | [] => None
  | (k, v) :: r => if decide (k = key) then Some v else assoc key r
  end.

(** [entry.get(option)]: the option name goes through [optionxform], which
    is [str.lower]; the section is searched before the defaults. *)
Definition entry_get `{Builtins} (c : config) (entry : list (list N * list N))
    (opt : list N) : option (list N) :=
  match assoc (lower opt) entry with
  | Some v => Some v
  | None => assoc (lower opt) (defaults c)
  end.

(** [os.path.join(d, fname)] for a name that [os.listdir] returned. *)
Definition path_join (d fname : list N) : list N :=
  if negb (truthy d) || endswith d (lit "/") then d ++ fname
  else d ++ lit "/" ++ fname.

(** The body of the [try] for one file: the tuple appended, if any.  Both
    [continue] statements and the handler give [None]. *)
Definition load_file `{Builtins} (fs : filesystem) (path : list N)
  : option (list N * list N * list N) :=
  match read fs path with
  | ReadRaises => None
  | ReadOk c =>
      match assoc (lit "Desktop Entry") (sections c) with
      | None => None
      | Some entry =>
          if bool_decide
               (lower (default (lit "false") (entry_get c entry (lit "NoDisplay")))
                = lit "true")
          then None
          else
            let name := default [] (entry_get c entry (lit "Name")) in
            let exec_cmd := default [] (entry_get c entry (lit "Exec")) in
            let icon := default [] (entry_get c entry (lit "Icon")) in
            if truthy name && truthy exec_cmd then
              match split_ws None exec_cmd with
              | exec_cmd_clean :: _ => Some (name, exec_cmd_clean, icon)
              | [] => None
              end
            else None
      end
  end.

(** [for fname in os.listdir(d)]. *)
Fixpoint scan_dir `{Builtins} (fs : filesystem) (d : list N)
    (names : list (list N)) (applications : list (list N * list N * list N))
  : list (list N * list N * list N) :=
  match names with
  | [] => applications
  | fname :: rest =>
      let applications' :=
        if endswith fname (lit ".desktop") then
          match load_file fs (path_join d fname) with
          | Some app => applications ++ [app]
          | None => applications
          end
        else applications in
      scan_dir fs d rest applications'
  end.

Definition desktop_dirs (fs : filesystem) : list (list N) :=
  [lit "/usr/share/applications";
   lit "/usr/local/share/applications";
   expanduser fs (lit "~/.local/share/applications")].

(** [for d in desktop_dirs]. *)
Fixpoint scan_dirs `{Builtins} (fs : filesystem) (dirs : list (list N))
    (applications : list (list N * list N * list N)) : outcome :=
  match dirs with
  | [] => Returned applications
  | d :: rest =>
      if isdir fs d then
        match listdir fs d with
        | Ok names => scan_dirs fs rest (scan_dir fs d names applications)
        | Raised => Raises applications
        end
      else scan_dirs fs rest applications
  end.

(** [load_applications]. *)
Definition load_applications `{Builtins} (fs : filesystem) : outcome :=
  scan_dirs fs (desktop_dirs fs) [].

(** A file of a directory, as the specification counts it: its name ends in
    [.desktop], and its path is the name inside the directory. *)
Definition Desktop_name (fname : list N) : Prop := Suffix (lit ".desktop") fname.

Definition Inside (d fname path : list N) : Prop :=
  ((d = [] \/ Suffix (lit "/") d) /\ path = d ++ fname) \/
  (d <> [] /\ ~ Suffix (lit "/") d /\ path = d ++ lit "/" ++ fname).

(** [Desktop_files_in d names paths]: the paths of the names that end in
    [.desktop], in the order of the listing. *)
Inductive Desktop_files_in (d : list N)
  : list (list N) -> list (list N) -> Prop :=
| Desktop_files_nil : Desktop_files_in d [] []
| Desktop_files_keep fname names path paths :
    Desktop_name fname -> Inside d fname path ->
    Desktop_files_in d names paths ->
    Desktop_files_in d (fname :: names) (path :: paths)
| Desktop_files_skip fname names paths :
    ~ Desktop_name fname ->
    Desktop_files_in d names paths ->
    Desktop_files_in d (fname :: names) paths.

(** [Scanned fs dirs files]: the files of the directories that exist, in the
    order of the directories; every directory that exists can be listed. *)
Inductive Scanned (fs : filesystem) : list (list N) -> list (list N) -> Prop :=
| Scanned_nil : Scanned fs [] []
| Scanned_missing d dirs files :
    isdir fs d = false -> Scanned fs dirs files ->
    Scanned fs (d :: dirs) files
| Scanned_listed d dirs names here files :
    isdir fs d = true -> listdir fs d = Ok names ->
    Desktop_files_in d names here -> Scanned fs dirs files ->
    Scanned fs (d :: dirs) (here ++ files).

(** The specification's condition on a file: it parses, has a [Desktop Entry]
    section that is not hidden, and a name and a command that are not empty. *)
Definition Qualifies `{Builtins} (fs : filesystem) (path : list N)
    (c : config) (entry : list (list N * list N)) (name exec_cmd : list N)
  : Prop :=
  read fs path = ReadOk c /\
  assoc (lit "Desktop Entry") (sections c) = Some entry /\
  lower (default (lit "false") (entry_get c entry (lit "NoDisplay"))) <> lit "true" /\
  entry_get c entry (lit "Name") = Some name /\ name <> [] /\
  entry_get c entry (lit "Exec") = Some exec_cmd /\ exec_cmd <> [].

(** The entry the specification promises for such a file. *)
Definition Entry_of `{Builtins} (fs : filesystem) (path : list N)
    (app : list N * list N * list N) : Prop :=
  exists c entry name exec_cmd first rest,
    Qualifies fs path c entry name exec_cmd /\
    Words exec_cmd (first :: rest) /\
    app = (name, first, default [] (entry_get c entry (lit "Icon"))).

(** [Collected files apps]: one entry per file that qualifies, in order. *)
Inductive Collected `{Builtins} (fs : filesystem)
  : list (list N) -> list (list N * list N * list N) -> Prop :=
| Collected_nil : Collected fs [] []
| Collected_entry path rest app apps :
    Entry_of fs path app -> Collected fs rest apps ->
    Collected fs (path :: rest) (app :: apps)
| Collected_skip path rest apps :
    (forall c entry name exec_cmd, ~ Qualifies fs path c entry name exec_cmd) ->
    Collected fs rest apps ->
    Collected fs (path :: rest) apps.

(** A directory with a launcher, a file that is no launcher and a launcher
    that does not parse. *)
Definition firefox_desktop : config :=
  {| defaults := [];
     sections :=
       [(lit "Desktop Entry",
         [(lit "name", lit "Firefox");
          (lit "exec", lit "firefox %u");
          (lit "icon", lit "firefox")])] |}.

Definition sample_files : filesystem :=
  {| isdir := fun d => bool_decide (d = lit "/usr/share/applications");
     listdir := fun _ =>
       Ok [lit "broken.desktop"; lit "README"; lit "firefox.desktop"];
     expanduser := fun p => lit "/home/user" ++ drop 1 p;
     read := fun path =>
       if bool_decide (path = lit "/usr/share/applications/firefox.desktop")
       then ReadOk firefox_desktop else ReadRaises |}.

(** A launcher without icon in the directory of the user, the launcher
    above in [/usr/share/applications], and between them a directory
    [/usr/local/share/applications] that exists and cannot be read. *)
Definition editor_desktop : config :=
  {| defaults := [];
     sections :=
       [(lit "Desktop Entry",
         [(lit "name", lit "Editor");
          (lit "exec", lit "gedit %F")])] |}.

Definition unreadable_local : filesystem :=
  {| isdir := fun d =>
       bool_decide (d = lit "/usr/share/applications")
       || bool_decide (d = lit "/usr/local/share/applications")
       || bool_decide (d = lit "/home/user/.local/share/applications");
     listdir := fun d =>
       if bool_decide (d = lit "/usr/share/applications")
       then Ok [lit "firefox.desktop"]
       else if bool_decide (d = lit "/usr/local/share/applications")
       then Raised
       else Ok [lit "editor.desktop"];
     expanduser := fun p => lit "/home/user" ++ drop 1 p;
     read := fun path =>
       if bool_decide (path = lit "/usr/share/applications/firefox.desktop")
       then ReadOk firefox_desktop
       else if bool_decide
                 (path = lit "/home/user/.local/share/applications/editor.desktop")
       then ReadOk editor_desktop
       else ReadRaises |}.

(** What [ConfigParser] guarantees of a value it stores: no white space at
    its end (the lines of a value are joined and the result is
    right-stripped). *)
Definition stripped_value (v : list N) : Prop := rstrip_by is_space v = v.

Definition stripped_config (c : config) : Prop :=
  Forall (fun kv => stripped_value (snd kv)) (defaults c) /\
  Forall (fun sec => Forall (fun kv => stripped_value (snd kv)) (snd sec))
         (sections c).

End Apps.

(** ** Decimal numerals *)

Module Numeral.

Fixpoint uint_chars (u : Decimal.uint) : list N :=
  match u with
  | Decimal.Nil => []
  | Decimal.D0 r => 48%N :: uint_chars r
  | Decimal.D1 r => 49%N :: uint_chars r
  | Decimal.D2 r => 50%N :: uint_chars r
  | Decimal.D3 r => 51%N :: uint_chars r
  | Decimal.D4 r => 52%N :: uint_chars r
  | Decimal.D5 r => 53%N :: uint_chars r
  | Decimal.D6 r => 54%N :: uint_chars r
  | Decimal.D7 r => 55%N :: uint_chars r
  | Decimal.D8 r => 56%N :: uint_chars r
  | Decimal.D9 r => 57%N :: uint_chars r
  end.

(** [str(n)] for a natural number. *)
Definition decimal (n : N) : list N := uint_chars (N.to_uint n).

(** [n] written with at least two digits, as [%02d] does. *)
Definition pad2 (n : N) : list N :=
  let d := decimal n in
  if (length d <? 2)%nat then 48%N :: d else d.

End Numeral.

(** ** CPU and memory: [update_system_info_threaded] *)

Module SysInfo.
Import Py Numeral.
Import SpecFloat.

(** What the two queries give: [psutil.cpu_percent(interval=0.1)] and
    [psutil.virtual_memory().percent]. *)
Record psutil := {
  cpu_percent : result spec_float;
  virtual_memory_percent : result spec_float
}.

(** The integer nearest to [m * 2^e], ties going to the even one. *)
Definition round_half_even (m : positive) (e : Z) : Z :=
  if (0 <=? e)%Z then (Z.pos m * 2 ^ e)%Z
  else
    let d := (2 ^ (- e))%Z in
    let q := (Z.pos m / d)%Z in
    let r := (Z.pos m mod d)%Z in
    if (2 * r <? d)%Z then q
    else if (d <? 2 * r)%Z then (q + 1)%Z
    else if Z.even q then q else (q + 1)%Z.

Definition sign_chars (s : bool) : list N := if s then lit "-" else [].

(** [f"{x:.0f}"] for a float [x]. *)
Definition format_0f (x : spec_float) : list N :=
  match x with
  | S754_zero s => sign_chars s ++ lit "0"
  | S754_infinity s => sign_chars s ++ lit "inf"
  | S754_nan => lit "nan"
  | S754_finite s m e => sign_chars s ++ decimal (Z.to_N (round_half_even m e))
  end.

(** [worker]: the arguments of the calls to [update_system_signal.emit], in
    order.  [ps] is [None] when [PSUTIL_AVAILABLE] is false. *)
Definition worker (ps : option psutil) : list (list N) :=
  match ps with
  | None => [lit "Sistema: N/A"]
  | Some p =>
      match cpu_percent p with
      | Raised => [lit "Sistema: Error"]
      | Ok cpu =>
          match virtual_memory_percent p with
          | Raised => [lit "Sistema: Error"]
          | Ok ram =>
              [lit "CPU: " ++ format_0f cpu ++ lit "% | RAM: "
                 ++ format_0f ram ++ lit "%"]
          end
      end
  end.

(** [update_system_info_display], the slot of the signal: the label's text. *)
Definition update_system_info_display (text : list N) (system_label : list N)
  : list N := text.


End SysInfo.

(** ** The clock: [setup_timers] and [update_clock] *)

Module Clock.
Import Py Numeral.

(** The fields of [datetime.datetime.now()] that the format uses. *)
Record datetime := { hour : N; minute : N; second : N }.

Definition valid (t : datetime) : Prop :=
  (hour t < 24 /\ minute t < 60 /\ second t < 60)%N.

(** [t.strftime("%H:%M:%S")]. *)
Definition strftime_HMS (t : datetime) : list N :=
  pad2 (hour t) ++ lit ":" ++ pad2 (minute t) ++ lit ":" ++ pad2 (second t).

(** The slots that [setup_timers] connects. *)
Inductive slot :=
| update_clock
| update_system_info_threaded
| update_network_status
| update_volume_status
| update_battery_status
| update_storage_status
| update_bluetooth_status
| update_windows_threaded.

(** A [QTimer]: the slots connected to [timeout], and the interval in
    milliseconds it was started with ([None] before [start]). *)
Record timer := { slots : list slot; interval : option Z }.

(** The part of the panel the clock touches: the text of [clock_label] and
    the timers, by attribute name. *)
Record panel := { clock_label : list N; timers : list (list N * timer) }.

(** [QTimer()], then [timeout.connect(s)], then [start(msec)]. *)
Definition started (s : slot) (msec : Z) : timer :=
  {| slots := [s]; interval := Some msec |}.

Definition setup_timers (p : panel) : panel :=
  {| clock_label := clock_label p;
     timers :=
       [(lit "clock_timer", started update_clock 1000);
        (lit "system_timer", started update_system_info_threaded 2000);
        (lit "network_timer", started update_network_status 5000);
        (lit "volume_timer", started update_volume_status 1000);
        (lit "battery_timer", started update_battery_status 5000);
        (lit "storage_timer", started update_storage_status 2000);
        (lit "bluetooth_timer", started update_bluetooth_status 2000);
        (lit "windows_timer", started update_windows_threaded 3000)] |}.

(** Running a slot when the clock reads [now].  Only [update_clock] writes
    the clock label; the other slots write other widgets. *)
Definition run_slot (now : datetime) (s : slot) (p : panel) : panel :=
  match s with
  | update_clock =>
      {| clock_label := strftime_HMS now; timers := timers p |}
  | _ => p
  end.

(** The [timeout] signal of the timer [name] fires: its slots run in the
    order they were connected. *)
Definition timeout (name : list N) (now : datetime) (p : panel) : panel :=
  match Apps.assoc name (timers p) with
  | Some t => fold_left (fun q s => run_slot now s q) (slots t) p
  | None => p
  end.

(** The firings of timers, one after the other. *)
Definition fire_all (events : list (list N * datetime)) (p : panel) : panel :=
  fold_left (fun q ev => timeout (fst ev) (snd ev) q) events p.

(** The panel when [setup_timers] is called: [create_widgets] has made the
    label, no timer exists. *)
Definition initial_panel : panel :=
  {| clock_label := lit "00:00:00"; timers := [] |}.

Definition is_digit (c : N) : Prop := (48 <= c <= 57)%N.

End Clock.

(** ** Notifications *)

Module Notifications.
Import Py.

Record NotificationItem := {
  id : Z;
  app_name : list N;
  icon : list N;
  summary : list N;
  body : list N;
  timestamp : Z
}.

(** [setup_notifications]: the list starts with the test notification. *)
Definition test_notification (now : Z) : NotificationItem :=
  {| id := 1; app_name := lit "Panel Qt"; icon := lit "dialog-information";
     summary := lit "Sistema de notificaciones";
     body := lit "El centro de notificaciones est" ++ [225%N]
               ++ lit " funcionando correctamente";
     timestamp := now |}.

Definition setup_notifications (now : Z) : list NotificationItem :=
  [] ++ [test_notification now].

(** [add_notification]: [insert(0, notification)], then [pop()] when the
    list is longer than 50. *)
Definition add_notification (notification : NotificationItem)
    (notifications : list NotificationItem) : list NotificationItem :=
  let notifications := notification :: notifications in
  if (50 <? length notifications)%nat then removelast notifications
  else notifications.

(** [on_notification_received]. *)
Definition on_notification_received (now : Z)
    (notifications : list NotificationItem) : list NotificationItem :=
  add_notification
    {| id := Z.of_nat (length notifications) + 1; app_name := lit "Sistema";
       icon := lit "dialog-information";
       summary := lit "Nueva notificaci" ++ [243%N] ++ lit "n";
       body := lit "Se ha recibido una nueva notificaci" ++ [243%N] ++ lit "n";
       timestamp := now |}
    notifications.

(** [remove_notification]: [del self.notifications[index]] under the guard
    [0 <= index < len(self.notifications)]. *)
Definition remove_notification (index : Z)
    (notifications : list NotificationItem) : list NotificationItem :=
  if ((0 <=? index) && (index <? Z.of_nat (length notifications)))%Z
  then delete (Z.to_nat index) notifications
  else notifications.

(** [clear_all_notifications]. *)
Definition clear_all_notifications (notifications : list NotificationItem)
  : list NotificationItem := [].

(** The operations on the list, and the states they reach from the start. *)
Inductive operation :=
| Add (notification : NotificationItem)
| Received (now : Z)
| Remove (index : Z)
| Clear.

Definition apply (o : operation) (notifications : list NotificationItem)
  : list NotificationItem :=
  match o with
  | Add n => add_notification n notifications
  | Received now => on_notification_received now notifications
  | Remove i => remove_notification i notifications
  | Clear => clear_all_notifications notifications
  end.

Inductive reachable : list NotificationItem -> Prop :=
| reachable_start now : reachable (setup_notifications now)
| reachable_step o notifications :
    reachable notifications -> reachable (apply o notifications).

End Notifications.

(** ** Settings: [load_settings] *)

Module Settings.
Import Py Json.

(** The dictionary [self.settings].  Its string keys are a finite map; a key
    that is no string (a pair of a JSON list can bring one) is kept aside,
    it never equals a string key. *)
Record settings := {
  items : gmap (list N) json;
  others : list (json * json)
}.

(** The dictionary that [load_settings] starts from. *)
Definition default_settings : settings :=
  {| items :=
       <[lit "show_system_info" := JBool true]>
         (<[lit "height" := JInt 35]>
            (<[lit "position" := JStr (lit "top")]>
               (<[lit "auto_hide" := JBool false]> ∅)));
     others := [] |}.

(** [d[k] = v]; [TypeError] for a key that cannot be hashed. *)
Definition set_item (k v : json) (s : settings) : result settings :=
  match k with
  | JStr key => Ok {| items := <[key := v]> (items s); others := others s |}
  | JArr _ | JObj _ => Raised
  | _ => Ok {| items := items s; others := others s ++ [(k, v)] |}
  end.

(** An element of an update sequence read as a pair: it must be iterable and
    yield exactly two values. *)
Definition as_pair (item : json) : result (json * json) :=
  match iterate item with
  | Ok [k; v] => Ok (k, v)
  | _ => Raised
  end.

(** [d.update(...)] from the members of a dictionary. *)
Fixpoint update_members (members : list (list N * json)) (s : settings)
  : settings :=
  match members with
  | [] => s
  | (k, v) :: rest =>
      update_members rest
        {| items := <[k := v]> (items s); others := others s |}
  end.

(** [d.update(...)] from a sequence of pairs: the dictionary when the call
    ends, and whether it ended by raising. *)
Fixpoint update_pairs (elements : list json) (s : settings)
  : settings * bool :=
  match elements with
  | [] => (s, false)
  | item :: rest =>
      match as_pair item with
      | Raised => (s, true)
      | Ok (k, v) =>
          match set_item k v s with
          | Raised => (s, true)
          | Ok s' => update_pairs rest s'
          end
      end
  end.

(** [self.settings.update(saved_settings)]. *)
Definition update (saved_settings : json) (s : settings) : settings * bool :=
  match saved_settings with
  | JObj members => (update_members members s, false)
  | _ =>
      match iterate saved_settings with
      | Ok elements => update_pairs elements s
      | Raised => (s, true)
      end
  end.

(** The configuration file as [load_settings] finds it: not there; there
    but [open] or [json.load] raises; or there with a JSON document. *)
Inductive config_file :=
| Absent
| Unreadable
| Document (saved_settings : json).

(** [load_settings]: the value of [self.settings] after the call.  The
    handler of the [try] only prints. *)
Definition load_settings (file : config_file) : settings :=
  match file with
  | Absent => default_settings
  | Unreadable => default_settings
  | Document saved_settings => fst (update saved_settings default_settings)
  end.

(** [self.settings.get(key)] for a string key. *)
Definition get (key : list N) (s : settings) : option json := items s !! key.

Definition default_keys : list (list N) :=
  [lit "auto_hide"; lit "position"; lit "height"; lit "show_system_info"].

End Settings.

(** ** Favourites of the application menu: [add_favorite], [remove_favorite] *)

Module Favorites.
Import Py.

(** An element of [self.favorites]: a tuple, as in [DEFAULT_FAVORITES] and
    as [add_favorite] appends it, or a list, as [json.load] returns for a
    JSON array.  Its fields are strings.  Python finds two tuples, or two
    lists, equal when their fields are, and never a tuple equal to a list:
    [==] and [!=] on favourites are equality of this type. *)
Inductive favorite :=
| Tuple (fields : list (list N))
| PyList (fields : list (list N)).

Definition fields_of (f : favorite) : list (list N) :=
  match f with Tuple fields => fields | PyList fields => fields end.

#[export] Instance favorite_eq_dec : EqDecision favorite.
Proof. solve_decision. Defined.

(** [item.data(UserRole)]: the tuple [(name, command, icon)] that
    [show_favorites] and [show_all_apps] put on every item. *)
Definition item_data (name command icon : list N) : favorite :=
  Tuple [name; command; icon].

(** [add_favorite]: [if fav not in self.favorites: self.favorites.append(fav)]. *)
Definition add_favorite (fav : favorite) (favorites : list favorite)
  : list favorite :=
  if bool_decide (elem_of fav favorites) then favorites
  else favorites ++ [fav].

(** [remove_favorite]: [[f for f in self.favorites if f != fav]]. *)
Definition remove_favorite (fav : favorite) (favorites : list favorite)
  : list favorite :=
  filter (fun f => f <> fav) favorites.

(** What [load_favorites] reads, at the next start, from the file that
    [save_favorites] wrote with [json.dump]: JSON has arrays only, and
    [json.load] returns a list for every array. *)
Definition reloaded (favorites : list favorite) : list favorite :=
  map (fun f => PyList (fields_of f)) favorites.

End Favorites.

(** ** The launcher list of the settings dialog *)

Module Launchers.
Section Items.
Context {A : Type}.

(** [QListWidget.insertItem(row, item)]: a row past the end appends. *)
Definition insertItem (row : nat) (item : A) (items : list A) : list A :=
  take row items ++ item :: drop row items.

(** The list widget as the rows it holds and [currentRow()], which is -1
    when no row is selected.  [takeItem(row)] returns the item of the row and
    removes it; for a row that does not exist it returns nothing, and the
    call of [insertItem] that follows raises, the rows unchanged. *)
Definition move_launcher_up (st : list A * Z) : list A * Z :=
  let row := snd st in
  if (0 <? row)%Z then
    match fst st !! Z.to_nat row with
    | Some item =>
        (insertItem (Z.to_nat (row - 1)) item (delete (Z.to_nat row) (fst st)),
         (row - 1)%Z)
    | None => st
    end
  else st.

Definition move_launcher_down (st : list A * Z) : list A * Z :=
  let row := snd st in
  if ((row <? Z.of_nat (length (fst st)) - 1) && (0 <=? row))%Z then
    match fst st !! Z.to_nat row with
    | Some item =>
        (insertItem (Z.to_nat (row + 1)) item (delete (Z.to_nat row) (fst st)),
         (row + 1)%Z)
    | None => st
    end
  else st.

(** [remove_selected_launcher]: the rows after [takeItem(row)]. *)
Definition remove_selected_launcher (row : Z) (items : list A) : list A :=
  if (0 <=? row)%Z then delete (Z.to_nat row) items else items.

End Items.
End Launchers.

(** ** Battery: [format_time] *)

Module Battery.
Import Py Numeral.

(** [str(n)] for an integer. *)
Definition str_int (z : Z) : list N :=
  if (z <? 0)%Z then lit "-" ++ decimal (Z.to_N (- z)) else decimal (Z.to_N z).

(** [format_time(seconds)] for an integer number of seconds. *)
Definition format_time (seconds : Z) : list N :=
  if (seconds <? 0)%Z then lit "Calculando..."
  else
    let hours := (seconds / 3600)%Z in
    let minutes := ((seconds mod 3600) / 60)%Z in
    if (0 <? hours)%Z
    then str_int hours ++ lit "h " ++ str_int minutes ++ lit "m"
    else str_int minutes ++ lit "m".

(** ['time_left': battery.secsleft if battery.secsleft > 0 else None]. *)
Definition time_left (secsleft : Z) : option Z :=
  if (0 <? secsleft)%Z then Some secsleft else None.

End Battery.

(** ** Bluetooth: [get_bluetooth_status] *)

Module Bluetooth.
Import Py.

(** [str.splitlines()]: the characters that end a line; a carriage return
    followed by a line feed ends it once. *)
Definition is_linebreak (c : N) : bool :=
  ((10 <=? c) && (c <=? 13) || (28 <=? c) && (c <=? 30)
   || (c =? 133) || (c =? 8232) || (c =? 8233))%N.

(** [cur] is the line being read, most recent character first; [None] when
    no character of a line has been read since the last line end. *)
Fixpoint splitlines_scan (cur : option (list N)) (s : list N)
  : list (list N) :=
  match s with
  | [] => match cur with Some w => [rev w] | None => [] end
  | c :: r =>
      if is_linebreak c then
        rev (default [] cur) ::
        (if (c =? 13)%N then
           match r with
           | d :: r' => if (d =? 10)%N then splitlines_scan None r'
                        else splitlines_scan None r
           | [] => splitlines_scan None r
           end
         else splitlines_scan None r)
      else splitlines_scan (Some (c :: default [] cur)) r
  end.

Definition splitlines (s : list N) : list (list N) := splitlines_scan None s.

(** [' '.join(words)]. *)
Fixpoint join_space (words : list (list N)) : list N :=
  match words with
  | [] => []
  | [w] => w
  | w :: rest => w ++ 32%N :: join_space rest
  end.

(** The dictionary appended for a paired device. *)
Record device := {
  id : list N;
  name : list N;
  connected : bool;
  type : list N;
  icon : list N
}.

(** What [get_bluetooth_status] returns: [{'error': ...}], with the message
    when the code writes it ([None] for the text of an exception), or
    [{'powered': ..., 'devices': ...}]. *)
Inductive status :=
| Error (message : option (list N))
| Controller (powered : bool) (devices : list device).

(** The commands: the return code of [which bluetoothctl], and the output of
    [bluetoothctl show], [paired-devices] and [info <id>]. *)
Record bluetoothctl := {
  which : result Z;
  show : result (list N);
  paired_devices : result (list N);
  info : list N -> result (list N)
}.

Definition not_installed : list N :=
  lit "bluetoothctl no est" ++ [225%N] ++ lit " instalado".

(** [any(kw in dev_name.lower() for kw in keywords)]. *)
Definition any_keyword `{Builtins} (keywords : list (list N)) (dev_name : list N)
  : bool :=
  existsb (fun kw => contains kw (lower dev_name)) keywords.

(** The [if]/[elif] chain: the type of the device and its icon. *)
Definition classify `{Builtins} (dev_name : list N) : list N * list N :=
  if any_keyword [lit "mouse"; lit "rat" ++ [243%N] ++ lit "n"] dev_name
  then (lit "mouse", lit "input-mouse")
  else if any_keyword [lit "keyboard"; lit "teclado"] dev_name
  then (lit "keyboard", lit "input-keyboard")
  else if any_keyword [lit "headset"; lit "headphone"; lit "auricular";
                       lit "speaker"] dev_name
  then (lit "audio", lit "audio-headset")
  else if any_keyword [lit "phone"; lit "m" ++ [243%N] ++ lit "vil";
                       lit "android"; lit "iphone"] dev_name
  then (lit "phone", lit "phone")
  else (lit "other", lit "bluetooth").

(** One turn of [for line in paired_devices.splitlines()]; the handler of
    the inner [try] prints and the loop goes on. *)
Definition scan_line `{Builtins} (bt : bluetoothctl) (line : list N)
    (devices : list device) : list device :=
  if truthy (strip line) then
    match split_ws None line !! 1%nat with
    | None => devices
    | Some dev_id =>
        let dev_name := join_space (drop 2 (split_ws None line)) in
        match info bt dev_id with
        | Raised => devices
        | Ok text =>
            devices ++
            [{| id := dev_id; name := dev_name;
                connected := contains (lit "Connected: yes") text;
                type := fst (classify dev_name);
                icon := snd (classify dev_name) |}]
        end
    end
  else devices.

Fixpoint scan_lines `{Builtins} (bt : bluetoothctl) (lines : list (list N))
    (devices : list device) : list device :=
  match lines with
  | [] => devices
  | line :: rest => scan_lines bt rest (scan_line bt line devices)
  end.

Definition get_bluetooth_status `{Builtins} (bt : bluetoothctl) : status :=
  match which bt with
  | Raised => Error None
  | Ok returncode =>
      if negb (returncode =? 0)%Z then Error (Some not_installed)
      else
        match show bt with
        | Raised => Error None
        | Ok controller_info =>
            if negb (contains (lit "Powered: yes") controller_info)
            then Controller false []
            else
              match paired_devices bt with
              | Raised => Error None
              | Ok paired =>
                  Controller true (scan_lines bt (splitlines paired) [])
              end
        end
  end.

(** A line that gives the device [d]: it has at least two words, the second
    is the address, the words after it are the name, and the [info] query
    for the address succeeds. *)
Definition Device_line `{Builtins} (bt : bluetoothctl) (line : list N)
    (d : device) : Prop :=
  exists first rest text,
    Words line (first :: id d :: rest) /\
    info bt (id d) = Ok text /\
    name d = join_space rest /\
    (connected d = true <-> Windows.Substring (lit "Connected: yes") text) /\
    (type d, icon d) = classify (name d).

(** [Paired bt lines devices]: one device per line that gives one, in
    order. *)
Inductive Paired `{Builtins} (bt : bluetoothctl)
  : list (list N) -> list device -> Prop :=
| Paired_nil : Paired bt [] []
| Paired_device line rest d devices :
    Device_line bt line d -> Paired bt rest devices ->
    Paired bt (line :: rest) (d :: devices)
| Paired_skip line rest devices :
    (forall d, ~ Device_line bt line d) -> Paired bt rest devices ->
    Paired bt (line :: rest) devices.

(** A controller with three paired devices, the last of which has left. *)
Definition sample_bluetoothctl : bluetoothctl :=
  {| which := Ok 0%Z;
     show := Ok (lit "Controller 00:1A:7D:DA:71:13 (public)" ++ [10%N]
                   ++ lit "        Powered: yes" ++ [10%N]);
     paired_devices :=
       Ok (lit "Device AA:BB:CC:DD:EE:01   Logitech   Mouse " ++ [10%N]
             ++ lit "Device" ++ [10%N]
             ++ lit "Device AA:BB:CC:DD:EE:02 Sony Headphones" ++ [10%N]
             ++ lit "Device AA:BB:CC:DD:EE:03 Gone" ++ [10%N]);
     info := fun dev_id =>
       if bool_decide (dev_id = lit "AA:BB:CC:DD:EE:03") then Raised
       else if bool_decide (dev_id = lit "AA:BB:CC:DD:EE:01")
       then Ok (lit "        Connected: yes")
       else Ok (lit "        Connected: no") |}.

End Bluetooth.

(** ** Connecting to a network: [connect_to_wifi] *)

Module WifiConnect.
Import Py Wifi.




End WifiConnect.

(** ** Virtual desktops: [show_workspace_menu], [create_new_workspace] *)

Module Workspaces.
Import Py Numeral Bluetooth.

(** [s.count('\n')]. *)
Definition count_newlines (s : list N) : nat :=
  length (filter (fun c => c = 10%N) s).

(** [next((i for i, l in enumerate(lines) if '*' in l), 0)]. *)
Fixpoint first_starred_from (i : nat) (lines : list (list N)) : option nat :=
  match lines with
  | [] => None
  | l :: rest =>
      if contains (lit "*") l then Some i else first_starred_from (S i) rest
  end.

Definition first_starred (lines : list (list N)) : nat :=
  default 0%nat (first_starred_from 0 lines).

(** The two numbers the menu is built from; [first] and [second] are the
    decoded outputs of the two calls of [wmctrl -d]. *)
Definition desktops (first second : result (list N)) : nat * nat :=
  match first, second with
  | Ok a, Ok b => (count_newlines a, first_starred (splitlines b))
  | _, _ => (1%nat, 0%nat)
  end.

(** The actions added for the desktops: the text and whether it is bold. *)
Definition desktop_actions (num current : nat) : list (list N * bool) :=
  map (fun i => (lit "Escritorio " ++ decimal (N.of_nat (i + 1)),
                 bool_decide (i = current)))
      (seq 0 num).

Definition show_workspace_menu (first second : result (list N))
  : list (list N * bool) :=
  desktop_actions (fst (desktops first second)) (snd (desktops first second)).

(** [create_new_workspace]: the number of desktops asked of [wmctrl -n], if
    it is called. *)
Definition create_new_workspace (run : result (list N)) : option nat :=
  match run with
  | Ok out => Some (length (splitlines out) + 1)%nat
  | Raised => None
  end.

(** Text as [wmctrl -d] prints it: lines that hold no line end, each ended
    by a line feed. *)
Definition printed (lines : list (list N)) : list N :=
  concat (map (fun l => l ++ [10%N]) lines).

Definition plain_line (l : list N) : Prop :=
  Forall (fun c => is_linebreak c = false) l.

(** Two desktops, the second current. *)
Definition two_desktops : list (list N) :=
  [lit "0  - DG: 1920x1080  VP: N/A  WA: 0,0 1920x1050  Uno";
   lit "1  * DG: 1920x1080  VP: 0,0  WA: 0,0 1920x1050  Dos"].

End Workspaces.

(** ** Starting a program: [open_terminal], [open_file_manager] *)

Module Launch.
Import Py.

(** What [subprocess.Popen([program])] does. *)
Inductive popen :=
| Started
| NotFound
| Failed.

(** How the loop ends: a program was started, none was found, or an
    exception other than [FileNotFoundError] left the function. *)
Inductive outcome :=
| Launched (program : list N)
| Nothing
| Propagated (program : list N).

(** [for program in programs: try: Popen([program]); break
     except FileNotFoundError: continue]. *)
Fixpoint launch_first (run : list N -> popen) (programs : list (list N))
  : outcome :=
  match programs with
  | [] => Nothing
  | program :: rest =>
      match run program with
      | Started => Launched program
      | NotFound => launch_first run rest
      | Failed => Propagated program
      end
  end.

Definition terminals : list (list N) :=
  [lit "xfce4-terminal"; lit "gnome-terminal"; lit "konsole"; lit "xterm";
   lit "alacritty"].

Definition file_managers : list (list N) :=
  [lit "thunar"; lit "nautilus"; lit "dolphin"; lit "pcmanfm"; lit "nemo"].

Definition open_terminal (run : list N -> popen) : outcome :=
  launch_first run terminals.

Definition open_file_manager (run : list N -> popen) : outcome :=
  launch_first run file_managers.

End Launch.

(** ** The icon of a window button: [WindowButton.get_window_icon] *)

Module WindowIcon.
Import Py.

(** [p.replace(q, '')] for the double quote [q]. *)
Definition without_quotes (p : list N) : list N :=
  filter (fun c => c <> 34%N) p.

(** [class_names]: the text after the last [=], cut at commas, each piece
    without quotes and stripped. *)
Definition class_names (output : list N) : list (list N) :=
  map (fun p => strip (without_quotes p))
      (split_on 44 (List.last (split_on 61 (strip output)) [])).

(** [get_window_icon]: the theme name of the icon returned, [None] for
    [return None].  [run] is the decoded output of [xprop -id ... WM_CLASS];
    [themed name] tells whether [QIcon.fromTheme(name)] is a real icon. *)
Definition get_window_icon (themed : list N -> bool) (run : result (list N))
  : option (list N) :=
  match run with
  | Raised => None
  | Ok output =>
      if contains (lit "WM_CLASS") output
      then List.find themed (rev (class_names output))
      else None
  end.

(** The class names as the property words them, stated on the text itself.
    [After_last sep s tail]: [tail] is what follows the last [sep] of [s],
    all of [s] when it holds none. *)
Definition After_last (sep : N) (s tail : list N) : Prop :=
  ~ In sep tail /\ (s = tail \/ exists before, s = before ++ sep :: tail).

(** [Without c p q]: [q] is [p] with every [c] taken out. *)
Inductive Without (c : N) : list N -> list N -> Prop :=
| Without_nil : Without c [] []
| Without_drop p q : Without c p q -> Without c (c :: p) q
| Without_keep x p q : x <> c -> Without c p q -> Without c (x :: p) (x :: q).

(** [Class_names output names]: the names are the pieces between commas of
    what follows the last [=] of the output, the output taken without the
    white space around it, each piece without its double quotes and then
    without the white space around it. *)
Definition Class_names (output : list N) (names : list (list N)) : Prop :=
  exists core tail pieces,
    Trimmed output core /\ After_last 61 core tail /\ Pieces 44 tail pieces /\
    Forall2 (fun piece name =>
               exists bare, Without 34 piece bare /\ Trimmed bare name)
            pieces names.

End WindowIcon.

(** ** The rows of the notification menu: [show_notifications_menu] *)

Module NotificationMenu.
Import Py Notifications.

(** [enumerate(self.notifications[:10])]: the rows shown, each with the
    index its close button passes to [remove_notification]. *)
Definition rows (notifications : list NotificationItem)
  : list (nat * NotificationItem) :=
  imap (fun idx notif => (idx, notif)) (take 10 notifications).

(** A click on the close button of a row. *)
Definition close_row (row : nat * NotificationItem)
    (notifications : list NotificationItem) : list NotificationItem :=
  remove_notification (Z.of_nat (fst row)) notifications.

(** The list after one notification has been received. *)
Definition sample_notifications : list NotificationItem :=
  on_notification_received 20 (setup_notifications 10).

End NotificationMenu.

(* ===================================================================== *)
(** * Part II.  Properties                                                *)
(* ===================================================================== *)

(** ** Text *)

Module PyFacts.
Import Py.

Lemma lstrip_by_nil p s : lstrip_by p s = [] <-> Forall (fun c => p c = true) s.
Proof.
  induction s as [|c r IH]; simpl.
  - split; auto.
  - destruct (p c) eqn:E.
    + rewrite IH. split; intros H.
      * constructor; auto.
      * inversion H; auto.
    + split; intros H; [discriminate|]. inversion H; congruence.
Qed.

Lemma rstrip_by_nil p s : rstrip_by p s = [] <-> Forall (fun c => p c = true) s.
Proof.
  induction s as [|c r IH]; simpl.
  - split; auto.
  - destruct (rstrip_by p r) eqn:E.
    + destruct (p c) eqn:Ec.
      * split; auto. intros _. constructor; auto. apply IH; auto.
      * split; [discriminate|]. intros H; inversion H; congruence.
    + split; [discriminate|]. intros H; inversion H; subst.
      apply IH in H3. discriminate.
Qed.

Lemma lstrip_by_head p s c r : lstrip_by p s = c :: r -> p c = false.
Proof.
  induction s as [|a s IH]; simpl; [discriminate|].
  destruct (p a) eqn:E; auto. intros [= <- <-]; auto.
Qed.

(** What [lstrip] and [rstrip] remove is made of the characters to strip,
    and what they leave does not start, or end, with one. *)
Lemma lstrip_by_decompose p s :
  exists g, s = g ++ lstrip_by p s /\ Forall (fun c => p c = true) g /\
            match lstrip_by p s with [] => True | c :: _ => p c = false end.
Proof.
  induction s as [|c s (g & Hs & Hg & Hh)]; simpl.
  - exists []. repeat split; constructor.
  - destruct (p c) eqn:E.
    + exists (c :: g). split; [simpl; congruence|]. split; [constructor; auto|exact Hh].
    + exists []. split; [reflexivity|]. split; [constructor|exact E].
Qed.

Lemma rstrip_by_decompose p s :
  exists g, s = rstrip_by p s ++ g /\ Forall (fun c => p c = true) g /\
            match rev (rstrip_by p s) with [] => True | c :: _ => p c = false end.
Proof.
  induction s as [|c s (g & Hs & Hg & Hh)]; simpl.
  - exists []. repeat split; constructor.
  - destruct (rstrip_by p s) as [|d r] eqn:E.
    + destruct (p c) eqn:Ec.
      * exists (c :: g). simpl in Hs. subst s.
        split; [reflexivity|]. split; [constructor; auto|exact I].
      * exists g. simpl in Hs. subst s.
        split; [reflexivity|]. split; [exact Hg|exact Ec].
    + exists g. split; [simpl in Hs |- *; congruence|]. split; [exact Hg|].
      change (rev (c :: d :: r)) with (rev (d :: r) ++ [c]).
      destruct (rev (d :: r)) as [|x l] eqn:Er; [|exact Hh].
      apply (f_equal (@length N)) in Er. rewrite length_rev in Er. discriminate.
Qed.

Lemma strip_nil s : strip s = [] <-> Forall (fun c => is_space c = true) s.
Proof.
  unfold strip, strip_by. rewrite rstrip_by_nil.
  split; intros H.
  - apply lstrip_by_nil. destruct (lstrip_by is_space s) as [|c r] eqn:E; auto.
    apply lstrip_by_head in E. inversion H; congruence.
  - apply lstrip_by_nil in H. rewrite H. constructor.
Qed.

Lemma truthy_cases s :
  truthy s = false /\ s = [] \/ truthy s = true /\ s <> [].
Proof. destruct s; [left|right]; split; auto; discriminate. Qed.

Lemma startswith_spec s p : startswith s p = true <-> exists b, s = p ++ b.
Proof.
  revert s; induction p as [|a p IH]; intros s; simpl.
  - split; [intros _; exists s; reflexivity | reflexivity].
  - destruct s as [|b s].
    + split; [discriminate|]. intros [x Hx]; discriminate.
    + rewrite andb_true_iff, N.eqb_eq, IH. split.
      * intros [-> [x ->]]. eauto.
      * intros [x [= -> ->]]. eauto.
Qed.

Lemma contains_spec p s : contains p s = true <-> exists a b, s = a ++ p ++ b.
Proof.
  induction s as [|c s IH]; simpl.
  - rewrite orb_false_r, startswith_spec. split.
    + intros [b Hb]. exists [], b. auto.
    + intros [a [b H]]. destruct a; simpl in H; [eauto|discriminate].
  - rewrite orb_true_iff, startswith_spec, IH. split.
    + intros [[b Hb]|[a [b Hb]]].
      * exists [], b; auto.
      * exists (c :: a), b. simpl. congruence.
    + intros [a [b H]]. destruct a as [|x a]; simpl in H.
      * left; eauto.
      * right. injection H as -> ->. eauto.
Qed.


(** *** [split] at white space *)

Lemma split_skip n g s :
  Forall (fun c => is_space c = true) g ->
  split_scan n None (g ++ s) = split_scan n None s.
Proof.
  induction 1 as [|c g Hc _ IH]; simpl; [reflexivity|].
  rewrite Hc. exact IH.
Qed.

Lemma split_blank n s :
  Forall (fun c => is_space c = true) s -> split_scan n None s = [].
Proof.
  intros H. rewrite <- (app_nil_r s). rewrite split_skip; auto.
Qed.

Lemma split_starts_blank n s :
  starts_blank s ->
  match s with [] => [] | _ :: r => split_scan n None r end = split_scan n None s.
Proof. destruct s as [|c r]; simpl; intros H; [reflexivity|]. rewrite H. reflexivity. Qed.

Lemma split_in_word n w u s :
  Forall (fun c => is_space c = false) u -> starts_blank s ->
  split_scan n (Some w) (u ++ s) = (rev w ++ u) :: split_scan n None s.
Proof.
  intros Hu Hs. revert w. induction Hu as [|c u Hc _ IH]; intros w; simpl.
  - rewrite app_nil_r. destruct s as [|c r]; simpl in *; [reflexivity|].
    rewrite Hs. reflexivity.
  - rewrite Hc, IH. simpl. rewrite <- app_assoc. reflexivity.
Qed.

Lemma split_word n f s :
  f <> [] -> Forall (fun c => is_space c = false) f -> starts_blank s ->
  split_scan (Some (S n)) None (f ++ s) = f :: split_scan (Some n) None s.
Proof.
  intros Hne Hf Hs. destruct f as [|c f]; [congruence|].
  inversion Hf as [|? ? Hc Hf']; subst. simpl. rewrite Hc.
  rewrite split_in_word; auto.
Qed.

Lemma split_word_unlimited f s :
  f <> [] -> Forall (fun c => is_space c = false) f -> starts_blank s ->
  split_scan None None (f ++ s) = f :: split_scan None None s.
Proof.
  intros Hne Hf Hs. destruct f as [|c f]; [congruence|].
  inversion Hf as [|? ? Hc Hf']; subst. simpl. rewrite Hc.
  rewrite split_in_word; auto.
Qed.

Lemma split_rest c r :
  is_space c = false -> split_scan (Some O) None (c :: r) = [c :: r].
Proof. intros H. simpl. rewrite H. reflexivity. Qed.

Lemma blank_or_starts s :
  Forall (fun c => is_space c = true) s \/
  exists g c r, s = g ++ c :: r /\ Forall (fun c => is_space c = true) g /\
                is_space c = false.
Proof.
  induction s as [|a s IH].
  - left; constructor.
  - destruct (is_space a) eqn:Ea.
    + destruct IH as [IH|(g & c & r & -> & Hg & Hc)].
      * left; constructor; auto.
      * right. exists (a :: g), c, r. repeat split; auto.
    + right. exists [], a, s. repeat split; auto.
Qed.

Lemma word_span s :
  exists f s', s = f ++ s' /\ Forall (fun c => is_space c = false) f /\
               starts_blank s'.
Proof.
  induction s as [|a s (f & s' & -> & Hf & Hs)].
  - exists [], []. repeat split; auto.
  - destruct (is_space a) eqn:Ea.
    + exists [], (a :: f ++ s'). repeat split; auto.
    + exists (a :: f), s'. repeat split; auto.
Qed.

Lemma split_cons_inv n s f tl :
  split_scan (Some (S n)) None s = f :: tl ->
  exists g s', s = g ++ f ++ s' /\
    Forall (fun c => is_space c = true) g /\
    f <> [] /\ Forall (fun c => is_space c = false) f /\
    starts_blank s' /\ tl = split_scan (Some n) None s'.
Proof.
  intros H. destruct (blank_or_starts s) as [Hb|(g & c & r & -> & Hg & Hc)].
  - rewrite split_blank in H; auto. discriminate.
  - rewrite split_skip in H; auto.
    destruct (word_span r) as (f' & s' & -> & Hf' & Hs').
    change (c :: f' ++ s') with ((c :: f') ++ s') in H.
    rewrite split_word in H; [| discriminate | constructor; auto | auto].
    injection H as <- <-.
    exists g, s'. repeat split; auto.
Qed.

Lemma split_last_inv s d tl :
  split_scan (Some O) None s = d :: tl ->
  exists g c r, s = g ++ d /\ Forall (fun c => is_space c = true) g /\
    d = c :: r /\ is_space c = false /\ tl = [].
Proof.
  intros H. destruct (blank_or_starts s) as [Hb|(g & c & r & -> & Hg & Hc)].
  - rewrite split_blank in H; auto. discriminate.
  - rewrite split_skip, split_rest in H; auto.
    injection H as <- <-. exists g, c, r. repeat split; auto.
Qed.

(** [s.split()] returns the words of [s], and nothing else does. *)
Lemma words_split s ws : Words s ws -> split_ws None s = ws.
Proof.
  unfold split_ws. induction 1 as [s Hb|g w s ws Hg [Hne Hw] Hs _ IH].
  - apply split_blank. exact Hb.
  - rewrite split_skip by exact Hg.
    rewrite split_word_unlimited by assumption. rewrite IH. reflexivity.
Qed.

Lemma split_words_bounded n :
  forall s, (length s <= n)%nat -> Words s (split_ws None s).
Proof.
  unfold split_ws. induction n as [|n IH]; intros s Hn.
  - destruct s; [|simpl in Hn; lia]. constructor. constructor.
  - destruct (blank_or_starts s) as [Hb|(g & c & r & -> & Hg & Hc)].
    + rewrite split_blank by exact Hb. constructor. exact Hb.
    + destruct (word_span r) as (f & s' & -> & Hf & Hs').
      rewrite split_skip by exact Hg.
      change (c :: f ++ s') with ((c :: f) ++ s').
      rewrite split_word_unlimited;
        [|discriminate|constructor; assumption|exact Hs'].
      apply (Words_word g (c :: f) s'); auto.
      * split; [discriminate|constructor; assumption].
      * apply IH. rewrite length_app in Hn. simpl in Hn.
        rewrite length_app in Hn. lia.
Qed.

Lemma split_words s : Words s (split_ws None s).
Proof. apply (split_words_bounded (length s)). lia. Qed.

Lemma words_functional s ws1 ws2 : Words s ws1 -> Words s ws2 -> ws1 = ws2.
Proof. intros H1 H2. apply words_split in H1, H2. congruence. Qed.

(** Cutting at a separator. *)
Lemma split_on_pieces sep s : Pieces sep s (split_on sep s).
Proof.
  induction s as [|c s (Hne & Hj & Hall)]; cbn [split_on].
  - split; [discriminate|]. split; [reflexivity|].
    constructor; [intros []|constructor].
  - destruct (N.eqb_spec c sep) as [->|Hc].
    + split; [discriminate|]. split.
      * destruct (split_on sep s) as [|w ws]; [congruence|].
        cbn [join_by map concat app] in *. congruence.
      * constructor; [intros []|assumption].
    + destruct (split_on sep s) as [|w ws]; [congruence|].
      split; [discriminate|]. split.
      * cbn [join_by app] in *. congruence.
      * inversion Hall; subst. constructor; [|assumption].
        intros [->|Hin]; [congruence|]. auto.
Qed.

Lemma split_on_piece sep f r pieces :
  ~ In sep f -> split_on sep r = [] :: pieces ->
  split_on sep (f ++ r) = f :: pieces.
Proof.
  intros Hf Hr. induction f as [|c f IHf]; cbn [app split_on]; [exact Hr|].
  destruct (N.eqb_spec c sep) as [->|_]; [exfalso; apply Hf; left; reflexivity|].
  rewrite IHf; [reflexivity|]. intros Hin; apply Hf; right; exact Hin.
Qed.

Lemma split_on_whole sep f : ~ In sep f -> split_on sep f = [f].
Proof.
  induction f as [|c f IHf]; intros Hf; cbn [split_on]; [reflexivity|].
  destruct (N.eqb_spec c sep) as [->|_]; [exfalso; apply Hf; left; reflexivity|].
  rewrite IHf; [reflexivity|]. intros Hin; apply Hf; right; exact Hin.
Qed.

Lemma pieces_split_on sep s pieces : Pieces sep s pieces -> split_on sep s = pieces.
Proof.
  intros (Hne & -> & Hall). destruct pieces as [|f fs]; [congruence|].
  clear Hne. revert f Hall. induction fs as [|g fs IH]; intros f Hall.
  - cbn [join_by map concat]. rewrite app_nil_r. apply split_on_whole.
    inversion Hall; assumption.
  - inversion Hall as [|? ? Hf Hrest]; subst. cbn [join_by map concat].
    apply split_on_piece; [exact Hf|].
    cbn [app split_on]. rewrite N.eqb_refl. f_equal.
    apply (IH g Hrest).
Qed.

Lemma pieces_functional sep s p1 p2 : Pieces sep s p1 -> Pieces sep s p2 -> p1 = p2.
Proof. intros H1 H2. apply pieces_split_on in H1, H2. congruence. Qed.

(** Trimming. *)
Section Trimming.
Variable p : N -> bool.
Variable P : N -> Prop.
Hypothesis p_spec : forall c, p c = true <-> P c.

Lemma forall_p_spec s : Forall (fun c => p c = true) s <-> Forall P s.
Proof.
  split; intros H; (eapply Forall_impl; [exact H|]); intros c; apply p_spec.
Qed.

Lemma rstrip_by_app a b :
  rstrip_by p (a ++ b)
  = match rstrip_by p b with [] => rstrip_by p a | r => a ++ r end.
Proof.
  induction a as [|c a IH]; cbn [app rstrip_by].
  - destruct (rstrip_by p b); reflexivity.
  - rewrite IH. destruct (rstrip_by p b) as [|d r]; [reflexivity|].
    destruct a; reflexivity.
Qed.

Lemma rstrip_by_keeps s :
  (forall r c, s = r ++ [c] -> ~ P c) -> rstrip_by p s = s.
Proof.
  intros Hend. destruct (rstrip_by_decompose p s) as (g & Hs & Hg & _).
  destruct g as [|x g] using rev_ind; [rewrite app_nil_r in Hs; congruence|].
  exfalso. rewrite app_assoc in Hs. apply (Hend _ _ Hs).
  apply p_spec. apply Forall_app in Hg. destruct Hg as [_ Hx].
  inversion Hx; assumption.
Qed.

Lemma rstrip_by_trimmed s : Trimmed_end_of P s (rstrip_by p s).
Proof.
  destruct (rstrip_by_decompose p s) as (g & Hs & Hg & Hh).
  exists g. split; [exact Hs|]. split; [apply forall_p_spec; exact Hg|].
  intros r c E. rewrite E, rev_app_distr in Hh. cbn [rev app] in Hh.
  intros Hc. apply p_spec in Hc. congruence.
Qed.

Lemma trimmed_rstrip_by s core : Trimmed_end_of P s core -> rstrip_by p s = core.
Proof.
  intros (post & -> & Hpost & Hend). rewrite rstrip_by_app.
  apply forall_p_spec, rstrip_by_nil in Hpost. rewrite Hpost.
  apply rstrip_by_keeps. exact Hend.
Qed.

Lemma lstrip_by_skip pre s :
  Forall P pre -> lstrip_by p (pre ++ s) = lstrip_by p s.
Proof.
  induction 1 as [|c pre Hc _ IH]; cbn [app lstrip_by]; [reflexivity|].
  apply p_spec in Hc. rewrite Hc. exact IH.
Qed.

Lemma strip_by_trimmed s : Trimmed_of P s (strip_by p s).
Proof.
  unfold strip_by.
  destruct (lstrip_by_decompose p s) as (pre & Hs & Hpre & Hh).
  destruct (rstrip_by_trimmed (lstrip_by p s)) as (post & Hu & Hpost & Hend).
  exists pre, post. split; [congruence|].
  split; [apply forall_p_spec; exact Hpre|]. split; [exact Hpost|].
  split; [|exact Hend].
  intros c r E Hc. apply p_spec in Hc.
  rewrite Hu, E in Hh. cbn [app] in Hh. congruence.
Qed.

Lemma trimmed_strip_by s core : Trimmed_of P s core -> strip_by p s = core.
Proof.
  intros (pre & post & -> & Hpre & Hpost & Hstart & Hend). unfold strip_by.
  rewrite lstrip_by_skip by exact Hpre.
  destruct core as [|c r].
  - cbn [app]. apply forall_p_spec, lstrip_by_nil in Hpost. rewrite Hpost.
    reflexivity.
  - cbn [app lstrip_by]. destruct (p c) eqn:Hc.
    + exfalso. apply (Hstart c r eq_refl). apply p_spec. exact Hc.
    + change (c :: r ++ post) with ((c :: r) ++ post).
      apply trimmed_rstrip_by. exists post. auto.
Qed.

End Trimming.

Lemma strip_trimmed s : Trimmed s (strip s).
Proof. apply (strip_by_trimmed is_space); tauto. Qed.

Lemma trimmed_strip s core : Trimmed s core -> strip s = core.
Proof. apply (trimmed_strip_by is_space); tauto. Qed.

Lemma in_chars_spec chars c : in_chars chars c = true <-> In c chars.
Proof.
  unfold in_chars. rewrite existsb_exists. split.
  - intros (x & Hx & E). apply N.eqb_eq in E. congruence.
  - intros Hc. exists c. split; [exact Hc|apply N.eqb_refl].
Qed.

Lemma endswith_spec s q : endswith s q = true <-> Suffix q s.
Proof.
  unfold endswith, Suffix. rewrite startswith_spec. split.
  - intros (b & E). exists (rev b).
    rewrite <- (rev_involutive s), E, rev_app_distr, rev_involutive.
    reflexivity.
  - intros (b & ->). exists (rev b). apply rev_app_distr.
Qed.

(** The lines the parsing loops run over are the lines of the output
    without the white space around it. *)
Lemma output_lines_spec out :
  exists core, Trimmed out core /\ Lines core (output_lines out).
Proof.
  exists (strip out). split; [apply strip_trimmed|apply split_on_pieces].
Qed.

Lemma lines_of_output out core lines :
  Trimmed out core -> Lines core lines -> output_lines out = lines.
Proof.
  intros Ht Hl. unfold output_lines. rewrite (trimmed_strip _ _ Ht).
  apply pieces_split_on. exact Hl.
Qed.

End PyFacts.

(** ** The window list *)

Module WindowsFacts.
Import Py PyFacts Windows.

Lemma blank_starts g s :
  Blank g -> g <> [] -> starts_blank (g ++ s).
Proof.
  intros Hg Hne. destruct g as [|c g]; [congruence|].
  inversion Hg; subst. simpl. assumption.
Qed.

Lemma gap_nonempty g f s :
  starts_blank (g ++ f ++ s) -> f <> [] ->
  Forall (fun c => is_space c = false) f -> g <> [].
Proof.
  intros Hs Hne Hf ->. destruct f as [|c f]; [congruence|].
  inversion Hf; subst. simpl in Hs. congruence.
Qed.

Lemma fields4_split line f1 f2 f3 rest :
  Fields4 line f1 f2 f3 rest ->
  split_ws (Some 3%nat) line = [f1; f2; f3; rest].
Proof.
  intros (g0 & g1 & g2 & g3 & c & rest' & -> & H0 & H1 & H2 & H3
          & N1 & N2 & N3 & [W1 W1'] & [W2 W2'] & [W3 W3'] & -> & Hc).
  unfold split_ws.
  rewrite split_skip by exact H0.
  rewrite split_word by auto using blank_starts.
  rewrite split_skip by exact H1.
  rewrite split_word by auto using blank_starts.
  rewrite split_skip by exact H2.
  rewrite split_word by auto using blank_starts.
  rewrite split_skip by exact H3.
  rewrite split_rest by exact Hc. reflexivity.
Qed.

Lemma split_fields4 line a b c d tl :
  split_ws (Some 3%nat) line = a :: b :: c :: d :: tl ->
  Fields4 line a b c d /\ tl = [].
Proof.
  unfold split_ws. intros H.
  apply split_cons_inv in H as (g0 & s1 & -> & H0 & Na & Wa & S1 & H).
  symmetry in H.
  apply split_cons_inv in H as (g1 & s2 & -> & H1 & Nb & Wb & S2 & H).
  symmetry in H.
  apply split_cons_inv in H as (g2 & s3 & -> & H2 & Nc & Wc & S3 & H).
  symmetry in H.
  apply split_last_inv in H as (g3 & x & r & -> & H3 & -> & Hx & ->).
  split; [|reflexivity].
  exists g0, g1, g2, g3, x, r.
  repeat split; auto.
  - eapply gap_nonempty; eauto.
  - eapply gap_nonempty; eauto.
  - eapply (gap_nonempty g3 [x] r); simpl; auto.
Qed.

Lemma fields4_not_blank line f1 f2 f3 rest :
  Fields4 line f1 f2 f3 rest -> ~ Blank line.
Proof.
  intros H Hb. apply fields4_split in H. unfold split_ws in H.
  rewrite split_blank in H by exact Hb. discriminate.
Qed.

Lemma window_line_functional line i1 t1 i2 t2 :
  Window_line line i1 t1 -> Window_line line i2 t2 -> i1 = i2 /\ t1 = t2.
Proof.
  intros (_ & (a & b & F1) & _) (_ & (c & d & F2) & _).
  apply fields4_split in F1, F2. split; congruence.
Qed.

Lemma window_scan_line_cases line windows :
  (exists window_id window_title,
      Window_line line window_id window_title /\
      scan_line line windows = windows ++ [(window_id, window_title)]) \/
  ((forall window_id window_title, ~ Window_line line window_id window_title) /\
   scan_line line windows = windows).
Proof.
  unfold scan_line.
  destruct (truthy (strip line)) eqn:Hs.
  - destruct (split_ws (Some 3%nat) line) as [|a [|b [|c [|d tl]]]] eqn:Hsp;
      try (right; split; [|reflexivity];
           intros i t (_ & (f2 & f3 & F) & _);
           apply fields4_split in F; congruence).
    apply split_fields4 in Hsp as [F ->].
    destruct (contains panel_title d) eqn:Hc; simpl.
    + right; split; [|reflexivity].
      intros i t (_ & (f2 & f3 & F') & Hn).
      apply fields4_split in F, F'.
      assert (t = d) as -> by congruence.
      apply Hn. apply contains_spec. exact Hc.
    + left. exists a, d. split; [|reflexivity].
      split; [eapply fields4_not_blank; eauto|].
      split; [eauto|].
      intros Hsub. apply contains_spec in Hsub. congruence.
  - right; split; [|reflexivity].
    intros i t (Hnb & _). apply Hnb.
    apply strip_nil. destruct (strip line); [reflexivity|discriminate].
Qed.

Lemma scan_lines_listed lines :
  forall windows, exists found,
    scan_lines lines windows = windows ++ found /\ Listed lines found.
Proof.
  induction lines as [|line rest IH]; intros windows; simpl.
  - exists []. rewrite app_nil_r. split; [reflexivity|constructor].
  - destruct (window_scan_line_cases line windows)
      as [(i & t & Hw & ->)|(Hn & ->)].
    + destruct (IH (windows ++ [(i, t)])) as (found & -> & HL).
      exists ((i, t) :: found). rewrite <- app_assoc. split; [reflexivity|].
      constructor; assumption.
    + destruct (IH windows) as (found & -> & HL).
      exists found. split; [reflexivity|]. apply Listed_skip; assumption.
Qed.

Lemma listed_functional lines w1 w2 :
  Listed lines w1 -> Listed lines w2 -> w1 = w2.
Proof.
  intros H1. revert w2. induction H1 as [|line rest i t ws Hw _ IH|line rest ws Hn _ IH];
    intros w2 H2;
    inversion H2 as [|? ? i' t' ws' Hw' HL'|? ? ? Hn' HL']; subst.
  - reflexivity.
  - destruct (window_line_functional _ _ _ _ _ Hw Hw') as [-> ->].
    f_equal. auto.
  - exfalso. eapply Hn'; eauto.
  - exfalso. eapply Hn; eauto.
  - auto.
Qed.

Lemma parse_windows_listed out : Listed (output_lines out) (parse_windows out).
Proof.
  unfold parse_windows.
  destruct (scan_lines_listed (output_lines out) []) as (found & -> & HL).
  exact HL.
Qed.

Lemma clear_layout_nil layout : clear_layout layout = [].
Proof.
  unfold clear_layout.
  remember (length layout) as n eqn:Hn. revert layout Hn.
  induction n as [|n IH]; intros layout Hn.
  - destruct layout; [reflexivity|discriminate].
  - rewrite seq_S, rev_app_distr. simpl. apply IH.
    unfold takeAt. rewrite length_delete.
    + lia.
    + apply lookup_lt_is_Some. lia.
Qed.

Lemma fill_buttons ws layout :
  fold_left (fun l w => l ++ [WindowButton (fst w) (snd w)]) ws layout
  = layout ++ map (fun w => WindowButton (fst w) (snd w)) ws.
Proof.
  revert layout. induction ws as [|w ws IH]; intros layout; simpl.
  - rewrite app_nil_r. reflexivity.
  - rewrite IH, <- app_assoc. reflexivity.
Qed.

Lemma window_buttons_map ws :
  window_buttons (map (fun w => WindowButton (fst w) (snd w)) ws) = ws.
Proof.
  unfold window_buttons. induction ws as [|[i t] ws IH]; simpl; [reflexivity|].
  f_equal. exact IH.
Qed.

Lemma display_layout windows layout :
  update_windows_display windows layout
  = map (fun w => WindowButton (fst w) (snd w)) (take 8 windows)
    ++ (if (length windows <? 8)%nat then [Spacer] else []).
Proof.
  unfold update_windows_display. rewrite clear_layout_nil, fill_buttons. simpl.
  destruct (length windows <? 8)%nat; [reflexivity|]. rewrite app_nil_r. reflexivity.
Qed.

(** C1.  For every text [out] that [wmctrl -l] prints with return code 0,
    the worker emits one list.  With [core] the text without the white space
    at its start and end and [lines] the lines of [core], the list holds, in
    the order of the lines, one entry for each line that is not blank,
    splits at white space into at least four fields and whose fourth field
    (the rest of the line) does not contain "Panel de Escritorio"; the entry
    is the first field and that fourth field, and the list holds nothing
    else.  The display then holds one [WindowButton] per entry of the first
    eight, in order, at most eight in all. *)
Theorem window_list_update (out : list N) (layout : list layout_item) :
  exists core lines windows,
    Trimmed out core /\ Lines core lines /\ Listed lines windows /\
    worker (Ok {| returncode := 0; stdout := out |}) = [windows] /\
    update_windows_display windows layout
    = map (fun w => WindowButton (fst w) (snd w)) (take 8 windows)
      ++ (if (length windows <? 8)%nat then [Spacer] else []) /\
    window_buttons (update_windows_display windows layout) = take 8 windows /\
    length (window_buttons (update_windows_display windows layout)) <= 8.
Proof.
  destruct (output_lines_spec out) as (core & Ht & Hl).
  exists core, (output_lines out), (parse_windows out).
  assert (Hb : window_buttons (update_windows_display (parse_windows out) layout)
               = take 8 (parse_windows out)).
  { rewrite display_layout. unfold window_buttons.
    rewrite omap_app. fold (window_buttons
      (map (fun w => WindowButton (fst w) (snd w)) (take 8 (parse_windows out)))).
    rewrite window_buttons_map.
    destruct (length (parse_windows out) <? 8)%nat; simpl; apply app_nil_r. }
  split; [exact Ht|]. split; [exact Hl|].
  split; [apply parse_windows_listed|]. split; [reflexivity|].
  split; [apply display_layout|].
  split; [exact Hb|]. rewrite Hb, length_take. lia.
Qed.

(** Read on the lines of the output itself the statement fails: white space
    at the end of the output belongs to no line for the code, so the title
    of the last window stops at its last character that is no white space,
    where the rest of its line goes on. *)
Lemma window_title_at_end_of_output :
  let line := lit "0x02 0 host draft " in
  let out := line ++ [10%N] in
  Lines out [line; []] /\
  Listed [line; []] [(lit "0x02", lit "draft ")] /\
  worker (Ok {| returncode := 0; stdout := out |})
  = [[(lit "0x02", lit "draft")]] /\
  ~ (exists windows,
        Listed [line; []] windows /\
        worker (Ok {| returncode := 0; stdout := out |}) = [windows]).
Proof.
  cbv zeta.
  assert (HL : Listed [lit "0x02 0 host draft "; []]
                      [(lit "0x02", lit "draft ")]).
  { destruct (scan_lines_listed [lit "0x02 0 host draft "; []] [])
      as (found & E & HL).
    vm_compute in E. subst found. exact HL. }
  split.
  { assert (E : split_on 10 (lit "0x02 0 host draft " ++ [10%N])
                = [lit "0x02 0 host draft "; []]) by reflexivity.
    rewrite <- E. apply split_on_pieces. }
  split; [exact HL|]. split; [reflexivity|].
  intros (windows & HL' & E).
  rewrite (listed_functional _ _ _ HL' HL) in E. vm_compute in E. discriminate.
Qed.

Example parse_windows_example :
  parse_windows
    (lit "0x01 0 host Terminal" ++ [10%N]
       ++ lit "0x02 0 host Panel de Escritorio" ++ [10%N]
       ++ lit "0x03 -1 host  Web  browser" ++ [10%N])
  = [(lit "0x01", lit "Terminal"); (lit "0x03", lit "Web  browser")].
Proof. reflexivity. Qed.

(** White space at the end of the output belongs to no line: the title of
    the last window ends with its last character that is no white space,
    the titles before it run to the end of their lines. *)
Example parse_windows_trailing_blanks :
  parse_windows
    (lit "0x01 0 host notes " ++ [10%N] ++ lit "0x02 0 host draft " ++ [10%N])
  = [(lit "0x01", lit "notes "); (lit "0x02", lit "draft")].
Proof. reflexivity. Qed.

Example worker_outcomes :
  worker Raised = [[]] /\
  worker (Ok {| returncode := 1; stdout := lit "0x01 0 host Terminal" |}) = [].
Proof. split; reflexivity. Qed.

End WindowsFacts.

(** ** WiFi networks *)

Module WifiFacts.
Import Py PyFacts Wifi.

Lemma split_on_prefix f r pieces :
  ~ In colon f -> split_on colon r = [] :: pieces ->
  split_on colon (f ++ r) = f :: pieces.
Proof.
  intros Hf Hr. induction f as [|c f IHf]; simpl; [exact Hr|].
  destruct (N.eqb_spec c colon) as [->|_]; [exfalso; apply Hf; left; reflexivity|].
  rewrite IHf; [reflexivity|]. intros Hin; apply Hf; right; exact Hin.
Qed.

Lemma join_split f fs :
  ~ In colon f -> Forall (fun g => ~ In colon g) fs ->
  split_on colon (f ++ concat (map (fun g => colon :: g) fs)) = f :: fs.
Proof.
  intros Hf Hfs. revert f Hf.
  induction Hfs as [|g fs Hg _ IH]; intros f Hf.
  - simpl. rewrite app_nil_r.
    induction f as [|c f IHf]; simpl; [reflexivity|].
    destruct (N.eqb_spec c colon) as [->|_]; [exfalso; apply Hf; left; reflexivity|].
    rewrite IHf; [reflexivity|]. intros Hin; apply Hf; right; exact Hin.
  - apply split_on_prefix; [exact Hf|].
    simpl. rewrite (IH g Hg). reflexivity.
Qed.

Lemma fields_split line fields : Fields line fields -> split_on colon line = fields.
Proof.
  intros (Hne & -> & Hall). destruct fields as [|f fs]; [congruence|].
  inversion Hall; subst. simpl. apply join_split; assumption.
Qed.

Lemma split_fields line : Fields line (split_on colon line).
Proof.
  induction line as [|c line (Hne & Hj & Hall)]; simpl.
  - split; [discriminate|]. split; [reflexivity|]. repeat constructor. intros [].
  - destruct (N.eqb_spec c colon) as [->|Hc].
    + split; [discriminate|]. split.
      * simpl. destruct (split_on colon line) as [|w ws]; [congruence|].
        simpl in *. congruence.
      * constructor; [intros []|assumption].
    + destruct (split_on colon line) as [|w ws]; [congruence|].
      split; [discriminate|]. split.
      * simpl in *. congruence.
      * inversion Hall; subst. constructor; [|assumption].
        intros [->|Hin]; [congruence|]. auto.
Qed.

Lemma fields_functional line f1 f2 : Fields line f1 -> Fields line f2 -> f1 = f2.
Proof. intros H1 H2. apply fields_split in H1, H2. congruence. Qed.

Lemma in_use_of_spec field : in_use_of field = true <-> field = lit "*".
Proof.
  destruct field as [|c [|d r]]; simpl; try (split; discriminate).
  rewrite N.eqb_eq. split; [intros ->; reflexivity|intros [= ->]; reflexivity].
Qed.

Section WithBuiltins.
Context `{Builtins}.

Lemma network_line_functional line n1 n2 :
  Network_line line n1 -> Network_line line n2 -> n1 = n2.
Proof.
  intros (a1 & b1 & c1 & F1 & _ & S1 & Q1 & U1) (a2 & b2 & c2 & F2 & _ & S2 & Q2 & U2).
  pose proof (fields_functional _ _ _ F1 F2) as E. injection E as E1 -> -> ->.
  destruct n1 as [s1 g1 q1 u1], n2 as [s2 g2 q2 u2]; simpl in *. subst s2.
  f_equal.
  - destruct S1 as [[-> ->]|[N1 I1]], S2 as [[? ->]|[N2 I2]]; congruence.
  - destruct Q1 as [[-> ->]|[N1 ->]], Q2 as [[? ->]|[N2 ->]]; congruence.
  - destruct u1, u2; try reflexivity.
    + assert (c2 = lit "*") as E by (apply U1; reflexivity).
      apply U2 in E. congruence.
    + assert (c2 = lit "*") as E by (apply U2; reflexivity).
      apply U1 in E. congruence.
Qed.

Lemma bad_not_network line n : Bad_line line -> Network_line line n -> False.
Proof.
  intros [_ [(fs & F & Hlen)|(s & g & c & u & F & _ & Hg & Hi)]]
         (a & b & d & F' & _ & S & _).
  - rewrite (fields_functional _ _ _ F F') in Hlen. apply Hlen; reflexivity.
  - pose proof (fields_functional _ _ _ F F') as E. injection E as _ -> _ _.
    destruct S as [[? _]|[_ S]]; congruence.
Qed.

Lemma bad_not_ignored line : Bad_line line -> Ignored_line line -> False.
Proof.
  intros [Hne [(fs & F & Hlen)|(s & g & c & u & F & Hs & _)]]
         [?|(a & b & d & F')]; try congruence.
  - rewrite (fields_functional _ _ _ F F') in Hlen. apply Hlen; reflexivity.
  - pose proof (fields_functional _ _ _ F F') as E. congruence.
Qed.

Lemma wifi_scan_line_cases line networks :
  (exists n, Network_line line n /\ scan_line line networks = Ok (networks ++ [n])) \/
  (Ignored_line line /\ scan_line line networks = Ok networks) \/
  (Bad_line line /\ scan_line line networks = Raised).
Proof.
  unfold scan_line. destruct (truthy_cases line) as [[T ->]|[T Hne]]; rewrite T.
  { right; left. split; [left; reflexivity|reflexivity]. }
  pose proof (split_fields line) as HF.
  destruct (split_on colon line) as [|f1 [|f2 [|f3 [|f4 [|f5 tl]]]]] eqn:Hsp;
    try (right; right; split; [|reflexivity];
         split; [exact Hne|]; left; eexists; split; [exact HF|simpl; lia]).
  destruct (truthy_cases f1) as [[T1 ->]|[T1 Hs]]; rewrite T1.
  { right; left. split; [|reflexivity]. right. eauto. }
  assert (Hsec : f3 = [] /\ security_of f3 = lit "Abierta" \/
                 f3 <> [] /\ security_of f3 = f3).
  { destruct f3; simpl; [left|right]; split; auto; discriminate. }
  unfold signal_of. destruct (truthy_cases f2) as [[T2 ->]|[T2 Hs2]]; rewrite T2.
  - left. eexists {| ssid := f1; signal := 0; security := security_of f3;
                     in_use := in_use_of f4 |}.
    split; [|reflexivity].
    exists [], f3, f4. simpl. split; [exact HF|]. split; [exact Hs|].
    split; [left; auto|]. split; [exact Hsec|]. apply in_use_of_spec.
  - destruct (int_of_str f2) as [z|] eqn:Hz.
    + left. eexists {| ssid := f1; signal := z; security := security_of f3;
                       in_use := in_use_of f4 |}.
      split; [|reflexivity].
      exists f2, f3, f4. simpl. split; [exact HF|]. split; [exact Hs|].
      split; [right; auto|]. split; [exact Hsec|]. apply in_use_of_spec.
    + right; right. split; [|reflexivity]. split; [exact Hne|].
      right. exists f1, f2, f3, f4. auto.
Qed.

(** Every line is of exactly one kind. *)
Lemma line_kinds line :
  (exists n, Network_line line n) \/ Ignored_line line \/ Bad_line line.
Proof.
  destruct (wifi_scan_line_cases line []) as [(n & Hn & _)|[(Hi & _)|(Hb & _)]];
    eauto.
Qed.

Lemma scan_lines_spec lines :
  forall networks,
    (Exists Bad_line lines /\ scan_lines lines networks = Raised) \/
    (exists found, ~ Exists Bad_line lines /\ Parsed lines found /\
                   scan_lines lines networks = Ok (networks ++ found)).
Proof.
  induction lines as [|line rest IH]; intros networks; simpl.
  - right. exists []. rewrite app_nil_r. split; [|split; [constructor|reflexivity]].
    intros HE; inversion HE.
  - destruct (wifi_scan_line_cases line networks)
      as [(n & Hn & ->)|[(Hi & ->)|(Hb & ->)]].
    + destruct (IH (networks ++ [n])) as [(HE & ->)|(found & HN & HP & ->)].
      * left. split; [right; exact HE|reflexivity].
      * right. exists (n :: found). rewrite <- app_assoc.
        split; [|split; [constructor; assumption|reflexivity]].
        intros HE; inversion HE as [? ? Hb|]; subst; [|auto].
        eapply bad_not_network; eauto.
    + destruct (IH networks) as [(HE & ->)|(found & HN & HP & ->)].
      * left. split; [right; exact HE|reflexivity].
      * right. exists found.
        split; [|split; [apply Parsed_ignored; assumption|reflexivity]].
        intros HE; inversion HE as [? ? Hb|]; subst; [|auto].
        eapply bad_not_ignored; eauto.
    + left. split; [left; exact Hb|reflexivity].
Qed.

Lemma network_not_ignored line n :
  Network_line line n -> ~ Ignored_line line.
Proof.
  intros (a & b & c & F & Hs & _) [->|(a' & b' & c' & F')].
  - apply fields_split in F. discriminate.
  - pose proof (fields_functional _ _ _ F F') as E. congruence.
Qed.

Lemma parsed_functional lines n1 n2 :
  Parsed lines n1 -> Parsed lines n2 -> n1 = n2.
Proof.
  intros H1. revert n2.
  induction H1 as [|line rest n ns Hn _ IH|line rest ns Hi _ IH];
    intros n2 H2;
    inversion H2 as [|? ? n' ns' Hn' HP'|? ? ? Hi' HP']; subst.
  - reflexivity.
  - rewrite (network_line_functional _ _ _ Hn Hn'). f_equal. auto.
  - exfalso. eapply network_not_ignored; eauto.
  - exfalso. eapply network_not_ignored; eauto.
  - auto.
Qed.

End WithBuiltins.

(** *** The sort *)

Lemma insert_by_signal_perm x l : Permutation (insert_by_signal x l) (x :: l).
Proof.
  induction l as [|y r IH]; simpl; [reflexivity|].
  destruct (signal y <=? signal x)%Z; [reflexivity|].
  rewrite IH. apply perm_swap.
Qed.

Lemma sorted_by_signal_perm l : Permutation (sorted_by_signal l) l.
Proof.
  induction l as [|x l IH]; simpl; [reflexivity|].
  rewrite insert_by_signal_perm. constructor. exact IH.
Qed.

Lemma insert_by_signal_sorted x l :
  StronglySorted by_signal l -> StronglySorted by_signal (insert_by_signal x l).
Proof.
  induction 1 as [|y r Hr IH Hy]; simpl.
  - constructor; constructor.
  - destruct (Z.leb_spec (signal y) (signal x)) as [Hle|Hgt].
    + constructor; [constructor; assumption|].
      constructor; [exact Hle|].
      eapply Forall_impl; [exact Hy|]. unfold by_signal. intros z Hz. simpl in Hz. lia.
    + constructor; [exact IH|].
      rewrite insert_by_signal_perm. constructor; [unfold by_signal; lia|exact Hy].
Qed.

Lemma sorted_by_signal_sorted l : StronglySorted by_signal (sorted_by_signal l).
Proof.
  induction l as [|x l IH]; simpl; [constructor|].
  apply insert_by_signal_sorted. exact IH.
Qed.

Lemma insert_by_signal_stable k x l :
  filter (fun n => signal n = k) (insert_by_signal x l)
  = filter (fun n => signal n = k) (x :: l).
Proof.
  induction l as [|y r IH]; simpl; [reflexivity|].
  destruct (Z.leb_spec (signal y) (signal x)) as [Hle|Hgt]; [reflexivity|].
  rewrite filter_cons, IH, !filter_cons.
  destruct (decide (signal y = k)), (decide (signal x = k)); try reflexivity.
  lia.
Qed.

Lemma sorted_by_signal_stable k l :
  filter (fun n => signal n = k) (sorted_by_signal l)
  = filter (fun n => signal n = k) l.
Proof.
  induction l as [|x l IH]; simpl; [reflexivity|].
  rewrite insert_by_signal_stable, !filter_cons, IH. reflexivity.
Qed.

(** C2.  [get_wifi_networks] returns the empty list when the [nmcli] call
    fails.  Otherwise, with [core] the output without the white space at its
    start and end and [lines] the lines of [core], it returns the empty list
    when a line fails to parse, and else the records of the lines, one per
    line that is not empty and whose SSID is not empty (signal read by
    [int], 0 for an empty field; security ['Abierta'] exactly for an empty
    field; [in_use] exactly for ['*']), sorted by signal in non-increasing
    order, records of equal signal in the order of their lines. *)
Theorem wifi_networks_spec `{Builtins} :
  get_wifi_networks Raised = [] /\
  forall output : list N,
    exists core lines,
      Trimmed output core /\ Lines core lines /\
      (Exists Bad_line lines -> get_wifi_networks (Ok output) = []) /\
      (~ Exists Bad_line lines ->
       exists networks,
         Parsed lines networks /\
         Permutation (get_wifi_networks (Ok output)) networks /\
         StronglySorted by_signal (get_wifi_networks (Ok output)) /\
         forall k,
           filter (fun n => signal n = k) (get_wifi_networks (Ok output))
           = filter (fun n => signal n = k) networks).
Proof.
  split; [reflexivity|]. intros output.
  destruct (output_lines_spec output) as (core & Ht & Hl).
  exists core, (output_lines output).
  split; [exact Ht|]. split; [exact Hl|].
  unfold get_wifi_networks.
  destruct (scan_lines_spec (output_lines output) [])
    as [(HE & ->)|(found & HN & HP & ->)].
  - split; [reflexivity|]. intros HN; contradiction.
  - split; [intros HE; contradiction|]. intros _. exists found. simpl.
    split; [exact HP|]. split; [apply sorted_by_signal_perm|].
    split; [apply sorted_by_signal_sorted|]. intros k. apply sorted_by_signal_stable.
Qed.

(** Read on the lines of the output itself the statement fails: white space
    at the start of the output belongs to no line for the code, so the SSID
    of the first network loses the white space it starts with. *)
Lemma wifi_ssid_at_start_of_output :
  let line := lit " Guest:50:WPA2:" in
  let out := line ++ [10%N] in
  let expected := {| ssid := lit " Guest"; signal := 50;
                     security := lit "WPA2"; in_use := false |} in
  Lines out [line; []] /\
  Parsed (H := ascii_builtins) [line; []] [expected] /\
  get_wifi_networks (H := ascii_builtins) (Ok out)
  = [{| ssid := lit "Guest"; signal := 50; security := lit "WPA2";
        in_use := false |}] /\
  ~ (exists networks,
        Parsed (H := ascii_builtins) [line; []] networks /\
        Permutation (get_wifi_networks (H := ascii_builtins) (Ok out))
                    networks).
Proof.
  cbv zeta.
  assert (HP : Parsed (H := ascii_builtins) [lit " Guest:50:WPA2:"; []]
                 [{| ssid := lit " Guest"; signal := 50;
                     security := lit "WPA2"; in_use := false |}]).
  { destruct (scan_lines_spec (H := ascii_builtins)
                [lit " Guest:50:WPA2:"; []] [])
      as [(_ & E)|(found & _ & HP & E)]; vm_compute in E; [discriminate|].
    injection E as <-. exact HP. }
  split.
  { assert (E : split_on 10 (lit " Guest:50:WPA2:" ++ [10%N])
                = [lit " Guest:50:WPA2:"; []]) by reflexivity.
    rewrite <- E. apply split_on_pieces. }
  split; [exact HP|]. split; [reflexivity|].
  intros (networks & HP' & Hperm).
  rewrite (parsed_functional _ _ _ HP' HP) in Hperm.
  apply Permutation_length_1 in Hperm. vm_compute in Hperm. discriminate.
Qed.

Example wifi_networks_example :
  get_wifi_networks (H := ascii_builtins)
    (Ok (lit "home:50:WPA2:*" ++ [10%N] ++ lit "cafe:70::" ++ [10%N]
           ++ lit ":10:WPA2:" ++ [10%N] ++ lit "lab:50:WPA1: " ++ [10%N]))
  = [{| ssid := lit "cafe"; signal := 70; security := lit "Abierta";
        in_use := false |};
     {| ssid := lit "home"; signal := 50; security := lit "WPA2";
        in_use := true |};
     {| ssid := lit "lab"; signal := 50; security := lit "WPA1";
        in_use := false |}].
Proof. reflexivity. Qed.

Example wifi_networks_bad_line :
  get_wifi_networks (H := ascii_builtins)
    (Ok (lit "home:50:WPA2:*" ++ [10%N] ++ lit "my:net:40:WPA2:" ++ [10%N]))
  = [].
Proof. reflexivity. Qed.

End WifiFacts.

(** ** External storage *)

Module StorageFacts.
Import Py PyFacts Json Storage.

Lemma eq_str_spec v s : eq_str v s = true <-> Is_str v s.
Proof.
  unfold eq_str, Is_str. destruct v as [[| | | |t| |]|]; try (split; discriminate).
  rewrite bool_decide_eq_true. split; [intros ->; reflexivity|intros [= ->]; reflexivity].
Qed.

Lemma external_and_mounted_spec d :
  external_and_mounted d = true <-> Should_list d.
Proof.
  unfold external_and_mounted, Should_list.
  rewrite !andb_true_iff, !orb_true_iff, !eq_str_spec.
  split.
  - intros [[Ht Hr] Hm]. split; [exact Ht|]. split; [|tauto].
    destruct (obj_get (lit "mountpoint") d) as [mp|]; [eauto|discriminate].
  - intros [Ht [(mp & -> & Hm) Hr]]. tauto.
Qed.

Lemma stripped_field_plain key d :
  str_or_absent (obj_get key d) ->
  stripped_field key d = Ok (strip (text_of (obj_get key d))).
Proof.
  unfold stripped_field. intros [->|[s ->]]; reflexivity.
Qed.

Lemma descriptive_name_plain d :
  Plain d -> descriptive_name d = Ok (promised_name d).
Proof.
  intros [_ HP]. unfold descriptive_name, promised_name.
  destruct (truthy (default (JStr []) (obj_get (lit "label") d))) eqn:Hl;
    [reflexivity|].
  destruct (HP eq_refl) as (Hv & Hm & p & Hp).
  rewrite !stripped_field_plain by assumption.
  destruct (Py.truthy _ || Py.truthy _); [reflexivity|].
  rewrite Hp. reflexivity.
Qed.

Lemma scan_device_skipped d devices :
  ~ Should_list d -> scan_device (JObj d) devices = Ok devices.
Proof.
  intros Hn. unfold scan_device.
  destruct (external_and_mounted d) eqn:E; [|reflexivity].
  apply external_and_mounted_spec in E. contradiction.
Qed.

Lemma scan_device_listed d devices :
  Should_list d -> Plain d ->
  exists e, scan_device (JObj d) devices = Ok (devices ++ [e]) /\
            name e = promised_name d /\
            Some (path e) = obj_get (lit "name") d /\
            Some (mountpoint e) = obj_get (lit "mountpoint") d.
Proof.
  intros HS HP. unfold scan_device.
  apply external_and_mounted_spec in HS as E. rewrite E.
  rewrite descriptive_name_plain by exact HP.
  destruct HP as [[p Hp] _]. destruct HS as (_ & (mp & Hmp & _) & _).
  rewrite Hp, Hmp. eexists. split; [reflexivity|]. simpl. auto.
Qed.

Lemma scan_devices_plain items :
  Forall Plain_item items ->
  forall devices, exists found,
    scan_devices items devices = devices ++ found /\ Listing items found.
Proof.
  induction 1 as [|item rest (d & -> & Hp) _ IH]; intros devices.
  - exists []. simpl. rewrite app_nil_r. split; [reflexivity|constructor].
  - cbn [scan_devices].
    destruct (external_and_mounted d) eqn:E.
    + apply external_and_mounted_spec in E.
      destruct (scan_device_listed d devices E (Hp E)) as (e & -> & Hn & Hpath & Hm).
      destruct (IH (devices ++ [e])) as (found & -> & HL).
      exists (e :: found). rewrite <- app_assoc. split; [reflexivity|].
      constructor; assumption.
    + assert (Hn : ~ Should_list d).
      { intros HS. apply external_and_mounted_spec in HS. congruence. }
      rewrite scan_device_skipped by exact Hn.
      destruct (IH devices) as (found & -> & HL).
      exists found. split; [reflexivity|]. apply Listing_skip; assumption.
Qed.

(** X1.  When every device of the document that is to be listed has a name
    and strings where its descriptive name is taken from, [get_storage_devices]
    lists exactly the devices of type [disk] or [part] that are mounted and
    removable, hot-plugged or on USB, in order, each under the promised name. *)
Theorem storage_listing_of_plain_devices (items : list json) :
  Forall Plain_item items ->
  Listing items (get_storage_devices (Ok (lsblk_document items))).
Proof.
  intros HP. unfold get_storage_devices, lsblk_document.
  cbn [obj_get]. rewrite decide_True by reflexivity. cbn [iterate].
  destruct (scan_devices_plain items HP []) as (found & -> & HL). exact HL.
Qed.

Lemma storage_listing_of_plain_devices_witness :
  Listing [JObj usb_stick]
          (get_storage_devices (Ok (lsblk_document [JObj usb_stick]))).
Proof.
  apply (storage_listing_of_plain_devices [JObj usb_stick]).
  constructor; [|constructor].
  exists usb_stick. split; [reflexivity|]. intros _.
  split; [eexists; reflexivity|]. intros Hl. vm_compute in Hl. discriminate.
Defined.

(** C3.  The memory card meets the condition for being listed, under
    the name "card"; the code raises on its [null] vendor and lists nothing,
    and it drops the USB stick that follows in the same document, which it
    lists when the stick stands alone. *)
Theorem storage_listing_aborts_on_null_vendor :
  Should_list memory_card /\
  promised_name memory_card = JStr (lit "card") /\
  get_storage_devices (Ok (lsblk_document [JObj memory_card])) = [] /\
  Should_list usb_stick /\
  length (get_storage_devices (Ok (lsblk_document [JObj usb_stick]))) = 1%nat /\
  get_storage_devices (Ok (lsblk_document [JObj memory_card; JObj usb_stick])) = [].
Proof.
  split; [apply external_and_mounted_spec; reflexivity|].
  split; [reflexivity|]. split; [reflexivity|].
  split; [apply external_and_mounted_spec; reflexivity|].
  split; reflexivity.
Qed.

(** The loop visits the elements of [blockdevices] only: a mounted partition
    that [lsblk] nests under the [children] of its disk is never listed. *)
Lemma storage_children_not_visited :
  (exists partition,
      obj_get (lit "children") usb_disk_with_partition
        = Some (JArr [JObj partition]) /\
      Should_list partition) /\
  get_storage_devices (Ok (lsblk_document [JObj usb_disk_with_partition])) = [].
Proof.
  split; [|reflexivity]. eexists. split; [reflexivity|].
  apply external_and_mounted_spec. reflexivity.
Qed.

End StorageFacts.

(** ** Volume *)

Module VolumeFacts.
Import Py PyFacts Volume.

Section WithBuiltins.
Context `{Builtins}.

Lemma int_or_raise_ok s z : int_or_raise s = Ok z <-> int_of_str s = Some z.
Proof.
  unfold int_or_raise. destruct (int_of_str s); split; congruence.
Qed.

Lemma with_pactl_ok c r :
  with_pactl c = Ok r <->
  exists output tok mute_output,
    pactl_get_sink_volume c = Ok output /\
    split_ws None output !! 4%nat = Some tok /\
    int_of_str (rstrip_chars (lit "%") tok) = Some (fst r) /\
    pactl_get_sink_mute c = Ok mute_output /\
    snd r = contains (lit "yes") (lower mute_output).
Proof.
  unfold with_pactl, int_or_raise. split.
  - destruct (pactl_get_sink_volume c) as [output|] eqn:Ho; [|discriminate].
    destruct (split_ws None output !! 4%nat) as [tok|] eqn:Ht; [|discriminate].
    destruct (int_of_str (rstrip_chars (lit "%") tok)) as [z|] eqn:Hz; [|discriminate].
    destruct (pactl_get_sink_mute c) as [mute_output|] eqn:Hm; [|discriminate].
    intros [= <-]. exists output, tok, mute_output. cbn [fst snd].
    repeat split; auto.
  - intros (output & tok & mute_output & -> & -> & -> & -> & Hm).
    destruct r as [v m]. cbn [fst snd] in *. congruence.
Qed.

Lemma with_amixer_ok c r :
  with_amixer c = Ok r <->
  exists output tok,
    amixer_get_master c = Ok output /\
    second_to_last (split_ws None output) = Some tok /\
    int_of_str (strip_chars (lit "[]%") tok) = Some (fst r) /\
    snd r = contains (lit "off") (lower output).
Proof.
  unfold with_amixer, int_or_raise. split.
  - destruct (amixer_get_master c) as [output|] eqn:Ho; [|discriminate].
    destruct (second_to_last (split_ws None output)) as [tok|] eqn:Ht; [|discriminate].
    destruct (int_of_str (strip_chars (lit "[]%") tok)) as [z|] eqn:Hz; [|discriminate].
    intros [= <-]. exists output, tok. cbn [fst snd].
    repeat split; auto.
  - intros (output & tok & -> & -> & -> & Hm).
    destruct r as [v m]. cbn [fst snd] in *. congruence.
Qed.

Lemma second_to_last_spec {A} (l : list A) (x : A) :
  second_to_last l = Some x <-> exists front final, l = front ++ [x; final].
Proof.
  unfold second_to_last. split.
  - destruct (Nat.leb_spec 2 (length l)) as [Hlen|Hlen]; [|discriminate].
    intros Hx.
    destruct (lookup_lt_is_Some_2 l (S (length l - 2))) as [y Hy]; [lia|].
    exists (take (length l - 2) l), y.
    rewrite <- (take_drop (length l - 2) l) at 1. f_equal.
    rewrite (drop_S _ _ _ Hx), (drop_S _ _ _ Hy), drop_ge by lia.
    reflexivity.
  - intros (front & final & ->). rewrite length_app. cbn [length].
    destruct (Nat.leb_spec 2 (length front + 2)) as [_|Hlen]; [|lia].
    replace (length front + 2 - 2)%nat with (length front + 0)%nat by lia.
    rewrite lookup_app_r by lia.
    replace (length front + 0 - length front)%nat with 0%nat by lia.
    reflexivity.
Qed.

Lemma percent_sign ch : in_chars (lit "%") ch = true <-> ch = 37%N.
Proof.
  rewrite in_chars_spec. cbn [lit In]. split.
  - intros [E|[]]. symmetry. exact E.
  - intros ->. left. reflexivity.
Qed.

Lemma bool_of_contains q s (b : bool) :
  b = contains q s <-> (b = true <-> Windows.Substring q s).
Proof.
  unfold Windows.Substring. rewrite <- contains_spec.
  destruct b, (contains q s); split; try tauto; try discriminate;
    intros [H1 H2]; try (symmetry; apply H1; reflexivity);
    try (apply H2; reflexivity).
Qed.

Lemma pactl_reading_spec c volume muted :
  with_pactl c = Ok (volume, muted) <-> Pactl_reading c volume muted.
Proof.
  rewrite with_pactl_ok. cbn [fst snd]. unfold Pactl_reading. split.
  - intros (output & tok & mute_output & Ho & Ht & Hn & Hm & Hb).
    exists output, (split_ws None output), tok,
           (rstrip_chars (lit "%") tok), mute_output.
    split; [exact Ho|]. split; [apply split_words|]. split; [exact Ht|].
    split; [apply (rstrip_by_trimmed _ _ percent_sign)|].
    split; [exact Hn|]. split; [exact Hm|].
    apply bool_of_contains. exact Hb.
  - intros (output & words & tok & number & mute_output
            & Ho & Hw & Ht & Hn & Hi & Hm & Hb).
    exists output, tok, mute_output.
    apply words_split in Hw. subst words.
    apply (trimmed_rstrip_by _ _ percent_sign) in Hn.
    split; [exact Ho|]. split; [exact Ht|].
    split; [unfold rstrip_chars; rewrite Hn; exact Hi|].
    split; [exact Hm|]. apply bool_of_contains. exact Hb.
Qed.

Lemma amixer_reading_spec c volume muted :
  with_amixer c = Ok (volume, muted) <-> Amixer_reading c volume muted.
Proof.
  rewrite with_amixer_ok. cbn [fst snd]. unfold Amixer_reading. split.
  - intros (output & tok & Ho & Ht & Hn & Hb).
    apply second_to_last_spec in Ht. destruct Ht as (front & final & Ht).
    exists output, (split_ws None output), front, tok, final,
           (strip_chars (lit "[]%") tok).
    split; [exact Ho|]. split; [apply split_words|]. split; [exact Ht|].
    split; [apply (strip_by_trimmed _ _ (in_chars_spec _))|].
    split; [exact Hn|]. apply bool_of_contains. exact Hb.
  - intros (output & words & front & tok & final & number
            & Ho & Hw & Ht & Hn & Hi & Hb).
    exists output, tok. apply words_split in Hw. subst words.
    apply (trimmed_strip_by _ _ (in_chars_spec _)) in Hn.
    split; [exact Ho|].
    split; [apply second_to_last_spec; eauto|].
    split; [unfold strip_chars; rewrite Hn; exact Hi|].
    apply bool_of_contains. exact Hb.
Qed.

(** C4.  [get_volume_info] is a total function (it never raises).  When the
    two [pactl] calls succeed and the fifth word of the volume output,
    without the percent signs at its end, is a number, it returns that
    number, and muted exactly when the lower-cased mute output contains
    "yes".  Otherwise, when [amixer get Master] succeeds and the word
    before the last of its output, without the brackets and percent signs
    around it, is a number, it returns that number, and muted exactly when
    the lower-cased output contains "off".  When neither reading exists it
    returns [(0, True)].  One of the three cases always applies. *)
Theorem volume_info_spec (c : commands) :
  (forall volume muted,
     Pactl_reading c volume muted -> get_volume_info c = (volume, muted)) /\
  ((forall volume muted, ~ Pactl_reading c volume muted) ->
   forall volume muted,
     Amixer_reading c volume muted -> get_volume_info c = (volume, muted)) /\
  ((forall volume muted, ~ Pactl_reading c volume muted) ->
   (forall volume muted, ~ Amixer_reading c volume muted) ->
   get_volume_info c = (0%Z, true)) /\
  ((exists volume muted, Pactl_reading c volume muted) \/
   (forall volume muted, ~ Pactl_reading c volume muted)) /\
  ((exists volume muted, Amixer_reading c volume muted) \/
   (forall volume muted, ~ Amixer_reading c volume muted)).
Proof.
  assert (Hp : forall r, with_pactl c = Ok r -> Pactl_reading c (fst r) (snd r)).
  { intros [v m] E. apply pactl_reading_spec. exact E. }
  assert (Ha : forall r, with_amixer c = Ok r -> Amixer_reading c (fst r) (snd r)).
  { intros [v m] E. apply amixer_reading_spec. exact E. }
  unfold get_volume_info.
  split.
  { intros v m Hr. apply pactl_reading_spec in Hr. rewrite Hr. reflexivity. }
  split.
  { intros Hno v m Hr. apply amixer_reading_spec in Hr.
    destruct (with_pactl c) as [r|] eqn:E.
    - exfalso. exact (Hno _ _ (Hp r eq_refl)).
    - rewrite Hr. reflexivity. }
  split.
  { intros Hno Hno'.
    destruct (with_pactl c) as [r|] eqn:E.
    - exfalso. exact (Hno _ _ (Hp r eq_refl)).
    - destruct (with_amixer c) as [r|] eqn:E'; [|reflexivity].
      exfalso. exact (Hno' _ _ (Ha r eq_refl)). }
  split.
  - destruct (with_pactl c) as [r|] eqn:E.
    + left. exists (fst r), (snd r). apply Hp. reflexivity.
    + right. intros v m Hr. apply pactl_reading_spec in Hr. congruence.
  - destruct (with_amixer c) as [r|] eqn:E.
    + left. exists (fst r), (snd r). apply Ha. reflexivity.
    + right. intros v m Hr. apply amixer_reading_spec in Hr. congruence.
Qed.

End WithBuiltins.

Example volume_info_example :
  get_volume_info (H := ascii_builtins) sample_commands = (50%Z, false).
Proof. reflexivity. Qed.

Example volume_info_fallback :
  get_volume_info (H := ascii_builtins)
    {| pactl_get_sink_volume := Raised;
       pactl_get_sink_mute := pactl_get_sink_mute sample_commands;
       amixer_get_master := amixer_get_master sample_commands |}
  = (50%Z, true).
Proof. reflexivity. Qed.

Example volume_info_nothing_works :
  get_volume_info (H := ascii_builtins)
    {| pactl_get_sink_volume := Ok (lit "Volume: n/a");
       pactl_get_sink_mute := Raised;
       amixer_get_master := Raised |}
  = (0%Z, true).
Proof. reflexivity. Qed.

End VolumeFacts.

(** ** Notifications *)

Module NotificationsFacts.
Import Py Notifications.

Lemma length_removelast {A} (l : list A) :
  length (removelast l) = (length l - 1)%nat.
Proof.
  induction l as [|x [|y l] IH]; simpl in *; try reflexivity.
  rewrite IH. lia.
Qed.

Lemma add_notification_length n ns :
  (length ns <= 50)%nat -> (length (add_notification n ns) <= 50)%nat.
Proof.
  intros H. unfold add_notification.
  destruct (Nat.ltb_spec 50 (length (n :: ns))) as [Hlt|Hge].
  - rewrite length_removelast. simpl in *. lia.
  - exact Hge.
Qed.

Lemma remove_notification_length i ns :
  (length (remove_notification i ns) <= length ns)%nat.
Proof.
  unfold remove_notification.
  destruct ((0 <=? i)%Z && (i <? Z.of_nat (length ns))%Z) eqn:E; [|lia].
  destruct (decide (Z.to_nat i < length ns)%nat) as [Hlt|Hge].
  - rewrite length_delete by (apply lookup_lt_is_Some; exact Hlt). lia.
  - apply andb_true_iff in E as [E1 E2].
    apply Z.leb_le in E1. apply Z.ltb_lt in E2. lia.
Qed.

Lemma apply_length o ns :
  (length ns <= 50)%nat -> (length (apply o ns) <= 50)%nat.
Proof.
  intros H. destruct o; simpl.
  - apply add_notification_length; exact H.
  - apply add_notification_length; exact H.
  - pose proof (remove_notification_length index ns). lia.
  - lia.
Qed.

Lemma reachable_length ns : reachable ns -> (length ns <= 50)%nat.
Proof.
  induction 1 as [now|o ns _ IH].
  - simpl. lia.
  - apply apply_length; exact IH.
Qed.

Lemma add_notification_below n ns :
  (length ns < 50)%nat -> add_notification n ns = n :: ns.
Proof.
  intros H. unfold add_notification.
  destruct (Nat.ltb_spec 50 (length (n :: ns))) as [Hlt|Hge]; [simpl in Hlt; lia|].
  reflexivity.
Qed.

Lemma add_notification_full n ns :
  (50 <= length ns)%nat -> add_notification n ns = n :: removelast ns.
Proof.
  intros H. unfold add_notification.
  destruct (Nat.ltb_spec 50 (length (n :: ns))) as [Hlt|Hge]; [|simpl in Hge; lia].
  destruct ns as [|x ns]; [simpl in H; lia|]. reflexivity.
Qed.

(** C8.  Every list reached from the start by [add_notification],
    [on_notification_received], [remove_notification] and
    [clear_all_notifications] has at most 50 entries.  [add_notification]
    puts the new item at index 0; it keeps the others when there were fewer
    than 50, and drops the last one when there were 50. *)
Theorem notifications_bounded :
  (forall ns, reachable ns -> (length ns <= 50)%nat) /\
  (forall o ns, (length ns <= 50)%nat -> (length (apply o ns) <= 50)%nat) /\
  (forall n ns, add_notification n ns !! 0%nat = Some n) /\
  (forall n ns, (length ns < 50)%nat -> add_notification n ns = n :: ns) /\
  (forall n ns, length ns = 50%nat ->
     add_notification n ns = n :: removelast ns /\
     length (add_notification n ns) = 50%nat).
Proof.
  split; [exact reachable_length|]. split; [exact apply_length|].
  split.
  - intros n ns. destruct (decide (length ns < 50)%nat) as [Hlt|Hge].
    + rewrite add_notification_below by exact Hlt. reflexivity.
    + rewrite add_notification_full by lia. reflexivity.
  - split; [exact add_notification_below|].
    intros n ns Hlen. rewrite add_notification_full by lia.
    split; [reflexivity|]. simpl. rewrite length_removelast. lia.
Qed.

(** C9.  For an index outside [0, len(notifications)), [remove_notification]
    returns the list as it was. *)
Theorem remove_notification_out_of_range (index : Z) (ns : list NotificationItem) :
  (index < 0 \/ Z.of_nat (length ns) <= index)%Z ->
  remove_notification index ns = ns.
Proof.
  intros H. unfold remove_notification.
  destruct (Z.leb_spec 0 index), (Z.ltb_spec index (Z.of_nat (length ns)));
    simpl; try reflexivity. lia.
Qed.

Lemma remove_notification_out_of_range_witness :
  remove_notification 5 (setup_notifications 0) = setup_notifications 0.
Proof.
  apply (remove_notification_out_of_range 5 (setup_notifications 0)).
  right. simpl. lia.
Defined.

Lemma remove_notification_in_range index ns :
  (0 <= index < Z.of_nat (length ns))%Z ->
  remove_notification index ns = delete (Z.to_nat index) ns /\
  length (remove_notification index ns) = (length ns - 1)%nat.
Proof.
  intros H. unfold remove_notification.
  destruct (Z.leb_spec 0 index), (Z.ltb_spec index (Z.of_nat (length ns)));
    simpl; try lia.
  split; [reflexivity|]. apply length_delete, lookup_lt_is_Some. lia.
Qed.

End NotificationsFacts.

(** ** The application menu *)

Module AppsFacts.
Import Py PyFacts Apps.

Lemma split_in_word_nonempty n w s : split_scan n (Some w) s <> [].
Proof.
  revert w. induction s as [|c s IH]; intros w; simpl; [discriminate|].
  destruct (is_space c); [discriminate|apply IH].
Qed.

Lemma split_ws_nil s :
  split_ws None s = [] -> Forall (fun c => is_space c = true) s.
Proof.
  unfold split_ws. intros Hs.
  destruct (blank_or_starts s) as [Hb|(g & c & r & -> & Hg & Hc)]; [exact Hb|].
  rewrite split_skip in Hs by exact Hg. simpl in Hs. rewrite Hc in Hs.
  exfalso. eapply split_in_word_nonempty; eauto.
Qed.

Lemma stripped_has_token v :
  stripped_value v -> v <> [] -> exists first rest, split_ws None v = first :: rest.
Proof.
  intros Hs Hne. destruct (split_ws None v) as [|first rest] eqn:E; [|eauto].
  exfalso. apply Hne. rewrite <- Hs. apply rstrip_by_nil, split_ws_nil, E.
Qed.

Lemma assoc_In {V} key (l : list (list N * V)) v :
  assoc key l = Some v -> In (key, v) l.
Proof.
  induction l as [|[k w] l IH]; simpl; [discriminate|].
  destruct (decide (k = key)) as [->|_].
  - intros [= ->]. left; reflexivity.
  - intros Hl. right; auto.
Qed.

Section WithBuiltins.
Context `{Builtins}.

Lemma entry_get_stripped c entry opt v :
  stripped_config c ->
  assoc (lit "Desktop Entry") (sections c) = Some entry ->
  entry_get c entry opt = Some v -> stripped_value v.
Proof.
  intros [Hd Hs] He. unfold entry_get.
  destruct (assoc (lower opt) entry) as [w|] eqn:Ew.
  - intros [= ->]. apply assoc_In in He, Ew.
    rewrite List.Forall_forall in Hs. specialize (Hs _ He). simpl in Hs.
    rewrite List.Forall_forall in Hs. exact (Hs _ Ew).
  - intros Hv. apply assoc_In in Hv.
    rewrite List.Forall_forall in Hd. exact (Hd _ Hv).
Qed.

Lemma qualifies_functional fs path c1 e1 n1 x1 c2 e2 n2 x2 :
  Qualifies fs path c1 e1 n1 x1 -> Qualifies fs path c2 e2 n2 x2 ->
  c1 = c2 /\ e1 = e2 /\ n1 = n2 /\ x1 = x2.
Proof.
  intros (R1 & S1 & _ & N1 & _ & X1 & _) (R2 & S2 & _ & N2 & _ & X2 & _).
  assert (c1 = c2) as -> by congruence.
  assert (e1 = e2) as -> by congruence.
  repeat split; congruence.
Qed.

Lemma load_file_cases fs path :
  (forall c, read fs path = ReadOk c -> stripped_config c) ->
  (exists app, Entry_of fs path app /\ load_file fs path = Some app) \/
  ((forall c entry name exec_cmd, ~ Qualifies fs path c entry name exec_cmd) /\
   load_file fs path = None).
Proof.
  intros Hstripped. unfold load_file.
  destruct (read fs path) as [|c] eqn:Hr.
  { right. split; [|reflexivity]. intros c e n x (R & _). congruence. }
  specialize (Hstripped c eq_refl).
  destruct (assoc (lit "Desktop Entry") (sections c)) as [entry|] eqn:He.
  2:{ right. split; [|reflexivity]. intros c' e n x (R & S & _). congruence. }
  case_bool_decide as Hnd.
  { right. split; [|reflexivity]. intros c' e n x (R & S & ND & _).
    assert (c' = c) as -> by congruence. assert (e = entry) as -> by congruence.
    contradiction. }
  destruct (entry_get c entry (lit "Name")) as [name|] eqn:Hn.
  2:{ right. split; [|reflexivity].
      intros c' e n x (R & S & _ & N & _).
      assert (c' = c) as -> by congruence. assert (e = entry) as -> by congruence.
      congruence. }
  destruct (entry_get c entry (lit "Exec")) as [exec_cmd|] eqn:Hx.
  2:{ right. split.
      - intros c' e n x (R & S & _ & _ & _ & X & _).
        assert (c' = c) as -> by congruence. assert (e = entry) as -> by congruence.
        congruence.
      - cbv zeta. cbn [default truthy]. rewrite andb_false_r. reflexivity. }
  cbv zeta. cbn [default]. unfold id.
  destruct (truthy_cases name) as [[T ->]|[T Hne]]; rewrite T.
  { right. split; [|reflexivity]. intros c' e n x (R & S & _ & N & Nne & _).
    assert (c' = c) as -> by congruence. assert (e = entry) as -> by congruence.
    congruence. }
  destruct (truthy_cases exec_cmd) as [[T' ->]|[T' Hxe]]; rewrite T'.
  { right. split; [|reflexivity]. intros c' e n x (R & S & _ & _ & _ & X & Xne).
    assert (c' = c) as -> by congruence. assert (e = entry) as -> by congruence.
    congruence. }
  cbn [andb].
  destruct (stripped_has_token exec_cmd) as (first & rest & Hsp);
    [eapply entry_get_stripped; eauto|exact Hxe|].
  rewrite Hsp. left. eexists. split; [|reflexivity].
  exists c, entry, name, exec_cmd, first, rest.
  split; [|split; [rewrite <- Hsp; apply split_words|reflexivity]].
  repeat split; auto.
Qed.

Lemma collected_app fs l1 a1 l2 a2 :
  Collected fs l1 a1 -> Collected fs l2 a2 -> Collected fs (l1 ++ l2) (a1 ++ a2).
Proof.
  induction 1; intros H2; simpl; [exact H2| |].
  - constructor; auto.
  - apply Collected_skip; auto.
Qed.

Lemma path_join_inside d fname : Inside d fname (path_join d fname).
Proof.
  unfold Inside, path_join.
  destruct (truthy_cases d) as [[T ->]|[T Hne]]; rewrite T; cbn [negb orb].
  { left. split; [left; reflexivity|reflexivity]. }
  destruct (endswith d (lit "/")) eqn:He.
  - left. split; [right; apply endswith_spec; exact He|reflexivity].
  - right. split; [exact Hne|]. split; [|reflexivity].
    intros Hs. apply endswith_spec in Hs. congruence.
Qed.

Lemma scan_dir_spec fs d names :
  (forall path c, read fs path = ReadOk c -> stripped_config c) ->
  forall applications, exists here found,
    Desktop_files_in d names here /\
    Collected fs here found /\
    scan_dir fs d names applications = applications ++ found.
Proof.
  intros Hstripped. induction names as [|fname rest IH]; intros applications.
  - exists [], []. cbn [scan_dir]. rewrite app_nil_r.
    split; [constructor|]. split; [constructor|reflexivity].
  - cbn [scan_dir].
    destruct (endswith fname (lit ".desktop")) eqn:Hend.
    + assert (Hname : Desktop_name fname) by (apply endswith_spec; exact Hend).
      destruct (load_file_cases fs (path_join d fname) (Hstripped _))
        as [(app & Happ & ->)|(Hno & ->)].
      * destruct (IH (applications ++ [app])) as (here & found & HF & HC & ->).
        exists (path_join d fname :: here), (app :: found).
        rewrite <- app_assoc.
        split; [constructor; auto using path_join_inside|].
        split; [constructor; assumption|reflexivity].
      * destruct (IH applications) as (here & found & HF & HC & ->).
        exists (path_join d fname :: here), found.
        split; [constructor; auto using path_join_inside|].
        split; [apply Collected_skip; assumption|reflexivity].
    + destruct (IH applications) as (here & found & HF & HC & ->).
      exists here, found. split; [|split; [exact HC|reflexivity]].
      apply Desktop_files_skip; [|exact HF].
      intros Hname. apply endswith_spec in Hname. congruence.
Qed.

(** The scan of the directories: it returns when every directory that
    exists can be listed, and it stops at the first that cannot. *)
Lemma scan_dirs_spec fs dirs :
  (forall path c, read fs path = ReadOk c -> stripped_config c) ->
  forall applications,
    (exists files found,
        Scanned fs dirs files /\ Collected fs files found /\
        scan_dirs fs dirs applications = Returned (applications ++ found)) \/
    (exists before d after files found,
        dirs = before ++ d :: after /\
        isdir fs d = true /\ listdir fs d = Raised /\
        Scanned fs before files /\ Collected fs files found /\
        scan_dirs fs dirs applications = Raises (applications ++ found)).
Proof.
  intros Hstripped. induction dirs as [|d rest IH]; intros applications.
  - left. exists [], []. cbn [scan_dirs]. rewrite app_nil_r.
    split; [constructor|]. split; [constructor|reflexivity].
  - cbn [scan_dirs]. destruct (isdir fs d) eqn:Hd.
    + destruct (listdir fs d) as [names|] eqn:Hl.
      * destruct (scan_dir_spec fs d names Hstripped applications)
          as (here & f1 & HF & H1 & ->).
        destruct (IH (applications ++ f1))
          as [(files & f2 & HS & H2 & ->)
             |(before & d' & after & files & f2 & -> & Hd' & Hl' & HS & H2 & ->)].
        -- left. exists (here ++ files), (f1 ++ f2). rewrite <- app_assoc.
           split; [eapply Scanned_listed; eauto|].
           split; [apply collected_app; assumption|reflexivity].
        -- right. exists (d :: before), d', after, (here ++ files), (f1 ++ f2).
           rewrite <- app_assoc.
           split; [reflexivity|]. split; [exact Hd'|]. split; [exact Hl'|].
           split; [eapply Scanned_listed; eauto|].
           split; [apply collected_app; assumption|reflexivity].
      * right. exists [], d, rest, [], []. rewrite app_nil_r.
        split; [reflexivity|]. split; [exact Hd|]. split; [exact Hl|].
        split; [constructor|]. split; [constructor|reflexivity].
    + destruct (IH applications)
        as [(files & f2 & HS & H2 & ->)
           |(before & d' & after & files & f2 & -> & Hd' & Hl' & HS & H2 & ->)].
      * left. exists files, f2.
        split; [apply Scanned_missing; assumption|]. split; [exact H2|reflexivity].
      * right. exists (d :: before), d', after, files, f2.
        split; [reflexivity|]. split; [exact Hd'|]. split; [exact Hl'|].
        split; [apply Scanned_missing; assumption|].
        split; [exact H2|reflexivity].
Qed.

(** X12.  When every one of the three application directories that exists
    can be listed, [load_applications] returns, and over the files whose
    name ends in [.desktop] in [/usr/share/applications],
    [/usr/local/share/applications] and [~/.local/share/applications], in
    that order and in the order of each listing, it holds one entry for each
    file that parses, has a [Desktop Entry] section whose [NoDisplay],
    lower-cased, is not "true", and has a [Name] and an [Exec] that are
    present and not empty; the entry is the name, the first word of [Exec],
    and [Icon] or the empty string.  Every other file, one that fails to
    parse included, is passed over and the files after it are still read. *)
Theorem applications_loaded (fs : filesystem) :
  (forall path c, read fs path = ReadOk c -> stripped_config c) ->
  (forall d,
     In d [lit "/usr/share/applications";
           lit "/usr/local/share/applications";
           expanduser fs (lit "~/.local/share/applications")] ->
     isdir fs d = true -> listdir fs d <> Raised) ->
  exists files applications,
    Scanned fs [lit "/usr/share/applications";
                lit "/usr/local/share/applications";
                expanduser fs (lit "~/.local/share/applications")] files /\
    Collected fs files applications /\
    load_applications fs = Returned applications.
Proof.
  intros Hstripped Hlist. unfold load_applications.
  destruct (scan_dirs_spec fs (desktop_dirs fs) Hstripped [])
    as [(files & found & HS & HC & E)
       |(before & d & after & files & found & Hdirs & Hd & Hl & _)].
  - exists files, found. split; [exact HS|]. split; [exact HC|exact E].
  - exfalso. apply (Hlist d); [|exact Hd|exact Hl].
    change (In d (desktop_dirs fs)). rewrite Hdirs.
    apply in_or_app. right. left. reflexivity.
Qed.

End WithBuiltins.

Lemma applications_loaded_witness :
  exists files applications,
    Scanned sample_files
      [lit "/usr/share/applications";
       lit "/usr/local/share/applications";
       expanduser sample_files (lit "~/.local/share/applications")] files /\
    Collected (H := ascii_builtins) sample_files files applications /\
    load_applications (H := ascii_builtins) sample_files = Returned applications.
Proof.
  apply (applications_loaded (H := ascii_builtins) sample_files).
  - intros path c Hr. simpl in Hr.
    destruct (bool_decide _) in Hr; [|discriminate].
    injection Hr as <-.
    split; repeat constructor.
  - intros d _ _. discriminate.
Defined.

Example load_applications_example :
  load_applications (H := ascii_builtins) sample_files
  = Returned [(lit "Firefox", lit "firefox", lit "firefox")].
Proof. reflexivity. Qed.

(** C5.  The launcher [editor.desktop] of the user's directory meets every
    condition for being included, as the entry [("Editor", "gedit", "")];
    the code raises when it lists [/usr/local/share/applications], which
    exists and cannot be read, and leaves [load_applications] with the
    entries of [/usr/share/applications] only.  With that directory readable
    and empty the launcher is included. *)
Theorem applications_scan_aborts_on_unreadable_directory :
  let launcher := lit "/home/user/.local/share/applications/editor.desktop" in
  let readable :=
    {| isdir := isdir unreadable_local;
       listdir := fun d =>
         if bool_decide (d = lit "/usr/local/share/applications") then Ok []
         else listdir unreadable_local d;
       expanduser := expanduser unreadable_local;
       read := read unreadable_local |} in
  isdir unreadable_local (lit "/usr/local/share/applications") = true /\
  listdir unreadable_local (lit "/usr/local/share/applications") = Raised /\
  isdir unreadable_local
    (expanduser unreadable_local (lit "~/.local/share/applications")) = true /\
  listdir unreadable_local
    (expanduser unreadable_local (lit "~/.local/share/applications"))
  = Ok [lit "editor.desktop"] /\
  Desktop_name (lit "editor.desktop") /\
  Inside (expanduser unreadable_local (lit "~/.local/share/applications"))
         (lit "editor.desktop") launcher /\
  Entry_of (H := ascii_builtins) unreadable_local launcher
           (lit "Editor", lit "gedit", []) /\
  load_applications (H := ascii_builtins) unreadable_local
  = Raises [(lit "Firefox", lit "firefox", lit "firefox")] /\
  load_applications (H := ascii_builtins) readable
  = Returned [(lit "Firefox", lit "firefox", lit "firefox");
              (lit "Editor", lit "gedit", [])].
Proof.
  cbv zeta.
  split; [reflexivity|]. split; [reflexivity|].
  split; [reflexivity|]. split; [reflexivity|].
  split; [exists (lit "editor"); reflexivity|].
  split.
  { right. split; [discriminate|]. split; [|reflexivity].
    intros Hs. apply endswith_spec in Hs. vm_compute in Hs. discriminate. }
  split; [|split; reflexivity].
  exists editor_desktop. eexists.
  exists (lit "Editor"), (lit "gedit %F"), (lit "gedit"), [lit "%F"].
  split.
  { split; [reflexivity|]. split; [reflexivity|].
    split; [vm_compute; discriminate|].
    split; [reflexivity|]. split; [discriminate|].
    split; [reflexivity|discriminate]. }
  split; [|reflexivity].
  change (lit "gedit" :: [lit "%F"]) with (split_ws None (lit "gedit %F")).
  apply split_words.
Qed.

End AppsFacts.

(** ** CPU and memory *)

Module SysInfoFacts.
Import Py Numeral SysInfo.
Import SpecFloat.




Example system_info_example :
  worker (Some {| cpu_percent := Ok (S754_finite false 25 (-1));
                  virtual_memory_percent := Ok (S754_finite false 507 (-3)) |})
  = [lit "CPU: 12% | RAM: 63%"].
Proof. reflexivity. Qed.

End SysInfoFacts.

(** ** The clock *)

Module ClockFacts.
Import Py Numeral Clock.

Lemma pad2_table :
  forallb (fun n => bool_decide (pad2 n = [48 + n / 10; 48 + n mod 10]%N))
          (map N.of_nat (seq 0 100)) = true.
Proof. vm_compute. reflexivity. Qed.

Lemma pad2_two_digits n :
  (n < 100)%N -> pad2 n = [48 + n / 10; 48 + n mod 10]%N.
Proof.
  intros Hn. pose proof pad2_table as HT.
  rewrite forallb_forall in HT.
  specialize (HT n). apply bool_decide_eq_true in HT; [exact HT|].
  apply in_map_iff. exists (N.to_nat n). split; [apply N2Nat.id|].
  apply in_seq. lia.
Qed.

Lemma digit_tens n : (n < 100)%N -> is_digit (48 + n / 10).
Proof.
  intros Hn. unfold is_digit.
  assert (n / 10 < 10)%N by (apply N.Div0.div_lt_upper_bound; lia).
  generalize dependent (n / 10)%N. intros; lia.
Qed.

Lemma digit_units n : is_digit (48 + n mod 10).
Proof.
  unfold is_digit. pose proof (N.mod_upper_bound n 10 ltac:(lia)).
  generalize dependent (n mod 10)%N. intros; lia.
Qed.

Lemma strftime_HMS_shape t :
  valid t ->
  strftime_HMS t =
    [48 + hour t / 10; 48 + hour t mod 10; 58;
     48 + minute t / 10; 48 + minute t mod 10; 58;
     48 + second t / 10; 48 + second t mod 10]%N.
Proof.
  intros (Hh & Hm & Hs). unfold strftime_HMS.
  rewrite !pad2_two_digits by lia. reflexivity.
Qed.

Lemma run_slot_timers now s p : timers (run_slot now s p) = timers p.
Proof. destruct s; reflexivity. Qed.

Lemma timeout_timers name now p : timers (timeout name now p) = timers p.
Proof.
  unfold timeout. destruct (Apps.assoc name (timers p)) as [t|]; [|reflexivity].
  generalize (slots t). intros l. revert p.
  induction l as [|s l IH]; intros p; simpl; [reflexivity|].
  rewrite IH. apply run_slot_timers.
Qed.

Lemma fire_all_timers events p : timers (fire_all events p) = timers p.
Proof.
  unfold fire_all. revert p. induction events as [|ev events IH]; intros p; simpl.
  - reflexivity.
  - rewrite IH. apply timeout_timers.
Qed.

(** C7.  [setup_timers] starts [clock_timer] with an interval of 1000 ms and
    [update_clock] as the slot of its [timeout] signal.  From then on,
    whatever timers have fired before, each firing of [clock_timer] sets the
    text of the clock label to the time of the firing as [HH:MM:SS]: two
    digits each for hours, minutes and seconds, with colons between. *)
Theorem clock_label_follows_time (p : panel)
    (events : list (list N * datetime)) (now : datetime) :
  valid now ->
  Apps.assoc (lit "clock_timer") (timers (setup_timers p))
    = Some {| slots := [update_clock]; interval := Some 1000%Z |} /\
  clock_label (timeout (lit "clock_timer") now (fire_all events (setup_timers p)))
    = strftime_HMS now /\
  strftime_HMS now =
    [48 + hour now / 10; 48 + hour now mod 10; 58;
     48 + minute now / 10; 48 + minute now mod 10; 58;
     48 + second now / 10; 48 + second now mod 10]%N /\
  Forall is_digit
    [48 + hour now / 10; 48 + hour now mod 10;
     48 + minute now / 10; 48 + minute now mod 10;
     48 + second now / 10; 48 + second now mod 10]%N.
Proof.
  intros Hv. split; [reflexivity|]. split.
  - unfold timeout. rewrite fire_all_timers. reflexivity.
  - split; [apply strftime_HMS_shape; exact Hv|].
    destruct Hv as (Hh & Hm & Hs).
    repeat constructor; try apply digit_units; apply digit_tens; lia.
Qed.

Lemma clock_label_follows_time_witness :
  Apps.assoc (lit "clock_timer") (timers (setup_timers initial_panel))
    = Some {| slots := [update_clock]; interval := Some 1000%Z |} /\
  clock_label
    (timeout (lit "clock_timer") {| hour := 9; minute := 5; second := 30 |}
       (fire_all [(lit "volume_timer", {| hour := 9; minute := 5; second := 29 |})]
                 (setup_timers initial_panel)))
    = lit "09:05:30".
Proof.
  pose proof (clock_label_follows_time initial_panel
                [(lit "volume_timer", {| hour := 9; minute := 5; second := 29 |})]
                {| hour := 9; minute := 5; second := 30 |}) as Hw.
  destruct Hw as (Ht & Hl & _).
  - unfold valid. simpl. lia.
  - split; [exact Ht| exact Hl].
Defined.

End ClockFacts.

(** ** Settings *)

Module SettingsFacts.
Import Py Json Settings.

(** Merging the members of a JSON object: a key of the object takes the
    value the object gives it, every other key keeps its value. *)
Lemma update_members_lookup members s key :
  items (update_members members s) !! key =
  match obj_get key members with
  | Some v => Some v
  | None => items s !! key
  end.
Proof.
  revert s. induction members as [|[k v] rest IH]; intros s; simpl.
  - reflexivity.
  - rewrite IH. simpl. destruct (obj_get key rest) as [v'|]; [reflexivity|].
    destruct (decide (k = key)) as [->|Hne].
    + apply lookup_insert_eq.
    + apply lookup_insert_ne. exact Hne.
Qed.

Lemma set_item_keeps k v s s' key :
  set_item k v s = Ok s' ->
  is_Some (items s !! key) -> is_Some (items s' !! key).
Proof.
  destruct k as [| | | |text| |]; simpl; intros [= <-]; simpl;
    try (intros; assumption).
  intros Hk. destruct (decide (text = key)) as [->|Hne].
  - rewrite lookup_insert_eq. eauto.
  - rewrite lookup_insert_ne by exact Hne. exact Hk.
Qed.

Lemma update_pairs_keeps elements s key :
  is_Some (items s !! key) ->
  is_Some (items (fst (update_pairs elements s)) !! key).
Proof.
  revert s. induction elements as [|item rest IH]; intros s Hk; simpl.
  - exact Hk.
  - destruct (as_pair item) as [[k v]|]; [|exact Hk].
    destruct (set_item k v s) as [s'|] eqn:Es; [|exact Hk].
    apply IH. eapply set_item_keeps; eauto.
Qed.

Lemma update_keeps saved s key :
  is_Some (items s !! key) ->
  is_Some (items (fst (update saved s)) !! key).
Proof.
  intros Hk. unfold update.
  destruct saved as [| | | |text|elements|members]; simpl; try exact Hk.
  - apply update_pairs_keeps. exact Hk.
  - apply update_pairs_keeps. exact Hk.
  - rewrite update_members_lookup.
    destruct (obj_get key members); [eauto|exact Hk].
Qed.

Lemma default_lookup :
  get (lit "auto_hide") default_settings = Some (JBool false) /\
  get (lit "position") default_settings = Some (JStr (lit "top")) /\
  get (lit "height") default_settings = Some (JInt 35) /\
  get (lit "show_system_info") default_settings = Some (JBool true).
Proof. repeat split; vm_compute; reflexivity. Qed.

(** C10.  After [load_settings] the four keys are always there.  When the
    file is absent or cannot be read the settings are the defaults: [False],
    ['top'], [35], [True].  When the file holds a JSON object, each of its
    keys has the value the file gives it and every other key keeps its
    default. *)
Theorem load_settings_spec (file : config_file) :
  Forall (fun key => is_Some (get key (load_settings file))) default_keys /\
  (file = Absent \/ file = Unreadable ->
   load_settings file = default_settings /\
   get (lit "auto_hide") (load_settings file) = Some (JBool false) /\
   get (lit "position") (load_settings file) = Some (JStr (lit "top")) /\
   get (lit "height") (load_settings file) = Some (JInt 35) /\
   get (lit "show_system_info") (load_settings file) = Some (JBool true)) /\
  (forall members key, file = Document (JObj members) ->
     get key (load_settings file) =
     match obj_get key members with
     | Some v => Some v
     | None => get key default_settings
     end).
Proof.
  destruct default_lookup as (Ha & Hp & Hh & Hs).
  split.
  { assert (Hd : Forall (fun key => is_Some (get key default_settings)) default_keys).
    { repeat constructor; unfold get in *; eauto. }
    destruct file as [| |saved]; try exact Hd.
    simpl. eapply Forall_impl; [exact Hd|].
    intros key Hk. unfold get in *. apply update_keeps. exact Hk. }
  split.
  { intros [-> | ->]; simpl; auto. }
  intros members key ->. simpl. unfold get. apply update_members_lookup.
Qed.

Example load_settings_example :
  let s := load_settings
             (Document (JObj [(lit "height", JInt 48);
                              (lit "position", JStr (lit "bottom"))])) in
  get (lit "height") s = Some (JInt 48) /\
  get (lit "position") s = Some (JStr (lit "bottom")) /\
  get (lit "auto_hide") s = Some (JBool false) /\
  get (lit "show_system_info") s = Some (JBool true).
Proof. repeat split; vm_compute; reflexivity. Qed.

(** A document that is a list of pairs is merged pair by pair until one
    cannot be used; what was set before stays. *)
Example load_settings_from_pairs :
  let s := load_settings
             (Document (JArr [JArr [JStr (lit "height"); JInt 48]; JInt 7;
                              JArr [JStr (lit "position"); JStr (lit "left")]])) in
  get (lit "height") s = Some (JInt 48) /\
  get (lit "position") s = Some (JStr (lit "top")).
Proof. repeat split; vm_compute; reflexivity. Qed.

End SettingsFacts.

(** ** Favourites *)

Module FavoritesFacts.
Import Py Favorites.

Lemma add_favorite_present fav favorites :
  elem_of fav favorites -> add_favorite fav favorites = favorites.
Proof. intros Hin. unfold add_favorite. rewrite bool_decide_eq_true_2; auto. Qed.

Lemma add_favorite_absent fav favorites :
  ~ elem_of fav favorites -> add_favorite fav favorites = favorites ++ [fav].
Proof. intros Hin. unfold add_favorite. rewrite bool_decide_eq_false_2; auto. Qed.

Lemma remove_favorite_absent fav favorites :
  ~ elem_of fav favorites -> remove_favorite fav favorites = favorites.
Proof.
  unfold remove_favorite. induction favorites as [|f l IH]; intros Hin.
  - reflexivity.
  - rewrite filter_cons. rewrite not_elem_of_cons in Hin. destruct Hin as [Hne Hin].
    rewrite decide_True by congruence. rewrite IH by exact Hin. reflexivity.
Qed.

(** After a restart no favourite is a tuple. *)
Lemma reloaded_no_tuple item favorites :
  ~ elem_of (Tuple item) (reloaded favorites).
Proof.
  unfold reloaded. intros Hin. apply list_elem_of_fmap in Hin.
  destruct Hin as (f & E & _). discriminate.
Qed.

(** X2.  Favourites are compared as Python compares them: a tuple equals a
    tuple with the same fields and never a list.  [add_favorite] makes the
    entry of the item a favourite, appends it only when no favourite equals
    it, and keeps a list without repetition free of repetition;
    [remove_favorite] removes every favourite equal to the entry of the item
    and keeps the others in their order; adding an entry that equals no
    favourite and removing it again gives back the list.  After a restart
    the favourites read from the file are lists and the items carry tuples:
    [remove_favorite] then removes nothing, and [add_favorite] appends the
    entry also when a favourite with the same fields is in the list, which
    the next restart reads as a repetition. *)
Theorem favorites_add_remove (fav : favorite) (favorites : list favorite) :
  elem_of fav (add_favorite fav favorites) /\
  (NoDup favorites -> NoDup (add_favorite fav favorites)) /\
  ~ elem_of fav (remove_favorite fav favorites) /\
  (forall f, f <> fav ->
     (elem_of f (remove_favorite fav favorites) <-> elem_of f favorites)) /\
  sublist (remove_favorite fav favorites) favorites /\
  (~ elem_of fav favorites ->
   remove_favorite fav (add_favorite fav favorites) = favorites) /\
  add_favorite fav (add_favorite fav favorites) = add_favorite fav favorites /\
  (forall name command icon,
     remove_favorite (item_data name command icon) (reloaded favorites)
     = reloaded favorites /\
     add_favorite (item_data name command icon) (reloaded favorites)
     = reloaded favorites ++ [item_data name command icon] /\
     reloaded (add_favorite (item_data name command icon) (reloaded favorites))
     = reloaded favorites ++ [PyList [name; command; icon]]).
Proof.
  assert (Hin : elem_of fav (add_favorite fav favorites)).
  { destruct (decide (elem_of fav favorites)) as [Hi|Hn].
    - rewrite add_favorite_present; assumption.
    - rewrite add_favorite_absent by assumption.
      apply elem_of_app. right. apply list_elem_of_singleton. reflexivity. }
  split; [exact Hin|]. split.
  { intros Hnd. destruct (decide (elem_of fav favorites)) as [Hi|Hn].
    - rewrite add_favorite_present; assumption.
    - rewrite add_favorite_absent by assumption.
      apply NoDup_app. split; [exact Hnd|]. split; [|apply NoDup_singleton].
      intros x Hx Hx'. apply list_elem_of_singleton in Hx'. congruence. }
  split.
  { unfold remove_favorite. intros Hf. apply list_elem_of_filter in Hf.
    destruct Hf as [Hne _]. congruence. }
  split.
  { intros f Hne. unfold remove_favorite. rewrite list_elem_of_filter. tauto. }
  split; [apply sublist_filter|].
  split.
  { intros Hn. rewrite add_favorite_absent by exact Hn.
    unfold remove_favorite. rewrite filter_app.
    fold (remove_favorite fav favorites).
    rewrite remove_favorite_absent by exact Hn.
    rewrite filter_cons, decide_False by (intros Hc; apply Hc; reflexivity).
    rewrite filter_nil. apply app_nil_r. }
  split; [apply add_favorite_present; exact Hin|].
  intros name command icon. unfold item_data.
  split; [apply remove_favorite_absent, reloaded_no_tuple|].
  rewrite add_favorite_absent by apply reloaded_no_tuple.
  split; [reflexivity|].
  unfold reloaded. rewrite map_app, map_map. cbn [map fields_of].
  reflexivity.
Qed.

(** The default favourites, saved and read again: Firefox can no longer be
    removed, and adding it again repeats it. *)
Example favorites_after_restart :
  let firefox := item_data (lit "Firefox") (lit "firefox") (lit "firefox") in
  let vlc := item_data (lit "VLC") (lit "vlc") (lit "vlc") in
  remove_favorite firefox [firefox; vlc] = [vlc] /\
  remove_favorite firefox (reloaded [firefox; vlc]) = reloaded [firefox; vlc] /\
  reloaded (add_favorite firefox (reloaded [firefox; vlc]))
  = reloaded [firefox; vlc; firefox].
Proof. repeat split; reflexivity. Qed.

End FavoritesFacts.

(** ** The launcher list *)

Module LaunchersFacts.
Import Launchers.

Section Items.
Context {A : Type}.

Lemma delete_middle (pre : list A) x post :
  delete (length pre) (pre ++ x :: post) = pre ++ post.
Proof. induction pre as [|y pre IH]; simpl; [reflexivity|]. f_equal. exact IH. Qed.

Lemma lookup_middle (pre : list A) x post :
  (pre ++ x :: post) !! length pre = Some x.
Proof. induction pre as [|y pre IH]; simpl; [reflexivity|exact IH]. Qed.

Lemma insertItem_at (pre : list A) x post :
  insertItem (length pre) x (pre ++ post) = pre ++ x :: post.
Proof.
  unfold insertItem. rewrite take_app_length, drop_app_length. reflexivity.
Qed.

(** Moving up swaps the selected row with the row above it. *)
Lemma move_launcher_up_swap (pre : list A) a b post :
  move_launcher_up (pre ++ a :: b :: post, Z.of_nat (S (length pre)))
  = (pre ++ b :: a :: post, Z.of_nat (length pre)).
Proof.
  unfold move_launcher_up. cbn [fst snd].
  destruct (Z.ltb_spec 0 (Z.of_nat (S (length pre)))) as [_|Hc]; [|lia].
  rewrite Nat2Z.id.
  replace (pre ++ a :: b :: post) with ((pre ++ [a]) ++ b :: post)
    by (rewrite <- app_assoc; reflexivity).
  replace (S (length pre)) with (length (pre ++ [a]))
    by (rewrite length_app; simpl; lia).
  rewrite lookup_middle, delete_middle.
  rewrite length_app. simpl.
  replace (Z.to_nat (Z.of_nat (length pre + 1) - 1)) with (length pre) by lia.
  rewrite <- app_assoc. simpl. rewrite insertItem_at.
  f_equal. lia.
Qed.

(** Moving down swaps the selected row with the row below it. *)
Lemma move_launcher_down_swap (pre : list A) a b post :
  move_launcher_down (pre ++ a :: b :: post, Z.of_nat (length pre))
  = (pre ++ b :: a :: post, Z.of_nat (S (length pre))).
Proof.
  unfold move_launcher_down. cbn [fst snd].
  rewrite length_app. simpl length.
  destruct (Z.ltb_spec (Z.of_nat (length pre))
              (Z.of_nat (length pre + S (S (length post))) - 1)) as [_|Hc]; [|lia].
  destruct (Z.leb_spec 0 (Z.of_nat (length pre))) as [_|Hc]; [|lia].
  cbn [andb]. rewrite Nat2Z.id.
  rewrite lookup_middle, delete_middle.
  replace (Z.to_nat (Z.of_nat (length pre) + 1)) with (length (pre ++ [b]))
    by (rewrite length_app; simpl; lia).
  replace (pre ++ b :: post) with ((pre ++ [b]) ++ post)
    by (rewrite <- app_assoc; reflexivity).
  rewrite insertItem_at. rewrite <- app_assoc. simpl.
  f_equal. lia.
Qed.

(** A row and the row above it, with what is before and after them. *)
Lemma split_at_row (items : list A) (row : nat) :
  (0 < row < length items)%nat ->
  exists pre a b post,
    items = pre ++ a :: b :: post /\ row = S (length pre).
Proof.
  intros Hr.
  exists (take (row - 1) items).
  destruct (drop (row - 1) items) as [|a [|b post]] eqn:Hd.
  - apply (f_equal length) in Hd. rewrite length_drop in Hd. simpl in Hd. lia.
  - apply (f_equal length) in Hd. rewrite length_drop in Hd. simpl in Hd. lia.
  - exists a, b, post. split.
    + rewrite <- Hd. symmetry. apply take_drop.
    + rewrite length_take. lia.
Qed.

(** X3.  On a list with a selected row, [move_launcher_up] followed by
    [move_launcher_down] gives back the list and the selection when the row
    is not the first, and so does [move_launcher_down] followed by
    [move_launcher_up] when it is not the last.  Each move is a permutation
    of the rows and keeps the selection on the launcher that was selected;
    the first row does not move up, the last does not move down, and with no
    row selected nothing moves. *)
Theorem launcher_moves (items : list A) (row : Z) :
  ((0 < row < Z.of_nat (length items))%Z ->
   move_launcher_down (move_launcher_up (items, row)) = (items, row) /\
   snd (move_launcher_up (items, row)) = (row - 1)%Z /\
   fst (move_launcher_up (items, row)) !! Z.to_nat (row - 1)
     = items !! Z.to_nat row) /\
  ((0 <= row < Z.of_nat (length items) - 1)%Z ->
   move_launcher_up (move_launcher_down (items, row)) = (items, row) /\
   snd (move_launcher_down (items, row)) = (row + 1)%Z /\
   fst (move_launcher_down (items, row)) !! Z.to_nat (row + 1)
     = items !! Z.to_nat row) /\
  Permutation (fst (move_launcher_up (items, row))) items /\
  Permutation (fst (move_launcher_down (items, row))) items /\
  ((row <= 0)%Z -> move_launcher_up (items, row) = (items, row)) /\
  ((row < 0 \/ Z.of_nat (length items) - 1 <= row)%Z ->
   move_launcher_down (items, row) = (items, row)).
Proof.
  assert (Hup : (0 < row < Z.of_nat (length items))%Z ->
                exists pre a b post,
                  items = pre ++ a :: b :: post /\
                  row = Z.of_nat (S (length pre))).
  { intros Hr. destruct (split_at_row items (Z.to_nat row)) as (pre & a & b & post & -> & Hrow);
      [lia|]. exists pre, a, b, post. split; [reflexivity|lia]. }
  assert (Hdown : (0 <= row < Z.of_nat (length items) - 1)%Z ->
                  exists pre a b post,
                    items = pre ++ a :: b :: post /\
                    row = Z.of_nat (length pre)).
  { intros Hr. destruct (split_at_row items (S (Z.to_nat row))) as (pre & a & b & post & -> & Hrow);
      [lia|]. exists pre, a, b, post. split; [reflexivity|lia]. }
  assert (Hup0 : (row <= 0)%Z -> move_launcher_up (items, row) = (items, row)).
  { intros Hr. unfold move_launcher_up. cbn [fst snd].
    destruct (Z.ltb_spec 0 row); [lia|reflexivity]. }
  assert (Hdown0 : (row < 0 \/ Z.of_nat (length items) - 1 <= row)%Z ->
                   move_launcher_down (items, row) = (items, row)).
  { intros Hr. unfold move_launcher_down. cbn [fst snd].
    destruct (Z.ltb_spec row (Z.of_nat (length items) - 1)),
             (Z.leb_spec 0 row); simpl; try reflexivity. lia. }
  split.
  { intros Hr. destruct (Hup Hr) as (pre & a & b & post & -> & ->).
    rewrite move_launcher_up_swap. rewrite move_launcher_down_swap.
    split; [reflexivity|]. cbn [fst snd]. split; [lia|].
    replace (Z.to_nat (Z.of_nat (S (length pre)) - 1)) with (length pre) by lia.
    rewrite Nat2Z.id. rewrite lookup_middle.
    replace (pre ++ a :: b :: post) with ((pre ++ [a]) ++ b :: post)
      by (rewrite <- app_assoc; reflexivity).
    replace (S (length pre)) with (length (pre ++ [a]))
      by (rewrite length_app; simpl; lia).
    rewrite lookup_middle. reflexivity. }
  split.
  { intros Hr. destruct (Hdown Hr) as (pre & a & b & post & -> & ->).
    rewrite move_launcher_down_swap. rewrite move_launcher_up_swap.
    split; [reflexivity|]. cbn [fst snd]. split; [lia|].
    replace (Z.to_nat (Z.of_nat (length pre) + 1)) with (S (length pre)) by lia.
    rewrite Nat2Z.id. rewrite lookup_middle.
    replace (pre ++ b :: a :: post) with ((pre ++ [b]) ++ a :: post)
      by (rewrite <- app_assoc; reflexivity).
    replace (S (length pre)) with (length (pre ++ [b]))
      by (rewrite length_app; simpl; lia).
    rewrite lookup_middle. reflexivity. }
  split.
  { destruct (Z.le_gt_cases row 0) as [Hr|Hr]; [rewrite Hup0 by exact Hr; reflexivity|].
    destruct (Z.lt_ge_cases row (Z.of_nat (length items))) as [Hlt|Hge].
    - destruct (Hup (conj Hr Hlt)) as (pre & a & b & post & -> & ->).
      rewrite move_launcher_up_swap. cbn [fst].
      apply Permutation_app_head. apply perm_swap.
    - unfold move_launcher_up. cbn [fst snd].
      destruct (Z.ltb_spec 0 row); [|reflexivity].
      rewrite lookup_ge_None_2 by lia. reflexivity. }
  split.
  { destruct (Z.lt_ge_cases row 0) as [Hr|Hr];
      [rewrite Hdown0 by (left; exact Hr); reflexivity|].
    destruct (Z.lt_ge_cases row (Z.of_nat (length items) - 1)) as [Hlt|Hge];
      [|rewrite Hdown0 by (right; lia); reflexivity].
    destruct (Hdown (conj Hr Hlt)) as (pre & a & b & post & -> & ->).
    rewrite move_launcher_down_swap. cbn [fst].
    apply Permutation_app_head. apply perm_swap. }
  split; assumption.
Qed.

(** Removing the selected row deletes that row and no other. *)
Lemma remove_selected_launcher_spec (items : list A) (row : Z) :
  ((0 <= row < Z.of_nat (length items))%Z ->
   remove_selected_launcher row items
   = take (Z.to_nat row) items ++ drop (S (Z.to_nat row)) items) /\
  ((row < 0 \/ Z.of_nat (length items) <= row)%Z ->
   remove_selected_launcher row items = items).
Proof.
  unfold remove_selected_launcher. split.
  - intros Hr. destruct (Z.leb_spec 0 row); [|lia]. apply delete_take_drop.
  - intros [Hr|Hr]; destruct (Z.leb_spec 0 row); try lia; try reflexivity.
    rewrite delete_take_drop. rewrite take_ge, drop_ge by lia. apply app_nil_r.
Qed.

End Items.
End LaunchersFacts.

(** ** Battery *)

Module BatteryFacts.
Import Py Numeral Battery.

(** X4.  For a time that is not negative [format_time] writes whole hours
    and minutes, rounded down: the minutes are below 60, the hours are
    written exactly when the time is an hour or more, and the time written
    is at most the time given and less than a minute below it.  A negative
    time is written "Calculando...", which [time_left] never lets through. *)
Theorem format_time_spec (seconds : Z) :
  ((seconds < 0)%Z -> format_time seconds = lit "Calculando...") /\
  ((0 <= seconds)%Z ->
   exists hours minutes,
     (0 <= hours /\ 0 <= minutes < 60 /\
      3600 * hours + 60 * minutes <= seconds
        < 3600 * hours + 60 * minutes + 60)%Z /\
     format_time seconds =
       (if (3600 <=? seconds)%Z
        then str_int hours ++ lit "h " ++ str_int minutes ++ lit "m"
        else str_int minutes ++ lit "m")) /\
  (forall t, time_left seconds = Some t -> t = seconds /\ (0 < t)%Z).
Proof.
  split.
  { intros Hn. unfold format_time. destruct (Z.ltb_spec seconds 0); [reflexivity|lia]. }
  split.
  { intros Hs. exists (seconds / 3600)%Z, ((seconds mod 3600) / 60)%Z.
    pose proof (Z.div_mod seconds 3600 ltac:(lia)) as H1.
    pose proof (Z.mod_pos_bound seconds 3600 ltac:(lia)) as H2.
    pose proof (Z.div_mod (seconds mod 3600) 60 ltac:(lia)) as H3.
    pose proof (Z.mod_pos_bound (seconds mod 3600) 60 ltac:(lia)) as H4.
    assert (H5 : (0 <= seconds / 3600)%Z) by (apply Z.div_pos; lia).
    assert (H6 : (0 <= (seconds mod 3600) / 60)%Z) by (apply Z.div_pos; lia).
    split.
    - generalize dependent ((seconds mod 3600) / 60)%Z.
      generalize dependent ((seconds mod 3600) mod 60)%Z.
      generalize dependent (seconds mod 3600)%Z.
      generalize dependent (seconds / 3600)%Z. intros. lia.
    - unfold format_time. destruct (Z.ltb_spec seconds 0); [lia|].
      cbv zeta.
      destruct (Z.ltb_spec 0 (seconds / 3600)), (Z.leb_spec 3600 seconds);
        try reflexivity.
      + exfalso. assert (seconds / 3600 = 0)%Z by (apply Z.div_small; lia). lia.
      + exfalso.
        assert (1 <= seconds / 3600)%Z by (apply Z.div_le_lower_bound; lia). lia. }
  intros t. unfold time_left. destruct (Z.ltb_spec 0 seconds); [|discriminate].
  intros [= <-]. split; [reflexivity|assumption].
Qed.

Example format_time_examples :
  map format_time [59; 3599; 3600; 86399]%Z
  = [lit "0m"; lit "59m"; lit "1h 0m"; lit "23h 59m"].
Proof. reflexivity. Qed.

End BatteryFacts.

(** ** Bluetooth *)

Module BluetoothFacts.
Import Py PyFacts Bluetooth.

Lemma words_are_words s ws : Words s ws -> Forall Word ws.
Proof. induction 1; constructor; auto. Qed.

(** Splitting the words joined by single spaces gives the words back. *)
Lemma split_join_space ws :
  Forall Word ws -> split_ws None (join_space ws) = ws.
Proof.
  unfold split_ws. induction 1 as [|w ws [Hne Hw] Hws IH]; [reflexivity|].
  destruct ws as [|w' ws'].
  - cbn [join_space]. rewrite <- (app_nil_r w) at 1.
    rewrite split_word_unlimited by (auto; exact I). reflexivity.
  - change (join_space (w :: w' :: ws'))
      with (w ++ [32%N] ++ join_space (w' :: ws')).
    rewrite split_word_unlimited by (auto; reflexivity).
    rewrite (split_skip None [32%N]) by (repeat constructor).
    f_equal. exact IH.
Qed.

Section WithBuiltins.
Context `{Builtins}.

Lemma device_line_id bt line d tokens :
  split_ws None line = tokens -> Device_line bt line d ->
  exists first rest, tokens = first :: id d :: rest.
Proof.
  intros Ht (first & rest & text & HW & _). apply words_split in HW.
  exists first, rest. congruence.
Qed.

Lemma bluetooth_scan_line_cases bt line devices :
  (exists d, Device_line bt line d /\ scan_line bt line devices = devices ++ [d]) \/
  ((forall d, ~ Device_line bt line d) /\ scan_line bt line devices = devices).
Proof.
  unfold scan_line.
  destruct (truthy_cases (strip line)) as [[T Hs]|[T Hs]]; rewrite T.
  { right. split; [|reflexivity]. intros d Hd.
    destruct (device_line_id bt line d _ eq_refl Hd) as (f & r & Ht).
    apply strip_nil in Hs. unfold split_ws in Ht.
    rewrite split_blank in Ht by exact Hs. discriminate. }
  pose proof (split_words line) as HW.
  destruct (split_ws None line) as [|first [|dev_id rest]] eqn:Ht;
    try (right; split; [|reflexivity]; intros d Hd;
         destruct (device_line_id bt line d _ Ht Hd) as (f & r & E);
         discriminate).
  cbn [lookup list_lookup drop].
  destruct (info bt dev_id) as [text|] eqn:Hi.
  - left. eexists. split; [|reflexivity].
    exists first, rest, text. cbn [id name connected type icon].
    split; [exact HW|]. split; [exact Hi|]. split; [reflexivity|].
    split; [apply contains_spec|].
    symmetry. apply surjective_pairing.
  - right. split; [|reflexivity]. intros d Hd.
    destruct (device_line_id bt line d _ Ht Hd) as (f & r & E).
    destruct Hd as (f' & r' & text & _ & Hinfo & _).
    injection E as _ E _. rewrite <- E in Hinfo. congruence.
Qed.

Lemma bluetooth_scan_lines_paired bt lines :
  forall devices, exists found,
    scan_lines bt lines devices = devices ++ found /\ Paired bt lines found.
Proof.
  induction lines as [|line rest IH]; intros devices; simpl.
  - exists []. rewrite app_nil_r. split; [reflexivity|constructor].
  - destruct (bluetooth_scan_line_cases bt line devices)
      as [(d & Hd & ->)|(Hn & ->)].
    + destruct (IH (devices ++ [d])) as (found & -> & HP).
      exists (d :: found). rewrite <- app_assoc. split; [reflexivity|].
      constructor; assumption.
    + destruct (IH devices) as (found & -> & HP).
      exists found. split; [reflexivity|]. apply Paired_skip; assumption.
Qed.

Lemma paired_from_lines bt lines devices :
  Paired bt lines devices ->
  Forall (fun d => exists line, In line lines /\ Device_line bt line d) devices.
Proof.
  induction 1 as [|line rest d devices Hd _ IH|line rest devices _ _ IH].
  - constructor.
  - constructor.
    + exists line. split; [left; reflexivity|exact Hd].
    + eapply Forall_impl; [exact IH|]. intros d' (l & Hl & Hd').
      exists l. split; [right; exact Hl|exact Hd'].
  - eapply Forall_impl; [exact IH|]. intros d' (l & Hl & Hd').
    exists l. split; [right; exact Hl|exact Hd'].
Qed.

(** X5.  [get_bluetooth_status] reports an error when [bluetoothctl] is not
    installed or a query of the controller or of the paired devices fails,
    and no device when the controller is not powered.  Otherwise it lists,
    in the order of the lines of [paired-devices], one device for each line
    that has an address (a second word) and whose [info] query succeeds: a
    line without address or with a failing query drops that device only. *)
Theorem bluetooth_status_spec (bt : bluetoothctl) :
  (which bt = Raised -> get_bluetooth_status bt = Error None) /\
  (forall returncode, which bt = Ok returncode -> returncode <> 0%Z ->
     get_bluetooth_status bt = Error (Some not_installed)) /\
  (which bt = Ok 0%Z -> show bt = Raised ->
   get_bluetooth_status bt = Error None) /\
  (forall controller_info, which bt = Ok 0%Z -> show bt = Ok controller_info ->
     ~ Windows.Substring (lit "Powered: yes") controller_info ->
     get_bluetooth_status bt = Controller false []) /\
  (forall controller_info, which bt = Ok 0%Z -> show bt = Ok controller_info ->
     Windows.Substring (lit "Powered: yes") controller_info ->
     (paired_devices bt = Raised -> get_bluetooth_status bt = Error None) /\
     (forall paired, paired_devices bt = Ok paired ->
        exists devices,
          get_bluetooth_status bt = Controller true devices /\
          Paired bt (splitlines paired) devices)).
Proof.
  unfold get_bluetooth_status.
  split; [intros ->; reflexivity|].
  split.
  { intros rc -> Hrc. destruct (Z.eqb_spec rc 0); [contradiction|reflexivity]. }
  split; [intros -> ->; reflexivity|].
  split.
  { intros ci -> -> Hp. change (negb (0 =? 0)%Z) with false. cbv iota.
    destruct (contains (lit "Powered: yes") ci) eqn:Hc; [|reflexivity].
    exfalso. apply Hp. apply contains_spec. exact Hc. }
  intros ci -> -> Hp. apply contains_spec in Hp.
  change (negb (0 =? 0)%Z) with false. cbv iota. rewrite Hp. cbn [negb].
  split; [intros ->; reflexivity|].
  intros paired ->.
  destruct (bluetooth_scan_lines_paired bt (splitlines paired) [])
    as (found & -> & HP).
  exists found. split; [reflexivity|exact HP].
Qed.

(** X6.  The name of every device listed is made of the words of its line
    after the address, separated by single spaces: cutting the name at white
    space and joining the pieces with single spaces gives the name back. *)
Theorem bluetooth_names_are_normal (bt : bluetoothctl) (devices : list device) :
  get_bluetooth_status bt = Controller true devices ->
  Forall (fun d => join_space (split_ws None (name d)) = name d /\
                   exists line first rest,
                     Words line (first :: id d :: rest) /\
                     split_ws None (name d) = rest)
         devices.
Proof.
  unfold get_bluetooth_status.
  destruct (which bt) as [rc|]; [|discriminate].
  destruct (negb (rc =? 0)%Z); [discriminate|].
  destruct (show bt) as [ci|]; [|discriminate].
  destruct (negb (contains (lit "Powered: yes") ci)); [discriminate|].
  destruct (paired_devices bt) as [paired|]; [|discriminate].
  intros [= <-].
  destruct (bluetooth_scan_lines_paired bt (splitlines paired) [])
    as (found & -> & HP).
  cbn [app]. apply paired_from_lines in HP.
  eapply Forall_impl; [exact HP|].
  intros d (line & _ & first & rest & text & HW & _ & Hn & _).
  assert (Hrest : Forall Word rest).
  { apply words_are_words in HW. inversion HW as [|? ? _ HW']; subst.
    inversion HW'; subst. assumption. }
  rewrite Hn, split_join_space by exact Hrest.
  split; [reflexivity|]. exists line, first, rest. auto.
Qed.

End WithBuiltins.

Example bluetooth_status_example :
  get_bluetooth_status (H := ascii_builtins) sample_bluetoothctl
  = Controller true
      [{| id := lit "AA:BB:CC:DD:EE:01"; name := lit "Logitech Mouse";
          connected := true; type := lit "mouse"; icon := lit "input-mouse" |};
       {| id := lit "AA:BB:CC:DD:EE:02"; name := lit "Sony Headphones";
          connected := false; type := lit "audio";
          icon := lit "audio-headset" |}].
Proof. reflexivity. Qed.

Lemma bluetooth_names_are_normal_witness :
  Forall (fun d => join_space (split_ws None (name d)) = name d /\
                   exists line first rest,
                     Words line (first :: id d :: rest) /\
                     split_ws None (name d) = rest)
    [{| id := lit "AA:BB:CC:DD:EE:01"; name := lit "Logitech Mouse";
        connected := true; type := lit "mouse"; icon := lit "input-mouse" |};
     {| id := lit "AA:BB:CC:DD:EE:02"; name := lit "Sony Headphones";
        connected := false; type := lit "audio";
        icon := lit "audio-headset" |}].
Proof.
  apply (bluetooth_names_are_normal (H := ascii_builtins) sample_bluetoothctl).
  reflexivity.
Defined.

End BluetoothFacts.

(** ** Virtual desktops *)

Module WorkspacesFacts.
Import Py PyFacts Numeral Bluetooth Workspaces.

(** A line without line end, followed by a line feed, is read as one line. *)
Lemma splitlines_scan_plain l :
  plain_line l -> forall cur rest,
  splitlines_scan cur (l ++ 10%N :: rest)
  = (rev (default [] cur) ++ l) :: splitlines_scan None rest.
Proof.
  induction 1 as [|c l Hc _ IH]; intros cur rest.
  - cbn [app splitlines_scan]. change (is_linebreak 10) with true.
    cbv iota. change (10 =? 13)%N with false. cbv iota.
    rewrite app_nil_r. reflexivity.
  - cbn [app splitlines_scan]. rewrite Hc. rewrite IH.
    cbn [default]. unfold Datatypes.id. cbn [rev].
    rewrite <- app_assoc. reflexivity.
Qed.

Lemma splitlines_printed lines :
  Forall plain_line lines -> splitlines (printed lines) = lines.
Proof.
  unfold splitlines, printed.
  induction 1 as [|l lines Hl _ IH]; [reflexivity|].
  cbn [map concat]. rewrite <- app_assoc. cbn [app].
  rewrite splitlines_scan_plain by exact Hl. cbn [default rev app].
  f_equal. exact IH.
Qed.

Lemma count_newlines_plain l : plain_line l -> count_newlines l = 0%nat.
Proof.
  unfold count_newlines.
  induction 1 as [|c l Hc _ IH]; [reflexivity|].
  rewrite filter_cons. destruct (decide (c = 10%N)) as [->|_]; [discriminate|].
  exact IH.
Qed.

Lemma count_newlines_app a b :
  count_newlines (a ++ b) = (count_newlines a + count_newlines b)%nat.
Proof. unfold count_newlines. rewrite filter_app, length_app. reflexivity. Qed.

Lemma count_newlines_printed lines :
  Forall plain_line lines -> count_newlines (printed lines) = length lines.
Proof.
  unfold printed. induction 1 as [|l lines Hl _ IH]; [reflexivity|].
  cbn [map concat length]. rewrite !count_newlines_app, IH.
  rewrite count_newlines_plain by exact Hl. reflexivity.
Qed.

Lemma first_starred_from_spec lines :
  forall i,
    match first_starred_from i lines with
    | Some k =>
        (i <= k < i + length lines)%nat /\
        (exists l, lines !! (k - i)%nat = Some l /\
                   Windows.Substring (lit "*") l) /\
        (forall j l, (j < k - i)%nat -> lines !! j = Some l ->
                     ~ Windows.Substring (lit "*") l)
    | None => Forall (fun l => ~ Windows.Substring (lit "*") l) lines
    end.
Proof.
  induction lines as [|l rest IH]; intros i; cbn [first_starred_from].
  - constructor.
  - destruct (contains (lit "*") l) eqn:Hc.
    + cbn [length]. split; [lia|]. rewrite Nat.sub_diag. split.
      * exists l. split; [reflexivity|]. apply contains_spec. exact Hc.
      * intros j l' Hj. lia.
    + assert (Hl : ~ Windows.Substring (lit "*") l).
      { intros Hs. apply contains_spec in Hs. congruence. }
      specialize (IH (S i)). destruct (first_starred_from (S i) rest) as [k|].
      * destruct IH as (Hk & (l' & Hl' & Hs) & Hbefore). cbn [length].
        split; [lia|]. replace (k - i)%nat with (S (k - S i)) by lia.
        split; [exists l'; split; [exact Hl'|exact Hs]|].
        intros [|j] l'' Hj Hj'.
        -- injection Hj' as <-. exact Hl.
        -- apply (Hbefore j); [lia|exact Hj'].
      * constructor; assumption.
Qed.

Lemma desktop_actions_lookup num current i :
  (i < num)%nat ->
  desktop_actions num current !! i
  = Some (lit "Escritorio " ++ decimal (N.of_nat (i + 1)),
          bool_decide (i = current)).
Proof.
  intros Hi. unfold desktop_actions. rewrite list_lookup_fmap.
  rewrite lookup_seq_lt by exact Hi. reflexivity.
Qed.

(** X7.  When [wmctrl -d] prints one line per desktop, each ended by a line
    feed, the menu has one entry per desktop, [Escritorio 1], [Escritorio 2],
    ... in order; an entry is bold exactly when its line is the first that
    holds a [*], and when no line holds one the first entry is bold.  From
    the same output [create_new_workspace] asks for one desktop more than
    there are.  When the call fails the menu has the single bold entry
    [Escritorio 1] and no desktop is asked for. *)
Theorem workspace_menu_spec (lines : list (list N)) :
  Forall plain_line lines ->
  let menu := show_workspace_menu (Ok (printed lines)) (Ok (printed lines)) in
  length menu = length lines /\
  (exists current,
     (forall i, (i < length lines)%nat ->
        menu !! i = Some (lit "Escritorio " ++ decimal (N.of_nat (i + 1)),
                          bool_decide (i = current))) /\
     ((exists l, lines !! current = Some l /\
                 Windows.Substring (lit "*") l /\
                 forall j l', (j < current)%nat -> lines !! j = Some l' ->
                              ~ Windows.Substring (lit "*") l')
      \/ (current = 0%nat /\
          Forall (fun l => ~ Windows.Substring (lit "*") l) lines))) /\
  create_new_workspace (Ok (printed lines)) = Some (length lines + 1)%nat /\
  (forall second, show_workspace_menu Raised second
                  = [(lit "Escritorio 1", true)]) /\
  (forall first, show_workspace_menu first Raised
                 = [(lit "Escritorio 1", true)]) /\
  create_new_workspace Raised = None.
Proof.
  intros Hplain menu. subst menu.
  unfold show_workspace_menu, desktops, create_new_workspace.
  rewrite count_newlines_printed, splitlines_printed by exact Hplain.
  cbn [fst snd].
  split; [unfold desktop_actions; rewrite length_map, length_seq; reflexivity|].
  split.
  { exists (first_starred lines). split.
    - intros i Hi. apply desktop_actions_lookup. exact Hi.
    - unfold first_starred. pose proof (first_starred_from_spec lines 0) as HS.
      destruct (first_starred_from 0 lines) as [k|]; cbn [default];
        unfold Datatypes.id.
      + left. destruct HS as (_ & (l & Hl & Hs) & Hbefore).
        rewrite Nat.sub_0_r in Hl, Hbefore. exists l. auto.
      + right. split; [reflexivity|exact HS]. }
  split; [reflexivity|].
  split; [reflexivity|].
  split; [intros [a|]; reflexivity|reflexivity].
Qed.

Lemma workspace_menu_spec_witness :
  let menu := show_workspace_menu (Ok (printed two_desktops))
                                  (Ok (printed two_desktops)) in
  length menu = length two_desktops /\
  (exists current,
     (forall i, (i < length two_desktops)%nat ->
        menu !! i = Some (lit "Escritorio " ++ decimal (N.of_nat (i + 1)),
                          bool_decide (i = current))) /\
     ((exists l, two_desktops !! current = Some l /\
                 Windows.Substring (lit "*") l /\
                 forall j l', (j < current)%nat -> two_desktops !! j = Some l' ->
                              ~ Windows.Substring (lit "*") l')
      \/ (current = 0%nat /\
          Forall (fun l => ~ Windows.Substring (lit "*") l) two_desktops))) /\
  create_new_workspace (Ok (printed two_desktops))
  = Some (length two_desktops + 1)%nat /\
  (forall second, show_workspace_menu Raised second
                  = [(lit "Escritorio 1", true)]) /\
  (forall first, show_workspace_menu first Raised
                 = [(lit "Escritorio 1", true)]) /\
  create_new_workspace Raised = None.
Proof.
  apply (workspace_menu_spec two_desktops).
  repeat constructor.
Defined.

Example workspace_menu_example :
  show_workspace_menu (Ok (printed two_desktops)) (Ok (printed two_desktops))
  = [(lit "Escritorio 1", false); (lit "Escritorio 2", true)].
Proof. reflexivity. Qed.

(** Without the final line feed the last desktop is counted by
    [create_new_workspace] and has no entry in the menu. *)
Example workspace_menu_unterminated :
  let out := lit "0  * DG: N/A" ++ [10%N] ++ lit "1  - DG: N/A" in
  show_workspace_menu (Ok out) (Ok out) = [(lit "Escritorio 1", true)] /\
  create_new_workspace (Ok out) = Some 3%nat.
Proof. split; reflexivity. Qed.

End WorkspacesFacts.

(** ** Starting a program *)

Module LaunchFacts.
Import Py Launch.

(** X8.  The loop of [open_terminal] and [open_file_manager] starts the
    first program of the list that is installed and no other; it tries a
    program only when all programs before it were not found, starts nothing
    when none is found, and an error other than [FileNotFoundError] leaves
    the loop at the program that raised it. *)
Theorem launch_first_spec (run : list N -> popen) (programs : list (list N)) :
  (forall program,
     launch_first run programs = Launched program <->
     exists before after,
       programs = before ++ program :: after /\
       Forall (fun p => run p = NotFound) before /\
       run program = Started) /\
  (launch_first run programs = Nothing <->
   Forall (fun p => run p = NotFound) programs) /\
  (forall program,
     launch_first run programs = Propagated program <->
     exists before after,
       programs = before ++ program :: after /\
       Forall (fun p => run p = NotFound) before /\
       run program = Failed).
Proof.
  induction programs as [|p rest (IHl & IHn & IHp)].
  - split; [|split].
    + intros program. split; [discriminate|].
      intros (before & after & E & _). destruct before; discriminate.
    + split; auto.
    + intros program. split; [discriminate|].
      intros (before & after & E & _). destruct before; discriminate.
  - cbn [launch_first]. destruct (run p) eqn:Hp.
    + split; [|split].
      * intros program. split.
        -- intros [= <-]. exists [], rest. auto.
        -- intros ([|b before] & after & E & Hb & Hs).
           ++ injection E as <- _. reflexivity.
           ++ injection E as <- _. inversion Hb; congruence.
      * split; [discriminate|]. intros HF; inversion HF; congruence.
      * intros program. split; [discriminate|].
        intros ([|b before] & after & E & Hb & Hs).
        -- injection E as <- _. congruence.
        -- injection E as <- _. inversion Hb; congruence.
    + split; [|split].
      * intros program. rewrite IHl. split.
        -- intros (before & after & -> & Hb & Hs).
           exists (p :: before), after. auto.
        -- intros ([|b before] & after & E & Hb & Hs).
           ++ injection E as <- _. congruence.
           ++ injection E as <- ->. inversion Hb; subst.
              exists before, after. auto.
      * rewrite IHn. split; [intros HF; constructor; auto|].
        intros HF; inversion HF; auto.
      * intros program. rewrite IHp. split.
        -- intros (before & after & -> & Hb & Hs).
           exists (p :: before), after. auto.
        -- intros ([|b before] & after & E & Hb & Hs).
           ++ injection E as <- _. congruence.
           ++ injection E as <- ->. inversion Hb; subst.
              exists before, after. auto.
    + split; [|split].
      * intros program. split; [discriminate|].
        intros ([|b before] & after & E & Hb & Hs).
        -- injection E as <- _. congruence.
        -- injection E as <- _. inversion Hb; congruence.
      * split; [discriminate|]. intros HF; inversion HF; congruence.
      * intros program. split.
        -- intros [= <-]. exists [], rest. auto.
        -- intros ([|b before] & after & E & Hb & Hs).
           ++ injection E as <- _. reflexivity.
           ++ injection E as <- _. inversion Hb; congruence.
Qed.

Example open_terminal_example :
  let run p := if bool_decide (p = lit "konsole") then Started
               else if bool_decide (p = lit "xterm") then Started
               else NotFound in
  open_terminal run = Launched (lit "konsole") /\
  open_file_manager run = Nothing.
Proof. split; reflexivity. Qed.

End LaunchFacts.

(** ** The icon of a window button *)

Module WindowIconFacts.
Import Py PyFacts WindowIcon.

Lemma lstrip_by_suffix p s : exists g, s = g ++ lstrip_by p s.
Proof. destruct (lstrip_by_decompose p s) as (g & Hg & _). eauto. Qed.

Lemma strip_by_In p s c : In c (strip_by p s) -> In c s.
Proof.
  unfold strip_by. intros Hc.
  destruct (lstrip_by_suffix p s) as (g & Hg).
  destruct (rstrip_by_decompose p (lstrip_by p s)) as (g' & Hg' & _).
  rewrite Hg, Hg'. apply in_or_app. right. apply in_or_app. left. exact Hc.
Qed.

Lemma find_rev_spec {A} (f : A -> bool) (l : list A) :
  (exists before x after,
      l = before ++ x :: after /\ f x = true /\
      Forall (fun y => f y = false) after /\
      List.find f (rev l) = Some x) \/
  (Forall (fun y => f y = false) l /\ List.find f (rev l) = None).
Proof.
  induction l as [|a l IH] using rev_ind.
  - right. split; [constructor|reflexivity].
  - rewrite rev_app_distr. cbn [rev app List.find].
    destruct (f a) eqn:Ea.
    + left. exists l, a, []. repeat split; auto.
    + destruct IH as [(before & x & after & -> & Hx & Ha & ->)|(Hl & ->)].
      * left. exists before, x, (after ++ [a]).
        rewrite <- app_assoc. split; [reflexivity|]. split; [exact Hx|].
        split; [|reflexivity]. apply Forall_app. split; [exact Ha|].
        constructor; [exact Ea|constructor].
      * right. split; [|reflexivity]. apply Forall_app. split; [exact Hl|].
        constructor; [exact Ea|constructor].
Qed.

Lemma join_by_snoc sep init t :
  init <> [] -> join_by sep (init ++ [t]) = join_by sep init ++ sep :: t.
Proof.
  destruct init as [|f fs]; [congruence|]. intros _.
  cbn [app join_by]. rewrite map_app, concat_app. cbn [map concat].
  rewrite app_nil_r, <- app_assoc. reflexivity.
Qed.

Lemma pieces_after_last sep s pieces :
  Pieces sep s pieces -> After_last sep s (List.last pieces []).
Proof.
  intros (Hne & -> & Hall).
  destruct pieces as [|t init _] using rev_ind; [congruence|].
  rewrite last_last. apply Forall_app in Hall. destruct Hall as [_ Ht].
  split; [inversion Ht; assumption|].
  destruct init as [|f fs].
  - left. cbn [app join_by map concat]. apply app_nil_r.
  - right. exists (join_by sep (f :: fs)). apply join_by_snoc. discriminate.
Qed.

Lemma after_last_split_on sep s tail :
  After_last sep s tail -> List.last (split_on sep s) [] = tail.
Proof.
  intros (Ht & [->|(before & ->)]).
  - rewrite split_on_whole by exact Ht. reflexivity.
  - destruct (split_on_pieces sep before) as (Hne & Hj & Hall).
    assert (HP : Pieces sep (before ++ sep :: tail)
                        (split_on sep before ++ [tail])).
    { split; [intros E; apply app_eq_nil in E; destruct E; discriminate|].
      split.
      - rewrite join_by_snoc by exact Hne. rewrite <- Hj. reflexivity.
      - apply Forall_app. split; [exact Hall|]. constructor; [exact Ht|constructor]. }
    rewrite (pieces_split_on _ _ _ HP). apply last_last.
Qed.

Lemma without_quotes_spec p : Without 34 p (without_quotes p).
Proof.
  unfold without_quotes. induction p as [|x p IH]; [constructor|].
  rewrite filter_cons. destruct (decide (x <> 34%N)) as [Hx|Hx].
  - constructor; assumption.
  - assert (x = 34%N) as -> by (destruct (N.eq_dec x 34%N); [assumption|contradiction]).
    constructor. exact IH.
Qed.

Lemma without_functional c p q : Without c p q -> q = filter (fun x => x <> c) p.
Proof.
  induction 1 as [|p q _ IH|x p q Hx _ IH]; [reflexivity| |].
  - rewrite filter_cons, decide_False by (intros Hc; apply Hc; reflexivity).
    exact IH.
  - rewrite filter_cons, decide_True by exact Hx. f_equal. exact IH.
Qed.

Lemma class_names_spec output : Class_names output (class_names output).
Proof.
  exists (strip output), (List.last (split_on 61 (strip output)) []),
         (split_on 44 (List.last (split_on 61 (strip output)) [])).
  split; [apply strip_trimmed|].
  split; [apply pieces_after_last, split_on_pieces|].
  split; [apply split_on_pieces|].
  unfold class_names.
  induction (split_on 44 (List.last (split_on 61 (strip output)) []))
    as [|piece pieces IH]; cbn [map]; constructor; [|exact IH].
  exists (without_quotes piece).
  split; [apply without_quotes_spec|apply strip_trimmed].
Qed.

Lemma class_names_functional output names :
  Class_names output names -> names = class_names output.
Proof.
  intros (core & tail & pieces & Hc & Ht & Hp & Hn).
  apply trimmed_strip in Hc. subst core.
  apply after_last_split_on in Ht. apply pieces_split_on in Hp.
  unfold class_names. rewrite Ht, Hp. clear Ht Hp.
  induction Hn as [|piece name pieces names (bare & Hb & Hs) _ IH];
    [reflexivity|].
  cbn [map]. f_equal; [|exact IH].
  apply without_functional in Hb. apply trimmed_strip in Hs.
  unfold without_quotes. congruence.
Qed.

(** X9.  [get_window_icon] returns no icon when the call of [xprop] fails
    or the output does not mention [WM_CLASS].  Otherwise, with the class
    names the pieces between commas of what follows the last [=] of the
    output (the output without the white space around it), each without its
    double quotes and without the white space around it, it returns the icon
    of the last class name for which the theme has an icon, and none when
    the theme has an icon for none of them. *)
Theorem window_icon_spec (themed : list N -> bool) :
  get_window_icon themed Raised = None /\
  forall output : list N,
    (~ Windows.Substring (lit "WM_CLASS") output ->
     get_window_icon themed (Ok output) = None) /\
    exists names,
      Class_names output names /\
      (forall others, Class_names output others -> others = names) /\
      Forall (fun name => ~ In 34%N name) names /\
      (Windows.Substring (lit "WM_CLASS") output ->
       (exists before name after,
           names = before ++ name :: after /\
           themed name = true /\
           Forall (fun other => themed other = false) after /\
           get_window_icon themed (Ok output) = Some name) \/
       (Forall (fun name => themed name = false) names /\
        get_window_icon themed (Ok output) = None)).
Proof.
  split; [reflexivity|]. intros output. unfold get_window_icon.
  split.
  { intros Hn. destruct (contains (lit "WM_CLASS") output) eqn:Hc; [|reflexivity].
    exfalso. apply Hn. apply contains_spec. exact Hc. }
  exists (class_names output).
  split; [apply class_names_spec|].
  split; [intros others Ho; apply class_names_functional; exact Ho|].
  split.
  { unfold class_names. apply List.Forall_forall. intros name Hin.
    apply in_map_iff in Hin. destruct Hin as (piece & <- & _).
    intros Hq. apply strip_by_In in Hq. unfold without_quotes in Hq.
    apply list_elem_of_In, list_elem_of_filter in Hq. destruct Hq as [Hq _].
    congruence. }
  intros Hs. apply contains_spec in Hs. rewrite Hs.
  apply find_rev_spec.
Qed.

Example window_icon_example :
  let output := lit "WM_CLASS(STRING) = " ++ [34%N] ++ lit "Navigator"
                  ++ [34%N] ++ lit ", " ++ [34%N] ++ lit "firefox" ++ [34%N]
                  ++ [10%N] in
  class_names output = [lit "Navigator"; lit "firefox"] /\
  get_window_icon (fun name => bool_decide (name = lit "firefox")) (Ok output)
  = Some (lit "firefox") /\
  get_window_icon (fun name => bool_decide (name = lit "Navigator")) (Ok output)
  = Some (lit "Navigator") /\
  get_window_icon (fun _ => true) (Ok output) = Some (lit "firefox").
Proof. repeat split; reflexivity. Qed.

End WindowIconFacts.

(** ** The notification menu *)

Module NotificationMenuFacts.
Import Py Notifications NotificationsFacts NotificationMenu.

(** X10.  The menu shows the first ten notifications, in order.  The close
    button of a row, pressed while the list is the one the menu was built
    from, removes the notification that row shows and no other: the
    notifications before it and after it stay, in order. *)
Theorem notification_menu_close (notifications : list NotificationItem)
    (row : nat * NotificationItem) :
  In row (rows notifications) ->
  (fst row < 10)%nat /\
  notifications !! fst row = Some (snd row) /\
  close_row row notifications
  = take (fst row) notifications ++ drop (S (fst row)) notifications /\
  length (close_row row notifications) = (length notifications - 1)%nat /\
  map snd (rows notifications) = take 10 notifications.
Proof.
  intros Hin. unfold rows in *. destruct row as [idx notif]. cbn [fst snd].
  apply list_elem_of_In in Hin.
  apply elem_of_lookup_imap in Hin. destruct Hin as (i & x & [= -> ->] & Hi).
  apply lookup_take_Some in Hi. destruct Hi as [Hi Hlt].
  assert (Hlen : (i < length notifications)%nat)
    by (apply lookup_lt_is_Some; eauto).
  split; [exact Hlt|]. split; [exact Hi|].
  unfold close_row. cbn [fst].
  destruct (remove_notification_in_range (Z.of_nat i) notifications)
    as [Hr Hl]; [lia|].
  rewrite Hl, Hr, Nat2Z.id. split; [apply delete_take_drop|].
  split; [reflexivity|].
  generalize (take 10 notifications). intros l.
  change (map snd (imap (fun idx notif => (idx, notif)) l)) with
    (snd <$> imap (fun idx notif => (idx, notif)) l).
  rewrite fmap_imap. unfold compose. cbn [snd].
  clear. revert l. intros l. apply list_eq. intros k.
  rewrite list_lookup_imap. destruct (l !! k); reflexivity.
Qed.

Lemma notification_menu_close_witness :
  let row := (1%nat, test_notification 10) in
  (fst row < 10)%nat /\
  sample_notifications !! fst row = Some (snd row) /\
  close_row row sample_notifications
  = take (fst row) sample_notifications
    ++ drop (S (fst row)) sample_notifications /\
  length (close_row row sample_notifications)
  = (length sample_notifications - 1)%nat /\
  map snd (rows sample_notifications) = take 10 sample_notifications.
Proof.
  apply (notification_menu_close sample_notifications
           (1%nat, test_notification 10)).
  right. left. reflexivity.
Defined.

End NotificationMenuFacts.

(** ** From the list of networks to the connection *)

Module WifiConnectFacts.
Import Py PyFacts Wifi WifiFacts WifiConnect.

Section WithBuiltins.
Context `{Builtins}.




End WithBuiltins.


End WifiConnectFacts.
